(** * docx-nodejs: the template processor, embedded in Rocq

    A shallow embedding of the template engine of the repository
    (ExpressionEvaluator.js, FormatHelper.js, TemplateEngine.js,
    DocumentGenerator.js) and the properties of its specification.

    Conventions of the embedding.
    - A JavaScript string is a [string]; one [ascii] stands for one code
      unit, so the development covers texts whose code units are below 256
      (code unit 160 is the no-break space).
    - A JavaScript number is a binary64 value, [spec_float] at precision 53.
    - Objects and arrays live in a store ([heap]) and are reached through
      references, so that aliasing and mutation are visible.
    - An exception is a value [Throw]; [try]/[catch] is a match on it.
    - The services of the host runtime that the code calls (the [Function]
      constructor, [Intl.NumberFormat], moment, [Math.pow], the call of a
      function of the data) are the fields of a record [HostLib]. *)

From Stdlib Require Import String Ascii List ZArith Bool Arith Lia SpecFloat
  DecimalString.
Import ListNotations.
Open Scope list_scope.
Open Scope string_scope.

Set Implicit Arguments.

(* ===================================================================== *)
(** * Part I: definitions                                                 *)
(* ===================================================================== *)

(** ** Strings: the methods of [String.prototype] the code uses *)

Module JsString.

Definition code (c : ascii) : nat := nat_of_ascii c.

Definition inRange (lo hi : nat) (c : ascii) : bool :=
  Nat.leb lo (code c) && Nat.leb (code c) hi.

(** [\s], also the characters removed by [trim]. *)
Definition isSpace (c : ascii) : bool :=
  inRange 9 13 c || Nat.eqb (code c) 32 || Nat.eqb (code c) 160.

(** [\d] *)
Definition isDigit (c : ascii) : bool := inRange 48 57 c.

Definition isUpper (c : ascii) : bool := inRange 65 90 c.
Definition isLower (c : ascii) : bool := inRange 97 122 c.
Definition isAlpha (c : ascii) : bool := isUpper c || isLower c.

(** [\w] *)
Definition isWord (c : ascii) : bool :=
  isAlpha c || isDigit c || Nat.eqb (code c) 95.

(** Line terminators, which [.] does not match. *)
Definition isLineTerminator (c : ascii) : bool :=
  Nat.eqb (code c) 10 || Nat.eqb (code c) 13.

Fixpoint drop (n : nat) (s : string) : string :=
  match n, s with
  | O, _ => s
  | S _, EmptyString => EmptyString
  | S k, String _ r => drop k r
  end.

Fixpoint take (n : nat) (s : string) : string :=
  match n, s with
  | O, _ => EmptyString
  | S _, EmptyString => EmptyString
  | S k, String c r => String c (take k r)
  end.

(** [s.substring(a, b)]: the arguments are clamped and swapped when
    [a > b]. *)
Definition substring (s : string) (a b : nat) : string :=
  take (Nat.max a b - Nat.min a b) (drop (Nat.min a b) s).

(** [s.substring(a)] *)
Definition substringFrom (s : string) (a : nat) : string := drop a s.

(** [s.slice(a, b)] with the negative indices of JavaScript. *)
Definition sliceIndex (len : nat) (i : Z) : nat :=
  if (i <? 0)%Z then Z.to_nat (Z.max (Z.of_nat len + i) 0)
  else Nat.min (Z.to_nat i) len.

Definition slice (s : string) (a b : Z) : string :=
  let lo := sliceIndex (String.length s) a in
  let hi := sliceIndex (String.length s) b in
  take (hi - lo) (drop lo s).

Definition sliceFrom (s : string) (a : Z) : string :=
  drop (sliceIndex (String.length s) a) s.

Fixpoint startsWith (s p : string) : bool :=
  match p, s with
  | EmptyString, _ => true
  | String _ _, EmptyString => false
  | String a p', String b s' => Ascii.eqb a b && startsWith s' p'
  end.

Definition endsWith (s p : string) : bool :=
  Nat.leb (String.length p) (String.length s) && String.eqb (drop (String.length s - String.length p) s) p.

(** First occurrence of [p] in [s], as an offset into [s]. *)
Fixpoint indexOf (s p : string) : option nat :=
  if startsWith s p then Some 0
  else match s with
       | EmptyString => None
       | String _ r => option_map S (indexOf r p)
       end.

(** [s.indexOf(p, from)] *)
Definition indexOfFrom (s p : string) (from : nat) : option nat :=
  if Nat.ltb (String.length s) from then (if String.eqb p "" then Some (String.length s) else None)
  else option_map (Nat.add from) (indexOf (drop from s) p).

Definition includes (s p : string) : bool :=
  match indexOf s p with Some _ => true | None => false end.

(** Whether [p] occurs in [s] at offset [i]. *)
Definition occursAt (s p : string) (i : nat) : bool := startsWith (drop i s) p.

Fixpoint trimStart (s : string) : string :=
  match s with
  | String c r => if isSpace c then trimStart r else s
  | EmptyString => EmptyString
  end.

Fixpoint trimEnd (s : string) : string :=
  match s with
  | EmptyString => EmptyString
  | String c r =>
      match trimEnd r with
      | EmptyString => if isSpace c then EmptyString else String c EmptyString
      | r' => String c r'
      end
  end.

Definition trim (s : string) : string := trimEnd (trimStart s).

Fixpoint join (sep : string) (l : list string) : string :=
  match l with
  | [] => ""
  | [x] => x
  | x :: r => x ++ sep ++ join sep r
  end.

(** [s.split(sep)] for a separator of one character. *)
Fixpoint splitChar (sep : ascii) (s : string) : list string :=
  match s with
  | EmptyString => [""]
  | String c r =>
      if Ascii.eqb c sep then "" :: splitChar sep r
      else match splitChar sep r with
           | x :: xs => String c x :: xs
           | [] => [String c ""]
           end
  end.

(** The letters of Latin-1 above ASCII: the capitals from 192 to 222
    but the multiplication sign 215, the small letters from 224 to 254
    but the division sign 247. *)
Definition isUpperLatin (c : ascii) : bool :=
  Nat.leb 192 (code c) && Nat.leb (code c) 222 && negb (Nat.eqb (code c) 215).

Definition isLowerLatin (c : ascii) : bool :=
  Nat.leb 224 (code c) && Nat.leb (code c) 254 && negb (Nat.eqb (code c) 247).

Definition toUpperChar (c : ascii) : ascii :=
  if isLower c || isLowerLatin c then ascii_of_nat (code c - 32) else c.

Definition toLowerChar (c : ascii) : ascii :=
  if isUpper c || isUpperLatin c then ascii_of_nat (code c + 32) else c.

Fixpoint mapChars (f : ascii -> ascii) (s : string) : string :=
  match s with
  | EmptyString => EmptyString
  | String c r => String (f c) (mapChars f r)
  end.

(** [s.toUpperCase()] and [s.toLowerCase()] on code units below 256. The
    sharp s (223) becomes [SS]. The capitals of the micro sign (181) and
    of the y with diaeresis (255) are code units above 255, outside the
    texts of this development: the two letters are left as they are. *)
Fixpoint toUpperCase (s : string) : string :=
  match s with
  | EmptyString => EmptyString
  | String c r =>
      if Nat.eqb (code c) 223 then String "S" (String "S" (toUpperCase r))
      else String (toUpperChar c) (toUpperCase r)
  end.

Definition toLowerCase : string -> string := mapChars toLowerChar.

(** [s.charAt(0)] *)
Definition charAt0 (s : string) : string := take 1 s.

Definition head (s : string) : option ascii :=
  match s with String c _ => Some c | EmptyString => None end.

(** Replacement of every occurrence of one character by a text, as in
    [s.replace(/c/g, "text")]. *)
Fixpoint replaceChar (c : ascii) (by_ : string) (s : string) : string :=
  match s with
  | EmptyString => EmptyString
  | String d r =>
      if Ascii.eqb c d then by_ ++ replaceChar c by_ r
      else String d (replaceChar c by_ r)
  end.

End JsString.

(** ** Regular expressions

    The regular expressions of the source are written as terms of [re] and
    run by a backtracking matcher that follows the matching algorithm of
    the language: alternatives are tried left to right, a greedy
    quantifier tries one more iteration before it tries to stop, a lazy
    one the other way round, an iteration that consumes nothing fails, and
    the capture groups inside a quantified term are cleared when an
    iteration starts. *)

Module Regex.
Import JsString.

Inductive re : Type :=
| Eps
| Chr (p : ascii -> bool)
| Seq (a b : re)
| Alt (a b : re)
| Star (greedy : bool) (a : re)
| Group (i : nat) (a : re)
| Bol
| Eol
| WordB.

(** [a+], [a+?], [a?], and the atoms of the source's patterns. *)
Definition Plus (greedy : bool) (a : re) : re := Seq a (Star greedy a).
Definition Opt (a : re) : re := Alt a Eps.
Definition Ch (c : ascii) : re := Chr (Ascii.eqb c).
Definition NotCh (c : ascii) : re := Chr (fun d => negb (Ascii.eqb c d)).
Definition AnyChar : re := Chr (fun _ => true).
Definition Dot : re := Chr (fun c => negb (isLineTerminator c)).
Definition Space : re := Chr isSpace.
Definition Digit : re := Chr isDigit.
Definition Word : re := Chr isWord.

Fixpoint Lit (s : string) : re :=
  match s with
  | EmptyString => Eps
  | String c r => Seq (Ch c) (Lit r)
  end.

Fixpoint seqs (l : list re) : re :=
  match l with
  | [] => Eps
  | [a] => a
  | a :: r => Seq a (seqs r)
  end.

Fixpoint alts (l : list re) : re :=
  match l with
  | [] => Eps
  | [a] => a
  | a :: r => Alt a (alts r)
  end.

Fixpoint groupsOf (r : re) : list nat :=
  match r with
  | Seq a b | Alt a b => (groupsOf a ++ groupsOf b)%list
  | Star _ a => groupsOf a
  | Group i a => i :: groupsOf a
  | _ => []
  end.

Definition ngroups (r : re) : nat := fold_right Nat.max 0 (groupsOf r).

(** The state of a match in progress: the offset reached, the character
    before it, the text still to read, the groups captured so far as
    pairs of offsets (latest first). *)
Record mstate : Type := MState {
  pos : nat;
  prev : option ascii;
  rest : string;
  caps : list (nat * (nat * nat))
}.

Definition step (c : ascii) (r : string) (st : mstate) : mstate :=
  MState (S (pos st)) (Some c) r (caps st).

Definition setCap (i : nat) (a b : nat) (st : mstate) : mstate :=
  MState (pos st) (prev st) (rest st) ((i, (a, b)) :: caps st).

Definition clearCaps (gs : list nat) (st : mstate) : mstate :=
  MState (pos st) (prev st) (rest st)
    (filter (fun e => negb (existsb (Nat.eqb (fst e)) gs)) (caps st)).

Definition isWordO (o : option ascii) : bool :=
  match o with Some c => isWord c | None => false end.

Section Matcher.
Variable R : Type.

(** [run r k st]: match [r] at [st], then continue with [k]; [None] is
    failure, which makes the caller try its next alternative. *)
Fixpoint run (r : re) (k : mstate -> option R) (st : mstate) {struct r}
  : option R :=
  match r with
  | Eps => k st
  | Chr p =>
      match rest st with
      | String c s' => if p c then k (step c s' st) else None
      | EmptyString => None
      end
  | Seq a b => run a (run b k) st
  | Alt a b =>
      match run a k st with
      | Some x => Some x
      | None => run b k st
      end
  | Star greedy a =>
      (fix loop (fuel : nat) (st : mstate) {struct fuel} : option R :=
         match fuel with
         | O => None
         | S fuel' =>
             let again :=
               run a (fun st' => if Nat.leb (pos st') (pos st) then None
                                 else loop fuel' st')
                   (clearCaps (groupsOf a) st) in
             if greedy then
               match again with Some x => Some x | None => k st end
             else
               match k st with Some x => Some x | None => again end
         end) (S (String.length (rest st))) st
  | Group i a => run a (fun st' => k (setCap i (pos st) (pos st') st')) st
  | Bol => if Nat.eqb (pos st) 0 then k st else None
  | Eol => match rest st with EmptyString => k st | _ => None end
  | WordB =>
      if xorb (isWordO (prev st)) (isWordO (head (rest st))) then k st
      else None
  end.

End Matcher.

(** A match: where it starts, what it matched, and the captured groups. *)
Record rmatch : Type := RMatch {
  m_index : nat;
  m_text : string;
  m_groups : list (nat * string)
}.

Definition m_end (m : rmatch) : nat := m_index m + String.length (m_text m).

Fixpoint assoc (A : Type) (i : nat) (l : list (nat * A)) : option A :=
  match l with
  | [] => None
  | (j, x) :: r => if Nat.eqb i j then Some x else assoc i r
  end.

(** The text of group [i], [None] when the group did not take part. *)
Definition group (m : rmatch) (i : nat) : option string := assoc i (m_groups m).

(** What a callback sees for a group that did not take part, given its
    default value. *)
Definition groupOr (m : rmatch) (i : nat) (dflt : string) : string :=
  match group m i with Some s => s | None => dflt end.

(** Try [r] at one offset of [whole]. *)
Definition matchAt (r : re) (whole : string) (p : nat) (pv : option ascii)
    (rs : string) : option rmatch :=
  match run r (fun st => Some st) (MState p pv rs []) with
  | Some st =>
      Some (RMatch p (substring whole p (pos st))
              (map (fun e => (fst e, substring whole (fst (snd e)) (snd (snd e))))
                   (caps st)))
  | None => None
  end.

(** All the matches of a global regular expression, left to right: after
    a match the search resumes where the match ended, one character later
    when the match was empty. [skip] counts the characters of the last
    match still to pass. *)
Fixpoint scan (r : re) (whole : string) (p : nat) (pv : option ascii)
    (rs : string) (skip : nat) {struct rs} : list rmatch :=
  match skip with
  | S k =>
      match rs with
      | EmptyString => []
      | String c rs' => scan r whole (S p) (Some c) rs' k
      end
  | O =>
      match matchAt r whole p pv rs with
      | Some m =>
          m :: match rs with
               | EmptyString => []
               | String c rs' =>
                   scan r whole (S p) (Some c) rs' (String.length (m_text m) - 1)
               end
      | None =>
          match rs with
          | EmptyString => []
          | String c rs' => scan r whole (S p) (Some c) rs' 0
          end
      end
  end.

(** [[...s.matchAll(r)]] *)
Definition matchAll (r : re) (s : string) : list rmatch := scan r s 0 None s 0.

(** The first match, for [s.match(r)] and [r.exec(s)] without the [g]
    flag. *)
Fixpoint search (r : re) (whole : string) (p : nat) (pv : option ascii)
    (rs : string) {struct rs} : option rmatch :=
  match matchAt r whole p pv rs with
  | Some m => Some m
  | None =>
      match rs with
      | EmptyString => None
      | String c rs' => search r whole (S p) (Some c) rs'
      end
  end.

Definition exec (r : re) (s : string) : option rmatch := search r s 0 None s.

(** [r.test(s)] *)
Definition test (r : re) (s : string) : bool :=
  match exec r s with Some _ => true | None => false end.

(** The result of [s.replace(r, ...)], from the matches and their
    replacements: the text between two matches is copied. The replacement
    function may read and extend a state, which is threaded through the
    calls in the order of the matches. *)
Fixpoint rebuild (S : Type) (cb : rmatch -> S -> string * S) (s : string)
    (from : nat) (ms : list rmatch) (st : S) : string * S :=
  match ms with
  | [] => (drop from s, st)
  | m :: ms' =>
      let (rep, st1) := cb m st in
      let (tl, st2) := rebuild cb s (m_end m) ms' st1 in
      (substring s from (m_index m) ++ rep ++ tl, st2)
  end.

(** [s.replace(r, fn)] for a global [r], with a state. *)
Definition replaceSt (S : Type) (r : re) (cb : rmatch -> S -> string * S)
    (s : string) (st : S) : string * S :=
  rebuild cb s 0 (matchAll r s) st.

(** [s.replace(r, fn)] for a global [r]. *)
Definition replaceFn (r : re) (cb : rmatch -> string) (s : string) : string :=
  fst (replaceSt r (fun m (_ : unit) => (cb m, tt)) s tt).

(** The replacement patterns of a replacement text: [$$], [$&], [$`],
    [$'], [$n] and [$nn]. *)
Definition digitVal (c : ascii) : nat := code c - 48.

Fixpoint substitution (whole : string) (ng : nat) (m : rmatch)
    (tpl : string) {struct tpl} : string :=
  match tpl with
  | EmptyString => EmptyString
  | String c t =>
      if negb (Ascii.eqb c "$") then String c (substitution whole ng m t)
      else
        match t with
        | EmptyString => String c EmptyString
        | String d1 t1 =>
            if Ascii.eqb d1 "$" then String "$" (substitution whole ng m t1)
            else if Ascii.eqb d1 "&" then m_text m ++ substitution whole ng m t1
            else if Ascii.eqb d1 "`"
            then take (m_index m) whole ++ substitution whole ng m t1
            else if Ascii.eqb d1 "'"
            then drop (m_end m) whole ++ substitution whole ng m t1
            else if isDigit d1 then
              let one :=
                let i := digitVal d1 in
                if Nat.leb 1 i && Nat.leb i ng
                then groupOr m i "" ++ substitution whole ng m t1
                else String "$" (String d1 (substitution whole ng m t1)) in
              match t1 with
              | String d2 t2 =>
                  if isDigit d2 then
                    let i := 10 * digitVal d1 + digitVal d2 in
                    if Nat.leb 1 i && Nat.leb i ng
                    then groupOr m i "" ++ substitution whole ng m t2
                    else one
                  else one
              | EmptyString => one
              end
            else String "$" (substitution whole ng m t)
        end
  end.

(** [s.replace(r, "text")] for a global [r]. *)
Definition replaceStr (r : re) (tpl : string) (s : string) : string :=
  replaceFn r (fun m => substitution s (ngroups r) m tpl) s.

(** *** Terms used to state the properties of the matcher *)

(** The state after the characters of [s] have been read. *)
Fixpoint advance (s : string) (st : mstate) : mstate :=
  match s with
  | EmptyString => st
  | String c r => advance r (step c (drop 1 (rest st)) st)
  end.

(** The last character of a text, [pv] when it is empty. *)
Fixpoint lastChar (s : string) (pv : option ascii) : option ascii :=
  match s with
  | EmptyString => pv
  | String c r => lastChar r (Some c)
  end.

(** The loop of a star, as [run] has it. *)
Definition starLoop (R : Type) (greedy : bool) (a : re) (k : mstate -> option R)
  : nat -> mstate -> option R :=
  fix loop (fuel : nat) (st : mstate) {struct fuel} : option R :=
    match fuel with
    | O => None
    | S fuel' =>
        let again :=
          run a (fun st' => if Nat.leb (pos st') (pos st) then None
                            else loop fuel' st')
              (clearCaps (groupsOf a) st) in
        if greedy then
          match again with Some x => Some x | None => k st end
        else
          match k st with Some x => Some x | None => again end
    end.

(** Every character of a text is in a class; the first one is. *)
Fixpoint allIn (p : ascii -> bool) (s : string) : bool :=
  match s with
  | EmptyString => true
  | String c r => p c && allIn p r
  end.

Definition headIn (p : ascii -> bool) (s : string) : bool :=
  match s with String c _ => p c | EmptyString => false end.

(** A pattern without [^] and [\b]: what it matches at an offset depends
    on the text from that offset on only. *)
Fixpoint anchorFree (r : re) : bool :=
  match r with
  | Seq a b | Alt a b => anchorFree a && anchorFree b
  | Star _ a | Group _ a => anchorFree a
  | Bol | WordB => false
  | _ => true
  end.

Definition shiftCap (d : nat) (e : nat * (nat * nat)) : nat * (nat * nat) :=
  (fst e, (d + fst (snd e), d + snd (snd e))).

(** Two states of a match on the same text left, the second [d]
    characters further in its whole text. *)
Definition shifted (d : nat) (st st' : mstate) : Prop :=
  pos st' = d + pos st /\ rest st' = rest st
  /\ caps st' = map (shiftCap d) (caps st).

Definition shiftedResult (d : nat) (o o' : option mstate) : Prop :=
  match o, o' with
  | Some s, Some s' => shifted d s s'
  | None, None => True
  | _, _ => False
  end.

(** A match moved [d] characters further. *)
Definition shiftMatch (d : nat) (m : rmatch) : rmatch :=
  RMatch (d + m_index m) (m_text m) (m_groups m).

(** A state reached from another by reading characters. *)
Definition reaches (st st' : mstate) : Prop :=
  exists a, rest st = a ++ rest st' /\ pos st' = pos st + String.length a.

(** The least number of characters a pattern matches. *)
Fixpoint minLength (r : re) : nat :=
  match r with
  | Chr _ => 1
  | Seq a b => minLength a + minLength b
  | Alt a b => Nat.min (minLength a) (minLength b)
  | Group _ a => minLength a
  | _ => 0
  end.

(** A replacement that reads the texts of a match only. *)
Definition readsTexts (T : Type) (cb : rmatch -> T -> string * T) : Prop :=
  forall d m st, cb (shiftMatch d m) st = cb m st.

End Regex.

(** ** Numbers: binary64, and the conversions between numbers and text *)

Module JsNumber.
Import JsString.
Local Open Scope Z_scope.

Definition num : Type := spec_float.

Definition prec : Z := 53.
Definition emax : Z := 1024.

Definition nan : num := S754_nan.
Definition zero : num := S754_zero false.
Definition infinity (neg : bool) : num := S754_infinity neg.

Definition ofZ (z : Z) : num := binary_normalize prec emax z 0 false.
Definition ofNat (n : nat) : num := ofZ (Z.of_nat n).

Definition add : num -> num -> num := SFadd prec emax.
Definition sub : num -> num -> num := SFsub prec emax.
Definition mul : num -> num -> num := SFmul prec emax.
Definition div : num -> num -> num := SFdiv prec emax.
Definition eqb : num -> num -> bool := SFeqb.
Definition ltb : num -> num -> bool := SFltb.
Definition leb : num -> num -> bool := SFleb.

Definition isNaN (x : num) : bool :=
  match x with S754_nan => true | _ => false end.

(** Truthiness of a number: [NaN], [0] and [-0] are falsy. *)
Definition truthy (x : num) : bool :=
  match x with S754_nan | S754_zero _ => false | _ => true end.

(** The number nearest to [(-1)^neg * m * 10^e], ties to even. *)
Definition ofDecimal (neg : bool) (m : Z) (e : Z) : num :=
  if m <=? 0 then S754_zero neg
  else if 0 <=? e then
    binary_normalize prec emax (if neg then - (m * 10 ^ e) else m * 10 ^ e) 0 false
  else
    let '(mz, ez, lz) := SFdiv_core_binary prec emax m 0 (10 ^ (- e)) 0 in
    binary_round_aux prec emax neg mz ez lz.

(** A finite positive number as a fraction [p / q]. *)
Definition fraction (m : positive) (e : Z) : Z * Z :=
  if 0 <=? e then (Zpos m * 2 ^ e, 1) else (Zpos m, 2 ^ (- e)).

(** [p / q] compared with [10 ^ n]. *)
Definition ltPow10 (p q n : Z) : bool :=
  if 0 <=? n then p <? q * 10 ^ n else p * 10 ^ (- n) <? q.

Fixpoint magUp (fuel : nat) (p q n : Z) : Z :=
  match fuel with
  | O => n
  | S f => if ltPow10 p q n then n else magUp f p q (n + 1)
  end.

Fixpoint magDown (fuel : nat) (p q n : Z) : Z :=
  match fuel with
  | O => n
  | S f => if ltPow10 p q (n - 1) then magDown f p q (n - 1) else n
  end.

(** The [n] with [10 ^ (n - 1) <= p / q < 10 ^ n]. *)
Definition magnitude10 (p q : Z) : Z :=
  let est := (Z.log2 p - Z.log2 q) * 30103 / 100000 in
  magDown 8 p q (magUp 8 p q est).

Definition digitsOfZ (z : Z) : string :=
  DecimalString.NilZero.string_of_uint (N.to_uint (Z.to_N z)).

(** The shortest digits [s] (of [k] digits) and the exponent [n] for which
    [s * 10 ^ (n - k)] reads back as [x], the nearest when there are two. *)
Fixpoint shortest (fuel : nat) (k : Z) (x : num) (p q n0 : Z) : Z * Z :=
  let sc := k - n0 in
  let '(lo, r, d) :=
    if 0 <=? sc then (p * 10 ^ sc / q, p * 10 ^ sc mod q, q)
    else (p / (q * 10 ^ (- sc)), p mod (q * 10 ^ (- sc)), q * 10 ^ (- sc)) in
  let okLo := eqb (ofDecimal false lo (n0 - k)) x in
  let okHi := eqb (ofDecimal false (lo + 1) (n0 - k)) x in
  let hi := if lo + 1 =? 10 ^ k then (10 ^ (k - 1), n0 + 1) else (lo + 1, n0) in
  let pickLo :=
    match 2 * r ?= d with
    | Lt => true
    | Gt => false
    | Eq => Z.even lo
    end in
  match fuel with
  | O => (lo, n0)
  | S f =>
      if okLo && okHi then (if pickLo then (lo, n0) else hi)
      else if okLo then (lo, n0)
      else if okHi then hi
      else shortest f (k + 1) x p q n0
  end.

Fixpoint repeat0 (n : nat) : string :=
  match n with O => "" | S k => String "0" (repeat0 k) end.

(** The text of a positive finite number from its digits [s] and its
    exponent [n]. *)
Definition formatDigits (s n : Z) : string :=
  let ds := digitsOfZ s in
  let k := Z.of_nat (String.length ds) in
  if (k <=? n) && (n <=? 21) then (ds ++ repeat0 (Z.to_nat (n - k)))%string
  else if (0 <? n) && (n <=? 21) then
    (take (Z.to_nat n) ds ++ "." ++ drop (Z.to_nat n) ds)%string
  else if (-6 <? n) && (n <=? 0) then
    ("0." ++ repeat0 (Z.to_nat (- n)) ++ ds)%string
  else
    let e := n - 1 in
    let sgn := if e <? 0 then "-" else "+" in
    let es := (sgn ++ digitsOfZ (Z.abs e))%string in
    if k =? 1 then (ds ++ "e" ++ es)%string
    else (take 1 ds ++ "." ++ drop 1 ds ++ "e" ++ es)%string.

(** [String(x)] for a number. *)
Definition toString (x : num) : string :=
  match x with
  | S754_nan => "NaN"
  | S754_zero _ => "0"
  | S754_infinity neg => if neg then "-Infinity" else "Infinity"
  | S754_finite neg m e =>
      let '(p, q) := fraction m e in
      let n0 := magnitude10 p q in
      let '(s, n) := shortest 20 1 (S754_finite false m e) p q n0 in
      ((if neg then "-" else "") ++ formatDigits s n)%string
  end.

(** [ToIntegerOrInfinity]: truncation towards zero; [None] stands for an
    infinite result. *)
Definition truncate (x : num) : option Z :=
  match x with
  | S754_nan | S754_zero _ => Some 0
  | S754_infinity _ => None
  | S754_finite neg m e =>
      let '(p, q) := fraction m e in
      Some (if neg then - (p / q) else p / q)
  end.

(** [x.toFixed(fd)]; [None] is the [RangeError] of a number of digits
    outside 0..100. *)
Definition toFixed (x : num) (fd : num) : option string :=
  match truncate fd with
  | None => None
  | Some f =>
      if (f <? 0) || (100 <? f) then None
      else
        match x with
        | S754_finite neg m e =>
            let '(p, q) := fraction m e in
            if negb (ltPow10 p q 21) then Some (toString x)
            else
              let n := (2 * p * 10 ^ f + q) / (2 * q) in
              let ds := digitsOfZ n in
              let ds := (repeat0 (Z.to_nat (f + 1) - String.length ds) ++ ds)%string in
              let k := String.length ds in
              let body :=
                if f =? 0 then ds
                else (take (k - Z.to_nat f) ds ++ "." ++ drop (k - Z.to_nat f) ds)%string in
              Some ((if neg then "-" else "") ++ body)%string
        | S754_zero _ =>
            Some (if f =? 0 then "0" else ("0." ++ repeat0 (Z.to_nat f))%string)
        | _ => Some (toString x)
        end
  end.

(** [Math.round(x)]: the nearest integer, a tie goes up. *)
Definition round (x : num) : num :=
  match x with
  | S754_finite neg m e =>
      if 0 <=? e then x
      else
        let '(p, q) := fraction m e in
        let n := if neg then - ((2 * p - q) / (2 * q)) - (if (2 * p - q) mod (2 * q) =? 0 then 0 else 1)
                 else (2 * p + q) / (2 * q) in
        if n =? 0 then S754_zero neg else ofZ n
  | _ => x
  end.

(** Reading numbers. [readDigits radix s acc cnt] reads the longest run of
    digits and returns its value, the number of digits and the rest. *)
Definition digitOf (c : ascii) : option Z :=
  if isDigit c then Some (Z.of_nat (code c) - 48)
  else if inRange 97 102 c then Some (Z.of_nat (code c) - 87)
  else if inRange 65 70 c then Some (Z.of_nat (code c) - 55)
  else None.

Fixpoint readDigits (radix : Z) (s : string) (acc cnt : Z) : Z * Z * string :=
  match s with
  | String c r =>
      match digitOf c with
      | Some d => if d <? radix then readDigits radix r (acc * radix + d) (cnt + 1)
                  else (acc, cnt, s)
      | None => (acc, cnt, s)
      end
  | EmptyString => (acc, cnt, s)
  end.

Definition readSign (s : string) : bool * string :=
  match s with
  | String "-" r => (true, r)
  | String "+" r => (false, r)
  | _ => (false, s)
  end.

(** The exponent part [e+12], read only when it is well formed. *)
Definition readExponent (s : string) : Z * string :=
  match s with
  | String c r =>
      if Ascii.eqb c "e" || Ascii.eqb c "E" then
        let '(neg, r1) := readSign r in
        let '(v, cnt, r2) := readDigits 10 r1 0 0 in
        if cnt =? 0 then (0, s) else ((if neg then - v else v), r2)
      else (0, s)
  | EmptyString => (0, s)
  end.

(** The longest prefix of [s] that is a decimal literal ([-12.5e3],
    [Infinity]), with its value and the text after it. *)
Definition readDecimal (s : string) : option (num * string) :=
  let '(neg, s1) := readSign s in
  if startsWith s1 "Infinity" then Some (infinity neg, drop 8 s1)
  else
    let '(i, ci, s2) := readDigits 10 s1 0 0 in
    let '(f, cf, s3) :=
      match s2 with
      | String "." r => readDigits 10 r 0 0
      | _ => (0, 0, s2)
      end in
    let s3 := match s2 with
              | String "." r => if (ci =? 0) && (cf =? 0) then s2 else s3
              | _ => s3
              end in
    if (ci =? 0) && (cf =? 0) then None
    else
      let '(e, s4) := readExponent s3 in
      Some (ofDecimal neg (i * 10 ^ cf + f) (e - cf), s4).

(** [Number(s)] for a string. *)
Definition ofString (s : string) : num :=
  let t := trim s in
  let radixLit (radix : Z) :=
    let '(v, cnt, r) := readDigits radix (drop 2 t) 0 0 in
    if (0 <? cnt) && String.eqb r "" then ofZ v else nan in
  if String.eqb t "" then zero
  else if startsWith t "0x" || startsWith t "0X" then radixLit 16
  else if startsWith t "0o" || startsWith t "0O" then radixLit 8
  else if startsWith t "0b" || startsWith t "0B" then radixLit 2
  else match readDecimal t with
       | Some (x, EmptyString) => x
       | _ => nan
       end.

(** [parseFloat(s)] *)
Definition parseFloat (s : string) : num :=
  match readDecimal (trimStart s) with
  | Some (x, _) => x
  | None => nan
  end.

(** [parseInt(s)] *)
Definition parseInt (s : string) : num :=
  let '(neg, s1) := readSign (trimStart s) in
  let '(radix, s2) :=
    if startsWith s1 "0x" || startsWith s1 "0X" then (16, drop 2 s1)
    else (10, s1) in
  let '(v, cnt, _) := readDigits radix s2 0 0 in
  if cnt =? 0 then nan
  else if v =? 0 then S754_zero neg
  else ofZ (if neg then - v else v).

End JsNumber.

(** ** Values, the store, exceptions *)

Module Js.
Import JsString.

Definition num : Type := JsNumber.num.

(** A value is a primitive, a function (kept by its source text) or a
    reference to an object or an array of the store. *)
Inductive val : Type :=
| VUndef
| VNull
| VBool (b : bool)
| VNum (n : num)
| VStr (s : string)
| VRef (l : nat)
| VFun (src : string).

(** An object keeps its properties in insertion order. *)
Inductive cell : Type :=
| CObj (props : list (string * val))
| CArr (elems : list val).

Definition heap : Type := list cell.

(** The outcome of code that may throw; an exception is kept by its
    message. *)
Inductive result (A : Type) : Type :=
| Ok (a : A)
| Throw (msg : string).
Arguments Ok {A} a.
Arguments Throw {A} msg.

Definition bind (A B : Type) (r : result A) (f : A -> result B) : result B :=
  match r with
  | Ok a => f a
  | Throw msg => Throw msg
  end.

Declare Scope js_scope.
Delimit Scope js_scope with js.
Notation "x <- c ;; k" := (bind c (fun x => k))
  (at level 61, c at next level, right associativity) : js_scope.
Notation "' p <- c ;; k" := (bind c (fun p => k))
  (at level 61, p pattern, c at next level, right associativity) : js_scope.
Local Open Scope js_scope.

(** A value without sharing: what [JSON] reads and writes, what the host
    hands back from an evaluation. *)
#[warnings="-register-all"]
Inductive tree : Type :=
| TUndef
| TNull
| TBool (b : bool)
| TNum (n : num)
| TStr (s : string)
| TArr (elems : list tree)
| TObj (props : list (string * tree))
| TFun (src : string).

Definition lookup (l : nat) (h : heap) : option cell := nth_error h l.

Fixpoint objGet (A : Type) (props : list (string * A)) (key : string) : option A :=
  match props with
  | [] => None
  | (k, v) :: r => if String.eqb k key then Some v else objGet r key
  end.

(** Writing a property: in place when the key exists, at the end
    otherwise. *)
Fixpoint objSet (A : Type) (props : list (string * A)) (key : string) (v : A)
  : list (string * A) :=
  match props with
  | [] => [(key, v)]
  | (k, w) :: r =>
      if String.eqb k key then (k, v) :: r else (k, w) :: objSet r key v
  end.

(** A new cell; its reference is the size of the store before. *)
Definition alloc (c : cell) (h : heap) : val * heap :=
  (VRef (List.length h), (h ++ [c])%list).

(** The store with cell [l] replaced; an unknown reference changes
    nothing. *)
Fixpoint update (l : nat) (c : cell) (h : heap) : heap :=
  match h, l with
  | [], _ => []
  | _ :: r, O => c :: r
  | x :: r, S k => x :: update k c r
  end.

(** A map over a list that threads a state through the calls, from
    left to right; [mapStR] stops at the first exception. *)
Section MapSt.
Variables A B S : Type.

Variable f : A -> S -> B * S.

Fixpoint mapSt (l : list A) (st : S) : list B * S :=
  match l with
  | [] => ([], st)
  | x :: r =>
      let '(y, st1) := f x st in
      let '(ys, st2) := mapSt r st1 in
      (y :: ys, st2)
  end.

Variable g : A -> S -> result (B * S).

Fixpoint mapStR (l : list A) (st : S) : result (list B * S) :=
  match l with
  | [] => Ok ([], st)
  | x :: r =>
      match g x st with
      | Throw msg => Throw msg
      | Ok (y, st1) =>
          match mapStR r st1 with
          | Throw msg => Throw msg
          | Ok (ys, st2) => Ok (y :: ys, st2)
          end
      end
  end.

End MapSt.

(** A tree laid out in the store, the children before their parent. *)
Fixpoint allocTree (t : tree) (h : heap) : val * heap :=
  match t with
  | TUndef => (VUndef, h)
  | TNull => (VNull, h)
  | TBool b => (VBool b, h)
  | TNum n => (VNum n, h)
  | TStr s => (VStr s, h)
  | TFun src => (VFun src, h)
  | TArr elems =>
      let '(vs, h1) := mapSt allocTree elems h in
      alloc (CArr vs) h1
  | TObj props =>
      let '(ps, h1) :=
        mapSt (fun kv h => let '(v, h1) := allocTree (snd kv) h in
                           ((fst kv, v), h1)) props h in
      alloc (CObj ps) h1
  end.

(** [h'] is [h] with new cells after it: every cell of [h] is in [h'],
    unchanged. *)
Definition extends (h h' : heap) : Prop := exists ext, h' = (h ++ ext)%list.

(** Induction on trees, through the lists of their children. *)
Section TreeInduction.
Variable P : tree -> Prop.
Hypothesis HUndef : P TUndef.
Hypothesis HNull : P TNull.
Hypothesis HBool : forall b, P (TBool b).
Hypothesis HNum : forall n, P (TNum n).
Hypothesis HStr : forall s, P (TStr s).
Hypothesis HFun : forall s, P (TFun s).
Hypothesis HArr : forall elems, Forall P elems -> P (TArr elems).
Hypothesis HObj : forall props, Forall (fun kv => P (snd kv)) props -> P (TObj props).

Fixpoint tree_nested_ind (t : tree) : P t :=
  match t with
  | TUndef => HUndef
  | TNull => HNull
  | TBool b => HBool b
  | TNum n => HNum n
  | TStr s => HStr s
  | TFun s => HFun s
  | TArr elems =>
      HArr
        ((fix go (l : list tree) {struct l} : Forall P l :=
            match l with
            | [] => Forall_nil P
            | x :: r => Forall_cons x (tree_nested_ind x) (go r)
            end) elems)
  | TObj props =>
      HObj
        ((fix go (l : list (string * tree)) {struct l}
            : Forall (fun kv => P (snd kv)) l :=
            match l with
            | [] => Forall_nil _
            | x :: r => Forall_cons x (tree_nested_ind (snd x)) (go r)
            end) props)
  end.

End TreeInduction.

Fixpoint mapOpt (A B : Type) (f : A -> option B) (l : list A) : option (list B) :=
  match l with
  | [] => Some []
  | x :: r =>
      match f x, mapOpt f r with
      | Some y, Some ys => Some (y :: ys)
      | _, _ => None
      end
  end.

(** The tree below a value; [None] when the fuel runs out, which with a
    fuel above the size of the store means a cycle. A reference outside
    the store reads as [undefined]. *)
Fixpoint reify (fuel : nat) (h : heap) (v : val) : option tree :=
  match fuel with
  | O => None
  | S f =>
      match v with
      | VUndef => Some TUndef
      | VNull => Some TNull
      | VBool b => Some (TBool b)
      | VNum n => Some (TNum n)
      | VStr s => Some (TStr s)
      | VFun src => Some (TFun src)
      | VRef l =>
          match lookup l h with
          | Some (CArr vs) => option_map TArr (mapOpt (reify f h) vs)
          | Some (CObj ps) =>
              option_map TObj
                (mapOpt (fun kv => option_map (pair (fst kv)) (reify f h (snd kv))) ps)
          | None => Some TUndef
          end
      end
  end.

Definition depthFuel (h : heap) : nat := S (List.length h).

(** [typeof v] *)
Definition typeof (v : val) : string :=
  match v with
  | VUndef => "undefined"
  | VNull => "object"
  | VBool _ => "boolean"
  | VNum _ => "number"
  | VStr _ => "string"
  | VRef _ => "object"
  | VFun _ => "function"
  end.

(** [Array.isArray(v)] *)
Definition isArray (h : heap) (v : val) : option (list val) :=
  match v with
  | VRef l => match lookup l h with Some (CArr vs) => Some vs | _ => None end
  | _ => None
  end.

(** Truthiness: [undefined], [null], [false], [0], [NaN] and [""] are
    falsy. *)
Definition truthy (v : val) : bool :=
  match v with
  | VUndef | VNull => false
  | VBool b => b
  | VNum n => JsNumber.truthy n
  | VStr s => negb (String.eqb s "")
  | VRef _ | VFun _ => true
  end.

(** *** The host runtime *)

Inductive kind : Type :=
| KObject | KArray | KString | KNumber | KBoolean | KFunction.

(** The text of an archive: its parts by path. *)
Definition archive : Type := list (string * string).

(** What the code takes from its runtime and its libraries:
    - [newFunction params body]: the outcome of [new Function(...params,
      body)] applied to the allowed globals, [None] when compiling or
      running it throws;
    - [inherited k key]: the property [key] found on the prototype chain
      of a value of kind [k], [VUndef] when there is none;
    - [intlCurrency locale currency n]:
      [new Intl.NumberFormat(locale, {style: 'currency', currency}).format(n)];
    - [momentFormat h v fmt]: [moment(v).format(fmt)], [None] when
      [moment(v)] is not valid; [momentFromNow] likewise;
    - [mathPow]: [Math.pow];
    - [isoNow]: [new Date().toISOString()];
    - [pizzipLoad], [pizzipGenerate]: reading and writing an archive;
    - [callFunction h src this]: the call, on the object [this], of a
      function that the data holds, kept by its source text [src]: the
      value it returns or the exception it throws. *)
Record HostLib : Type := {
  newFunction : list string -> string -> option tree;
  inherited : kind -> string -> val;
  intlCurrency : val -> val -> num -> result string;
  momentFormat : heap -> val -> val -> option string;
  momentFromNow : heap -> val -> option string;
  mathPow : num -> num -> num;
  isoNow : string;
  pizzipLoad : string -> result archive;
  pizzipGenerate : archive -> string;
  callFunction : heap -> string -> val -> result val
}.

(** *** Conversions

    [String(v)] and [Number(v)] of a value that is no object; a function
    is printed as its source text. *)
Definition primToString (v : val) : string :=
  match v with
  | VUndef => "undefined"
  | VNull => "null"
  | VBool b => if b then "true" else "false"
  | VNum n => JsNumber.toString n
  | VStr s => s
  | VFun src => src
  | VRef _ => "[object Object]"
  end.

Definition primToNumber (v : val) : num :=
  match v with
  | VUndef => JsNumber.nan
  | VNull => JsNumber.zero
  | VBool b => if b then JsNumber.ofZ 1 else JsNumber.zero
  | VNum n => n
  | VStr s => JsNumber.ofString s
  | VFun src => JsNumber.ofString src
  | VRef _ => JsNumber.nan
  end.

(** The conversion of an object to a primitive asks for a text or for a
    number. *)
Inductive hint : Type := HintString | HintNumber.

Definition conversionError : string := "Cannot convert object to primitive value".

(** One method of the conversion of an object, [toString] or [valueOf].
    An own property that is a function is called, and its result counts
    when it is no object; an own property that is no function is passed
    over; without an own property the method is the one of
    [Object.prototype], whose result is [dflt] ([None] for [valueOf],
    which returns the object). [Ok None] passes to the next method. *)
Definition conversionMethod (E : HostLib) (h : heap) (this : val)
    (ps : list (string * val)) (name : string) (dflt : option val)
  : result (option val) :=
  match objGet ps name with
  | Some (VFun src) =>
      r <- callFunction E h src this ;;
      Ok (match r with VRef _ | VFun _ => None | _ => Some r end)
  | Some _ => Ok None
  | None => Ok dflt
  end.

(** [OrdinaryToPrimitive]: the two methods in the order of the hint; a
    [TypeError] when neither gives a primitive, as for an object whose
    own [toString] is not a function. *)
Definition objectToPrimitive (E : HostLib) (h : heap) (this : val)
    (ps : list (string * val)) (hn : hint) : result val :=
  let byToString :=
    conversionMethod E h this ps "toString" (Some (VStr "[object Object]")) in
  let byValueOf := conversionMethod E h this ps "valueOf" None in
  first <- match hn with HintString => byToString | HintNumber => byValueOf end ;;
  match first with
  | Some p => Ok p
  | None =>
      second <- match hn with HintString => byValueOf | HintNumber => byToString end ;;
      match second with
      | Some p => Ok p
      | None => Throw conversionError
      end
  end.

(** The results of a list of computations, up to the first exception. *)
Fixpoint sequence (A : Type) (l : list (result A)) : result (list A) :=
  match l with
  | [] => Ok []
  | r :: rest =>
      x <- r ;;
      xs <- sequence rest ;;
      Ok (x :: xs)
  end.

(** [String(v)]: an array is the texts of its elements joined by commas,
    [null] and [undefined] elements giving nothing; any other object is
    converted to a primitive first, which gives ["[object Object]"] for
    an object without conversion methods of its own and throws when
    there is no primitive. *)
Fixpoint toStringFuel (fuel : nat) (E : HostLib) (h : heap) (v : val)
  : result string :=
  match v with
  | VRef l =>
      match lookup l h with
      | Some (CArr vs) =>
          match fuel with
          | O => Ok ""
          | S f =>
              texts <-
                sequence
                  (map (fun e => match e with
                                 | VUndef | VNull => Ok ""
                                 | _ => toStringFuel f E h e
                                 end) vs) ;;
              Ok (join "," texts)
          end
      | Some (CObj ps) =>
          p <- objectToPrimitive E h v ps HintString ;;
          Ok (primToString p)
      | None => Ok "[object Object]"
      end
  | _ => Ok (primToString v)
  end.

Definition toString (E : HostLib) (h : heap) (v : val) : result string :=
  toStringFuel (depthFuel h) E h v.

(** [ToPrimitive(v, hint)]: an array has no [valueOf] of its own, so
    both hints give its text. *)
Definition toPrimitive (E : HostLib) (h : heap) (hn : hint) (v : val)
  : result val :=
  match v with
  | VRef l =>
      match lookup l h with
      | Some (CObj ps) => objectToPrimitive E h v ps hn
      | _ => s <- toString E h v ;; Ok (VStr s)
      end
  | VFun src => Ok (VStr src)
  | _ => Ok v
  end.

(** [Number(v)] *)
Definition toNumber (E : HostLib) (h : heap) (v : val) : result num :=
  p <- toPrimitive E h HintNumber v ;;
  Ok (primToNumber p).

(** Strict equality [a === b]. *)
Definition strictEq (a b : val) : bool :=
  match a, b with
  | VUndef, VUndef | VNull, VNull => true
  | VBool x, VBool y => Bool.eqb x y
  | VNum x, VNum y => JsNumber.eqb x y
  | VStr x, VStr y => String.eqb x y
  | VRef x, VRef y => Nat.eqb x y
  | VFun x, VFun y => String.eqb x y
  | _, _ => false
  end.

Definition isObject (v : val) : bool :=
  match v with VRef _ | VFun _ => true | _ => false end.

(** Loose equality [a == b] of two values that are no objects. *)
Definition primLooseEq (a b : val) : bool :=
  match a, b with
  | (VUndef | VNull), (VUndef | VNull) => true
  | (VUndef | VNull), _ | _, (VUndef | VNull) => false
  | VStr x, VStr y => String.eqb x y
  | VBool x, VBool y => Bool.eqb x y
  | _, _ => JsNumber.eqb (primToNumber a) (primToNumber b)
  end.

(** Loose equality [a == b]: an object facing a primitive is converted
    first. *)
Definition looseEq (E : HostLib) (h : heap) (a b : val) : result bool :=
  match a, b with
  | (VUndef | VNull), _ | _, (VUndef | VNull) => Ok (primLooseEq a b)
  | (VRef _ | VFun _), (VRef _ | VFun _) => Ok (strictEq a b)
  | _, _ =>
      pa <- toPrimitive E h HintNumber a ;;
      pb <- toPrimitive E h HintNumber b ;;
      Ok (primLooseEq pa pb)
  end.

Fixpoint stringLt (a b : string) : bool :=
  match a, b with
  | _, EmptyString => false
  | EmptyString, String _ _ => true
  | String x a', String y b' =>
      if Nat.ltb (code x) (code y) then true
      else if Nat.ltb (code y) (code x) then false
      else stringLt a' b'
  end.

(** The comparison [x < y] of two values that are no objects; [None] is
    the undefined outcome, when a side is [NaN]. *)
Definition primLessThan (x y : val) : option bool :=
  match x, y with
  | VStr a, VStr b => Some (stringLt a b)
  | _, _ =>
      let nx := primToNumber x in
      let ny := primToNumber y in
      if JsNumber.isNaN nx || JsNumber.isNaN ny then None
      else Some (JsNumber.ltb nx ny)
  end.

(** The comparison [x < y]; [leftFirst] tells which side is converted
    first, the left operand of the source expression. *)
Definition lessThan (E : HostLib) (h : heap) (leftFirst : bool) (x y : val)
  : result (option bool) :=
  if leftFirst then
    px <- toPrimitive E h HintNumber x ;;
    py <- toPrimitive E h HintNumber y ;;
    Ok (primLessThan px py)
  else
    py <- toPrimitive E h HintNumber y ;;
    px <- toPrimitive E h HintNumber x ;;
    Ok (primLessThan px py).

Definition isTrue (o : option bool) : bool :=
  match o with Some true => true | _ => false end.
Definition isFalse (o : option bool) : bool :=
  match o with Some false => true | _ => false end.

(** [a < b], [a > b], [a <= b], [a >= b] *)
Definition jsLt (E : HostLib) (h : heap) (a b : val) : result bool :=
  r <- lessThan E h true a b ;; Ok (isTrue r).
Definition jsGt (E : HostLib) (h : heap) (a b : val) : result bool :=
  r <- lessThan E h false b a ;; Ok (isTrue r).
Definition jsLe (E : HostLib) (h : heap) (a b : val) : result bool :=
  r <- lessThan E h false b a ;; Ok (isFalse r).
Definition jsGe (E : HostLib) (h : heap) (a b : val) : result bool :=
  r <- lessThan E h true a b ;; Ok (isFalse r).

(** *** Computations on the host *)

(** The effect of evaluating code through the host: a computation either
    is finished or asks the [Function] constructor to compile and run a
    text, and goes on with the outcome. *)
Inductive Host (A : Type) : Type :=
| Ret (a : A)
| NewFunction (params : list string) (body : string) (k : option tree -> Host A).
Arguments Ret {A} a.
Arguments NewFunction {A} params body k.

Fixpoint hostBind (A B : Type) (c : Host A) (f : A -> Host B) : Host B :=
  match c with
  | Ret a => f a
  | NewFunction ps body k => NewFunction ps body (fun r => hostBind (k r) f)
  end.

Fixpoint runHost (E : HostLib) (A : Type) (c : Host A) : A :=
  match c with
  | Ret a => a
  | NewFunction ps body k => runHost E (k (newFunction E ps body))
  end.

(** The texts handed to the [Function] constructor by a computation run
    on the host [E], in order. *)
Fixpoint hostCalls (E : HostLib) (A : Type) (c : Host A) : list string :=
  match c with
  | Ret _ => []
  | NewFunction ps body k => body :: hostCalls E (k (newFunction E ps body))
  end.

(** Whether a computation starts by calling the host. *)
Definition invokesHost (A : Type) (c : Host A) : bool :=
  match c with Ret _ => false | NewFunction _ _ _ => true end.

(** *** Properties *)

(** A canonical array index: digits without a leading zero. *)
Definition arrayIndex (key : string) : option nat :=
  let '(v, cnt, r) := JsNumber.readDigits 10 key 0 0 in
  if (0 <? cnt)%Z && String.eqb r ""
     && (String.eqb key "0" || negb (startsWith key "0"))
  then Some (Z.to_nat v) else None.

Fixpoint nthChar (s : string) (i : nat) : option ascii :=
  match s, i with
  | EmptyString, _ => None
  | String c _, O => Some c
  | String _ r, S k => nthChar r k
  end.

(** [v[key]]; reading a property of [undefined] or [null] throws. *)
Definition getProp (E : HostLib) (h : heap) (v : val) (key : string) : result val :=
  match v with
  | VUndef | VNull =>
      Throw ("Cannot read properties of " ++ primToString v)
  | VBool _ => Ok (inherited E KBoolean key)
  | VNum _ => Ok (inherited E KNumber key)
  | VFun _ => Ok (inherited E KFunction key)
  | VStr s =>
      if String.eqb key "length" then Ok (VNum (JsNumber.ofNat (String.length s)))
      else match arrayIndex key with
           | Some i =>
               match nthChar s i with
               | Some c => Ok (VStr (String c ""))
               | None => Ok (inherited E KString key)
               end
           | None => Ok (inherited E KString key)
           end
  | VRef l =>
      match lookup l h with
      | Some (CObj ps) =>
          match objGet ps key with
          | Some x => Ok x
          | None => Ok (inherited E KObject key)
          end
      | Some (CArr vs) =>
          if String.eqb key "length" then Ok (VNum (JsNumber.ofNat (List.length vs)))
          else match arrayIndex key with
               | Some i =>
                   match nth_error vs i with
                   | Some x => Ok x
                   | None => Ok (inherited E KArray key)
                   end
               | None => Ok (inherited E KArray key)
               end
      | None => Ok VUndef
      end
  end.

(** [Object.keys(v)]; throws on [undefined] and [null]. *)
Definition objectKeys (h : heap) (v : val) : result (list string) :=
  match v with
  | VUndef | VNull => Throw "Cannot convert undefined or null to object"
  | VRef l =>
      match lookup l h with
      | Some (CObj ps) => Ok (map fst ps)
      | Some (CArr vs) => Ok (map (fun i => JsNumber.digitsOfZ (Z.of_nat i)) (seq 0 (List.length vs)))
      | None => Ok []
      end
  | VStr s => Ok (map (fun i => JsNumber.digitsOfZ (Z.of_nat i)) (seq 0 (String.length s)))
  | _ => Ok []
  end.

(** The own enumerable properties copied by a spread [{...v}]. *)
Definition spreadProps (h : heap) (v : val) : list (string * val) :=
  match v with
  | VRef l =>
      match lookup l h with
      | Some (CObj ps) => ps
      | Some (CArr vs) =>
          combine (map (fun i => JsNumber.digitsOfZ (Z.of_nat i)) (seq 0 (List.length vs))) vs
      | None => []
      end
  | VStr s =>
      (fix go (i : nat) (s : string) : list (string * val) :=
         match s with
         | EmptyString => []
         | String c r => (JsNumber.digitsOfZ (Z.of_nat i), VStr (String c "")) :: go (S i) r
         end) 0 s
  | _ => []
  end.

(** *** JSON *)

Definition dquote : ascii := ascii_of_nat 34.

Definition hexDigit (n : nat) : ascii :=
  ascii_of_nat (if Nat.ltb n 10 then 48 + n else 87 + n).

(** A string as a JSON text: quotes, backslashes and control characters
    are escaped. *)
Fixpoint jsonQuoteBody (s : string) : string :=
  match s with
  | EmptyString => EmptyString
  | String c r =>
      let n := code c in
      (if Nat.eqb n 34 then String "\" (String dquote "")
       else if Nat.eqb n 92 then "\\"
       else if Nat.eqb n 8 then "\b"
       else if Nat.eqb n 12 then "\f"
       else if Nat.eqb n 10 then "\n"
       else if Nat.eqb n 13 then "\r"
       else if Nat.eqb n 9 then "\t"
       else if Nat.ltb n 32
       then "\u00" ++ String (hexDigit (n / 16)) (String (hexDigit (n mod 16)) "")
       else String c "") ++ jsonQuoteBody r
  end.

Definition jsonQuote (s : string) : string :=
  String dquote (jsonQuoteBody s ++ String dquote "").

Definition jsonNumber (n : num) : string :=
  match n with
  | S754_nan | S754_infinity _ => "null"
  | _ => JsNumber.toString n
  end.

(** [JSON.stringify] of a tree; [None] is the result [undefined]. *)
Fixpoint jsonText (t : tree) : option string :=
  match t with
  | TUndef | TFun _ => None
  | TNull => Some "null"
  | TBool b => Some (if b then "true" else "false")
  | TNum n => Some (jsonNumber n)
  | TStr s => Some (jsonQuote s)
  | TArr elems =>
      Some ("[" ++ join ","
                     (map (fun e => match jsonText e with
                                    | Some s => s
                                    | None => "null"
                                    end) elems) ++ "]")
  | TObj props =>
      Some ("{" ++ join ","
                     ((fix go (ps : list (string * tree)) : list string :=
                         match ps with
                         | [] => []
                         | (k, e) :: r =>
                             match jsonText e with
                             | Some s => (jsonQuote k ++ ":" ++ s) :: go r
                             | None => go r
                             end
                         end) props) ++ "}")
  end.

(** What [JSON.parse] reads back from the text of a tree. *)
Fixpoint jsonValue (t : tree) : option tree :=
  match t with
  | TUndef | TFun _ => None
  | TNum n =>
      Some (match n with
            | S754_nan | S754_infinity _ => TNull
            | S754_zero _ => TNum JsNumber.zero
            | _ => TNum n
            end)
  | TArr elems =>
      Some (TArr (map (fun e => match jsonValue e with
                                | Some x => x
                                | None => TNull
                                end) elems))
  | TObj props =>
      Some (TObj ((fix go (ps : list (string * tree)) : list (string * tree) :=
                     match ps with
                     | [] => []
                     | (k, e) :: r =>
                         match jsonValue e with
                         | Some x => (k, x) :: go r
                         | None => go r
                         end
                     end) props))
  | _ => Some t
  end.

(** [JSON.stringify(v)]: throws on a cyclic structure. *)
Definition jsonStringify (h : heap) (v : val) : result (option string) :=
  match reify (depthFuel h) h v with
  | Some t => Ok (jsonText t)
  | None => Throw "Converting circular structure to JSON"
  end.

(** [JSON.parse(JSON.stringify(v))]: a fresh copy of the structure below
    [v], as JSON keeps it. It throws on a cyclic structure and when there
    is no text to parse. *)
Definition jsonClone (h : heap) (v : val) : result (val * heap) :=
  match reify (depthFuel h) h v with
  | Some t =>
      match jsonValue t with
      | Some t' => Ok (allocTree t' h)
      | None => Throw "undefined is not valid JSON"
      end
  | None => Throw "Converting circular structure to JSON"
  end.

End Js.

(** ** ExpressionEvaluator.js *)

Module ExpressionEvaluator.
Import JsString Regex Js.
Local Open Scope js_scope.

Definition identStart (c : ascii) : bool := isAlpha c || Ascii.eqb c "_".

Definition pathChar (c : ascii) : bool :=
  isAlpha c || isDigit c || Ascii.eqb c "_" || Ascii.eqb c "."
  || Ascii.eqb c "$" || Ascii.eqb c "[" || Ascii.eqb c "]".

(** [/^[a-zA-Z_][a-zA-Z0-9_.$\[\]]*$/] *)
Definition simplePathRegex : re :=
  seqs [Bol; Chr identStart; Star true (Chr pathChar); Eol].

(** [/\b( [a-zA-Z_][a-zA-Z0-9_.$\[\]]* )\b/g] (spaces added) *)
Definition variablePattern : re :=
  seqs [WordB; Group 1 (Seq (Chr identStart) (Star true (Chr pathChar))); WordB].

(** [/\bthis\.( [a-zA-Z_][a-zA-Z0-9_]* )\b/g] (spaces added) *)
Definition thisPropertyRegex : re :=
  seqs [WordB; Lit "this."; Group 1 (Seq (Chr identStart) (Star true Word)); WordB].

(** [/\[(\d+)\]/g] *)
Definition indexRegex : re := seqs [Ch "["; Group 1 (Plus true Digit); Ch "]"].

(** [/^\d+$/] *)
Definition digitsRegex : re := seqs [Bol; Plus true Digit; Eol].

(** [new RegExp('\\b' + escapeRegExp(word) + '\\b', 'g')]: the escaped
    text matches itself. *)
Definition wordRegex (word : string) : re := seqs [WordB; Lit word; WordB].

Definition isJavaScriptKeyword (word : string) : bool :=
  existsb (String.eqb word)
    ["true"; "false"; "null"; "undefined"; "Math"; "Date"; "parseInt";
     "parseFloat"; "isNaN"; "isFinite"; "typeof"; "instanceof"].

(** The keys of a path: [a[0].b] is [a.0.b], split at the dots. *)
Definition pathKeys (path : string) : list string :=
  splitChar "." (replaceStr indexRegex ".$1" path).

Definition keyIndex (key : string) : Z :=
  let '(v, _, _) := JsNumber.readDigits 10 key 0 0 in v.

(** One step of the walk along the keys; [Ok None] is the early
    [return null]. *)
Definition stepIndex (h : heap) (current : val) (key : string) : option val :=
  match isArray h current with
  | Some vs =>
      if Z.ltb (keyIndex key) (Z.of_nat (List.length vs))
      then Some (nth (Z.to_nat (keyIndex key)) vs VUndef)
      else None
  | None => None
  end.

Definition stepKey (E : HostLib) (h : heap) (current : val) (key : string)
  : result (option val) :=
  v <- getProp E h current key ;;
  Ok (match v with VUndef => None | _ => Some v end).

Definition isNullish (v : val) : bool :=
  match v with VUndef | VNull => true | _ => false end.

Fixpoint walkProperty (E : HostLib) (h : heap) (current : val)
    (keys : list string) : result val :=
  match keys with
  | [] => Ok current
  | key :: rest =>
      if isNullish current then Ok VNull
      else if test digitsRegex key then
        match stepIndex h current key with
        | Some v => walkProperty E h v rest
        | None => Ok VNull
        end
      else
        o <- stepKey E h current key ;;
        match o with
        | Some v => walkProperty E h v rest
        | None => Ok VNull
        end
  end.

Definition getNestedProperty (E : HostLib) (h : heap) (obj : val)
    (path : string) : result val :=
  if negb (truthy obj) || String.eqb path "" then Ok VNull
  else walkProperty E h obj (pathKeys path).

Fixpoint walkValue (E : HostLib) (h : heap) (current : val)
    (keys : list string) : result val :=
  match keys with
  | [] => Ok current
  | key :: rest =>
      if isNullish current then Ok VNull
      else if String.eqb key "this" then
        o <- stepKey E h current "this" ;;
        match o with
        | Some v => walkValue E h v rest
        | None => Ok VNull
        end
      else if test digitsRegex key then
        match stepIndex h current key with
        | Some v => walkValue E h v rest
        | None => Ok VNull
        end
      else
        o <- stepKey E h current key ;;
        match o with
        | Some v => walkValue E h v rest
        | None => Ok VNull
        end
  end.

Definition getNestedValue (E : HostLib) (h : heap) (obj : val)
    (path : string) : result val :=
  if negb (truthy obj) || String.eqb path "" then Ok VNull
  else if startsWith path "this." then
    this <- getProp E h obj "this" ;;
    if truthy this then getNestedProperty E h this (substringFrom path 5)
    else Ok VNull
  else walkValue E h obj (pathKeys path).

Definition quoted (s : string) : string := String dquote (s ++ String dquote "").

Definition serializeValue (h : heap) (value : val) : result string :=
  match value with
  | VUndef | VNull => Ok "null"
  | VStr s => Ok (quoted (replaceChar dquote (String "\" (String dquote "")) s))
  | VNum _ | VBool _ => Ok (primToString value)
  | VRef _ =>
      o <- jsonStringify h value ;;
      Ok (match o with Some s => s | None => "undefined" end)
  | VFun _ => Ok (quoted (primToString value))
  end.

Definition allowedGlobals : list string :=
  ["Math"; "Date"; "parseInt"; "parseFloat"; "isNaN"; "isFinite"].

(** The text is compiled and run by the host; when that throws the
    result is [null]. *)
Definition safeEvaluate (h : heap) (expression : string) : Host (val * heap) :=
  NewFunction allowedGlobals ("return (" ++ expression ++ ");")
    (fun r => Ret (match r with
                   | Some t => allocTree t h
                   | None => (VNull, h)
                   end)).

(** Every text that a computation hands to the [Function] constructor
    makes the host throw. *)
Definition hostThrows (E : HostLib) (A : Type) (c : Host A) : Prop :=
  Forall (fun body => newFunction E allowedGlobals body = None) (hostCalls E c).

(** [matches.sort((a, b) => b[0].length - a[0].length)]: longest first,
    the order of equal lengths kept. *)
Fixpoint insertByLength (m : rmatch) (l : list rmatch) : list rmatch :=
  match l with
  | [] => [m]
  | x :: r =>
      if Nat.ltb (String.length (m_text m)) (String.length (m_text x))
      then x :: insertByLength m r
      else m :: l
  end.

Definition sortByLength (l : list rmatch) : list rmatch :=
  fold_right insertByLength [] l.

(** The variables of the expression replaced by their serialized
    values, the longest names first. *)
Fixpoint substituteVariables (E : HostLib) (h : heap) (data : val)
    (matches : list rmatch) (processedExpression : string) : result string :=
  match matches with
  | [] => Ok processedExpression
  | m :: rest =>
      let variable := m_text m in
      if isJavaScriptKeyword variable
      then substituteVariables E h data rest processedExpression
      else
        value <- getNestedValue E h data variable ;;
        serializedValue <- serializeValue h value ;;
        substituteVariables E h data rest
          (replaceStr (wordRegex variable) serializedValue processedExpression)
  end.

Definition evaluateComplexExpression (E : HostLib) (h : heap)
    (expression : string) (data : val) : Host (result (val * heap)) :=
  let matches := sortByLength (matchAll variablePattern expression) in
  match substituteVariables E h data matches expression with
  | Ok processedExpression =>
      hostBind (safeEvaluate h processedExpression) (fun r => Ret (Ok r))
  | Throw msg => Ret (Throw msg)
  end.

(** [try { ... } catch (error) { return dflt; }] *)
Definition catchWith (A : Type) (dflt : A) (c : Host (result A)) : Host (result A) :=
  hostBind c (fun r => Ret (match r with Ok x => Ok x | Throw _ => Ok dflt end)).

Definition evaluate (E : HostLib) (h : heap) (expression : string)
    (data : val) : Host (result (val * heap)) :=
  if String.eqb expression "" then Ret (Ok (VNull, h))
  else
    match objectKeys h data with
    | Throw msg => Ret (Throw msg)
    | Ok _ =>
        catchWith (VNull, h)
          (if test simplePathRegex (trim expression)
           then Ret (r <- getNestedValue E h data (trim expression) ;; Ok (r, h))
           else evaluateComplexExpression E h expression data)
    end.

Definition normalizeCondition (condition : string) : string :=
  replaceStr (wordRegex "equals") "=="
    (replaceStr (wordRegex "isn't") "!="
       (replaceStr (wordRegex "is") "=="
          (replaceStr (wordRegex "not") "!"
             (replaceStr (wordRegex "or") "||"
                (replaceStr (wordRegex "and") "&&" condition))))).

(** [s.replace(r, fn)] for a function that may throw: the first
    exception ends the replacement. *)
Definition replaceThrowing (r : re) (cb : rmatch -> result string)
    (s : string) : result string :=
  let '(out, st) :=
    replaceSt r
      (fun m (st : option string) =>
         match st with
         | Some e => ("", Some e)
         | None =>
             match cb m with
             | Ok x => (x, None)
             | Throw e => ("", Some e)
             end
         end) s None in
  match st with
  | None => Ok out
  | Some e => Throw e
  end.

(** The replacement of [this.property] in a condition. *)
Definition thisPropertyValue (E : HostLib) (h : heap) (data : val)
    (m : rmatch) : result string :=
  this <- getProp E h data "this" ;;
  if truthy this then
    value <- getProp E h this (groupOr m 1 "") ;;
    match value with
    | VUndef => Ok "null"
    | _ => serializeValue h value
    end
  else Ok "null".

(** [console.log(`Condition result: ${result}`)]: the log converts the
    result to a text, inside the [try]. *)
Definition logResult (E : HostLib) (r : result (val * heap))
  : result (val * heap) :=
  '(value, h1) <- r ;;
  _ <- toString E h1 value ;;
  Ok (value, h1).

Definition evaluateCondition (E : HostLib) (h : heap) (condition : string)
    (data : val) : Host (result (val * heap)) :=
  catchWith (VBool false, h)
    (match replaceThrowing thisPropertyRegex (thisPropertyValue E h data)
             (normalizeCondition condition) with
     | Ok processedCondition =>
         hostBind (evaluateComplexExpression E h processedCondition data)
           (fun r => Ret (logResult E r))
     | Throw msg => Ret (Throw msg)
     end).

End ExpressionEvaluator.

(** ** FormatHelper.js *)

Module FormatHelper.
Import JsString Js.
Local Open Scope js_scope.

(** A formatter takes the value and the arguments that follow it; it may
    throw, and the styling formatters build new objects. *)
Definition formatter : Type := heap -> val -> list val -> result (val * heap).

(** A formatter that only adds cells to the store. *)
Definition addsCells (f : formatter) : Prop :=
  forall h value args r h', f h value args = Ok (r, h') -> extends h h'.

(** The argument at a position, [undefined] when it is not given. *)
Definition arg (args : list val) (i : nat) : val := nth i args VUndef.

(** A parameter with a default value: the default stands for
    [undefined]. *)
Definition argOr (args : list val) (i : nat) (dflt : val) : val :=
  match arg args i with VUndef => dflt | v => v end.

(** [a || b] *)
Definition orElse (a b : val) : val := if truthy a then a else b.

(** [Number(value) || 0]; the conversion may throw. *)
Definition numberOrZero (E : HostLib) (h : heap) (value : val) : result num :=
  n <- toNumber E h value ;;
  Ok (if JsNumber.truthy n then n else JsNumber.zero).

(** [options.key] where [options] defaults to [{}]. *)
Definition optionOf (E : HostLib) (h : heap) (args : list val) (key : string)
  : result val :=
  match arg args 0 with
  | VUndef => Ok (inherited E KObject key)
  | options => getProp E h options key
  end.

Definition pure (f : heap -> val -> list val -> result val) : formatter :=
  fun h value args => v <- f h value args ;; Ok (v, h).

Definition upper (E : HostLib) : formatter :=
  pure (fun h value _ => s <- toString E h value ;; Ok (VStr (toUpperCase s))).

Definition lower (E : HostLib) : formatter :=
  pure (fun h value _ => s <- toString E h value ;; Ok (VStr (toLowerCase s))).

Definition capitalize (E : HostLib) : formatter :=
  pure (fun h value _ =>
          str <- toString E h value ;;
          Ok (VStr (toUpperCase (charAt0 str) ++ toLowerCase (sliceFrom str 1)))).

Definition trimFormatter (E : HostLib) : formatter :=
  pure (fun h value _ => s <- toString E h value ;; Ok (VStr (trim s))).

Definition currency (E : HostLib) : formatter :=
  pure (fun h value args =>
          num <- numberOrZero E h value ;;
          c <- optionOf E h args "currency" ;;
          l <- optionOf E h args "locale" ;;
          s <- intlCurrency E (orElse l (VStr "en-US")) (orElse c (VStr "USD")) num ;;
          Ok (VStr s)).

Definition toFixed (n : num) (digits : num) : result string :=
  match JsNumber.toFixed n digits with
  | Some s => Ok s
  | None => Throw "toFixed() digits argument must be between 0 and 100"
  end.

Definition number (E : HostLib) : formatter :=
  pure (fun h value args =>
          num <- numberOrZero E h value ;;
          d <- optionOf E h args "decimals" ;;
          let decimals := match d with VUndef => VNum (JsNumber.ofZ 2) | _ => d end in
          digits <- toNumber E h decimals ;;
          s <- toFixed num digits ;;
          Ok (VStr s)).

Definition percent (E : HostLib) : formatter :=
  pure (fun h value _ =>
          num <- numberOrZero E h value ;;
          s <- toFixed (JsNumber.mul num (JsNumber.ofZ 100)) (JsNumber.ofZ 2) ;;
          Ok (VStr (s ++ "%"))).

Definition round (E : HostLib) : formatter :=
  pure (fun h value args =>
          num <- numberOrZero E h value ;;
          places <- toNumber E h (argOr args 0 (VNum JsNumber.zero)) ;;
          let scale := mathPow E (JsNumber.ofZ 10) places in
          Ok (VNum (JsNumber.div (JsNumber.round (JsNumber.mul num scale)) scale))).

(** [date.isValid() ? date.format(format) : String(value)] *)
Definition date (E : HostLib) : formatter :=
  pure (fun h value args =>
          if negb (truthy value) then Ok (VStr "")
          else match momentFormat E h value (argOr args 0 (VStr "YYYY-MM-DD")) with
               | Some s => Ok (VStr s)
               | None => s <- toString E h value ;; Ok (VStr s)
               end).

Definition dateTime (E : HostLib) : formatter :=
  pure (fun h value args =>
          if negb (truthy value) then Ok (VStr "")
          else match momentFormat E h value (argOr args 0 (VStr "YYYY-MM-DD HH:mm:ss")) with
               | Some s => Ok (VStr s)
               | None => s <- toString E h value ;; Ok (VStr s)
               end).

Definition fromNow (E : HostLib) : formatter :=
  pure (fun h value _ =>
          if negb (truthy value) then Ok (VStr "")
          else match momentFromNow E h value with
               | Some s => Ok (VStr s)
               | None => s <- toString E h value ;; Ok (VStr s)
               end).

(** [array.join(separator)], the separator already a text. *)
Definition arrayJoin (E : HostLib) (h : heap) (vs : list val) (separator : string)
  : result string :=
  texts <-
    sequence
      (map (fun e => match e with
                     | VUndef | VNull => Ok ""
                     | _ => toString E h e
                     end) vs) ;;
  Ok (join separator texts).

Definition joinFormatter (E : HostLib) : formatter :=
  pure (fun h value args =>
          match isArray h value with
          | Some vs =>
              separator <- toString E h (argOr args 0 (VStr ", ")) ;;
              s <- arrayJoin E h vs separator ;;
              Ok (VStr s)
          | None => s <- toString E h value ;; Ok (VStr s)
          end).

Definition lengthFormatter : formatter :=
  pure (fun h value _ =>
          match isArray h value, value with
          | Some vs, _ => Ok (VNum (JsNumber.ofNat (List.length vs)))
          | None, VStr s => Ok (VNum (JsNumber.ofNat (String.length s)))
          | None, _ => Ok (VNum JsNumber.zero)
          end).

(** [path.split('.').reduce((current, key) =>
      current && current[key] !== undefined ? current[key] : null, obj)] *)
Fixpoint getNestedValue (E : HostLib) (h : heap) (current : val)
    (keys : list string) : result val :=
  match keys with
  | [] => Ok current
  | key :: rest =>
      if truthy current then
        v <- getProp E h current key ;;
        getNestedValue E h (match v with VUndef => VNull | _ => v end) rest
      else getNestedValue E h VNull rest
  end.

(** [field ? this.getNestedValue(item, field) : item] *)
Definition fieldOf (E : HostLib) (h : heap) (item field : val) : result val :=
  if truthy field then
    match field with
    | VStr path => getNestedValue E h item (splitChar "." path)
    | _ => Throw "path.split is not a function"
    end
  else Ok item.

(** [sum + (Number(val) || 0)] over the items. *)
Fixpoint sumItems (E : HostLib) (h : heap) (field : val) (items : list val)
    (sum : num) : result num :=
  match items with
  | [] => Ok sum
  | item :: rest =>
      v <- fieldOf E h item field ;;
      n <- numberOrZero E h v ;;
      sumItems E h field rest (JsNumber.add sum n)
  end.

Definition sumOf (E : HostLib) (h : heap) (array field : val) : result val :=
  match isArray h array with
  | None => Ok (VNum JsNumber.zero)
  | Some items => s <- sumItems E h field items JsNumber.zero ;; Ok (VNum s)
  end.

Definition sum (E : HostLib) : formatter :=
  pure (fun h array args => sumOf E h array (arg args 0)).

Definition count : formatter :=
  pure (fun h array _ =>
          match isArray h array with
          | Some items => Ok (VNum (JsNumber.ofNat (List.length items)))
          | None => Ok (VNum JsNumber.zero)
          end).

Definition avg (E : HostLib) : formatter :=
  pure (fun h array args =>
          match isArray h array with
          | None | Some [] => Ok (VNum JsNumber.zero)
          | Some items =>
              s <- sumOf E h array (arg args 0) ;;
              Ok (VNum (JsNumber.div (primToNumber s)
                          (JsNumber.ofNat (List.length items))))
          end).

(** [str.length > length ? str.substring(0, length) + '...' : str] *)
Definition truncate (E : HostLib) : formatter :=
  pure (fun h value args =>
          str <- toString E h value ;;
          let length := argOr args 0 (VNum (JsNumber.ofZ 50)) in
          longer <- jsGt E h (VNum (JsNumber.ofNat (String.length str))) length ;;
          if longer then
            limit <- toNumber E h length ;;
            let n := match JsNumber.truncate limit with
                     | Some z => Z.to_nat z
                     | None => 0
                     end in
            Ok (VStr (substring str 0 n ++ "..."))
          else Ok (VStr str)).

Definition default : formatter :=
  pure (fun h value args =>
          match value with
          | VNull | VUndef => Ok (argOr args 0 (VStr ""))
          | VStr EmptyString => Ok (argOr args 0 (VStr ""))
          | _ => Ok value
          end).

Definition escapeText (s : string) : string :=
  replaceChar "'" "&apos;"
    (replaceChar dquote "&quot;"
       (replaceChar ">" "&gt;"
          (replaceChar "<" "&lt;"
             (replaceChar "&" "&amp;" s)))).

Definition escape (E : HostLib) : formatter :=
  pure (fun h value _ => s <- toString E h value ;; Ok (VStr (escapeText s))).

(** [({ value, format: { key: x } })] *)
Definition styled (key : string) (x : val) : formatter :=
  fun h value _ =>
    let '(f, h1) := alloc (CObj [(key, x)]) h in
    Ok (alloc (CObj [("value", value); ("format", f)]) h1).

Definition bold : formatter := styled "bold" (VBool true).
Definition italic : formatter := styled "italic" (VBool true).
Definition underline : formatter := styled "underline" (VBool true).

(** [({ value, format: { size: parseInt(size) } })] *)
Definition size (E : HostLib) : formatter :=
  fun h value args =>
    match toString E h (arg args 0) with
    | Ok text => styled "size" (VNum (JsNumber.parseInt text)) h value args
    | Throw msg => Throw msg
    end.

Definition color : formatter :=
  fun h value args => styled "color" (arg args 0) h value args.

(** The registry filled by [setupDefaultFormatters]. *)
Definition formatters (E : HostLib) : list (string * formatter) :=
  [("upper", upper E); ("lower", lower E); ("capitalize", capitalize E);
   ("trim", trimFormatter E); ("currency", currency E); ("number", number E);
   ("percent", percent E); ("round", round E); ("date", date E);
   ("dateTime", dateTime E); ("fromNow", fromNow E); ("join", joinFormatter E);
   ("length", lengthFormatter); ("sum", sum E); ("count", count);
   ("avg", avg E); ("truncate", truncate E); ("default", default);
   ("escape", escape E); ("bold", bold); ("italic", italic);
   ("underline", underline); ("size", size E); ("color", color)].

(** [{...formatting, ...format}] *)
Definition mergeProps (formatting extra : list (string * val)) : list (string * val) :=
  fold_left (fun acc kv => objSet acc (fst kv) (snd kv)) extra formatting.

(** One formatter of the pipe applied to the current result. An unknown
    formatter and a formatter that throws leave the result as it is. *)
Definition applyOne (E : HostLib) (formatterExpr : string)
    (st : val * list (string * val) * heap) : val * list (string * val) * heap :=
  let '(result, formatting, h) := st in
  match splitChar ":" formatterExpr with
  | [] => st
  | name :: args =>
      match objGet (formatters E) (trim name) with
      | None => st
      | Some f =>
          match f h result (map (fun a => VStr (trim a)) args) with
          | Throw _ => st
          | Ok (formattedResult, h1) =>
              let format :=
                match formattedResult with
                | VRef _ =>
                    match getProp E h1 formattedResult "format" with
                    | Ok fm => if truthy fm then Some fm else None
                    | Throw _ => None
                    end
                | _ => None
                end in
              match format with
              | Some fm =>
                  match getProp E h1 formattedResult "value" with
                  | Ok v => (v, mergeProps formatting (spreadProps h1 fm), h1)
                  | Throw _ => st
                  end
              | None => (formattedResult, formatting, h1)
              end
          end
      end
  end.

Definition applyFormatters (E : HostLib) (h : heap) (value : val)
    (fs : list string) : val * heap :=
  let '(result, formatting, h1) :=
    fold_left (fun st f => applyOne E f st) fs (value, [], h) in
  match formatting with
  | [] => (result, h1)
  | _ =>
      let '(f, h2) := alloc (CObj formatting) h1 in
      alloc (CObj [("value", result); ("formatting", f)]) h2
  end.

End FormatHelper.

(** ** TemplateEngine.js *)

Module TemplateEngine.
Import JsString Regex Js.
Local Open Scope js_scope.

(** *** The patterns

    A pattern of the source is quoted above its term, with [\x22] for the
    double quote and a blank between a star and a closing parenthesis. *)

(** [/\s+NAME=\x22[^\x22]*\x22/g] *)
Definition attributeRegex (name : string) : re :=
  seqs [Plus true Space; Lit name; Ch "="; Ch dquote;
        Star true (NotCh dquote); Ch dquote].

(** [/<w:proofErr[^>]*\/>/g] *)
Definition proofErrRegex : re :=
  seqs [Lit "<w:proofErr"; Star true (NotCh ">"); Lit "/>"].

(** [/<\/w:t><\/w:r><w:r\s+[^>]*><w:t>/g] *)
Definition mergeWithAttributes : re :=
  seqs [Lit "</w:t></w:r><w:r"; Plus true Space; Star true (NotCh ">");
        Lit "><w:t>"].

(** [/<\/w:t><\/w:r><w:r><w:t>/g] *)
Definition mergePlain : re := Lit "</w:t></w:r><w:r><w:t>".

(** [/<\/w:t><\/w:r><w:r[^>]*><w:t\s+xml:space=\x22preserve\x22>/g] *)
Definition mergePreserve : re :=
  seqs [Lit "</w:t></w:r><w:r"; Star true (NotCh ">"); Lit "><w:t";
        Plus true Space; Lit "xml:space="; Ch dquote; Lit "preserve";
        Ch dquote; Ch ">"].

(** [/<w:r><\/w:r>/g], [/<w:r\s+[^>]*><\/w:r>/g], [/<w:r><w:rPr\/><\/w:r>/g] *)
Definition emptyRun : re := Lit "<w:r></w:r>".
Definition emptyRunWithAttributes : re :=
  seqs [Lit "<w:r"; Plus true Space; Star true (NotCh ">"); Lit "></w:r>"].
Definition emptyRunWithProperties : re := Lit "<w:r><w:rPr/></w:r>".

(** [/\$\{([^}]+)\}/g] *)
Definition variableRegex : re :=
  seqs [Lit "${"; Group 1 (Plus true (NotCh "}")); Lit "}"].

(** [/\$\{#if\s+([^}]+)\}([\s\S]*?)(?:\$\{#else\}([\s\S]*?))?\$\{\/if\}/g] *)
Definition conditionRegex : re :=
  seqs [Lit "${#if"; Plus true Space; Group 1 (Plus true (NotCh "}")); Lit "}";
        Group 2 (Star false AnyChar);
        Opt (seqs [Lit "${#else}"; Group 3 (Star false AnyChar)]);
        Lit "${/if}"].

(** [/\bthis\.(\w+)/g] *)
Definition thisWordRegex : re :=
  seqs [WordB; Lit "this."; Group 1 (Plus true Word)].

(** [/\bthis\.([a-zA-Z0-9_.]+)\b/g] *)
Definition thisPathRegex : re :=
  seqs [WordB; Lit "this.";
        Group 1 (Plus true (Chr (fun c => isWord c || Ascii.eqb c ".")));
        WordB].

(** [/^(.+?)\s*(>=|<=|==|!=|>|<)\s*(.+?)$/] *)
Definition comparisonRegex : re :=
  seqs [Bol; Group 1 (Plus false Dot); Star true Space;
        Group 2 (alts [Lit ">="; Lit "<="; Lit "=="; Lit "!="; Lit ">"; Lit "<"]);
        Star true Space; Group 3 (Plus false Dot); Eol].

(** [/^-?\d+\.?\d*$/] *)
Definition numberRegex : re :=
  seqs [Bol; Opt (Ch "-"); Plus true Digit; Opt (Ch "."); Star true Digit; Eol].

(** [/^\d+$/] and [/\[(\d+)\]/g], as in the evaluator. *)
Definition digitsRegex : re := ExpressionEvaluator.digitsRegex.
Definition indexRegex : re := ExpressionEvaluator.indexRegex.

(** [/<w:tr[^>]*>([\s\S]*?)<\/w:tr>/g] *)
Definition tableRowRegex : re :=
  seqs [Lit "<w:tr"; Star true (NotCh ">"); Ch ">";
        Group 1 (Star false AnyChar); Lit "</w:tr>"].

(** [/\$\{#each\s+([^}]+)\}/] *)
Definition loopStartRegex : re :=
  seqs [Lit "${#each"; Plus true Space; Group 1 (Plus true (NotCh "}")); Lit "}"].

(** An opening tag [<NAME[^>]*>] and white space [\s*]. *)
Definition openTag (name : string) : re :=
  seqs [Lit ("<" ++ name); Star true (NotCh ">"); Ch ">"].
Definition spaces : re := Star true Space.

(** [\s*<w:tc[^>]*>\s*<w:p[^>]*>\s*<w:t[^>]*>\s*<\/w:t>\s*<\/w:p>\s*<\/w:tc>\s*] *)
Definition emptyCell : re :=
  seqs [spaces; openTag "w:tc"; spaces; openTag "w:p"; spaces; openTag "w:t";
        spaces; Lit "</w:t>"; spaces; Lit "</w:p>"; spaces; Lit "</w:tc>"; spaces].

(** [/<w:tr[^>]*>\s*<w:tc[^>]*>\s*<w:p[^>]*>\s*<w:t[^>]*>\s*<\/w:t>\s*<\/w:p>\s*<\/w:tc>\s*<\/w:tr>/g] *)
Definition emptyControlRowPattern : re :=
  seqs [openTag "w:tr"; emptyCell; Lit "</w:tr>"].

(** [/<w:tr[^>]*>(\s*<w:tc[^>]*>\s*<w:p[^>]*>\s*<w:t[^>]*>\s*<\/w:t>\s*<\/w:p>\s*<\/w:tc>\s* )+<\/w:tr>/g] *)
Definition emptyMultiCellRowPattern : re :=
  seqs [openTag "w:tr"; Plus true (Group 1 emptyCell); Lit "</w:tr>"].

(** [/<w:t[^>]*>([^<]* )<\/w:t>/g] *)
Definition textLeafRegex : re :=
  seqs [openTag "w:t"; Group 1 (Star true (NotCh "<")); Lit "</w:t>"].

(** [/<[^>]*>/g] *)
Definition tagRegex : re := seqs [Ch "<"; Star true (NotCh ">"); Ch ">"].

(** [/<w:tr[^>]*>[\s\S]*?\$\{#each\s+([^}]+)\}[\s\S]*?<\/w:tr>([\s\S]*?)<w:tr[^>]*>[\s\S]*?\$\{\/each\}[\s\S]*?<\/w:tr>/g] *)
Definition tableLoopPattern : re :=
  seqs [openTag "w:tr"; Star false AnyChar; Lit "${#each"; Plus true Space;
        Group 1 (Plus true (NotCh "}")); Lit "}"; Star false AnyChar;
        Lit "</w:tr>"; Group 2 (Star false AnyChar); openTag "w:tr";
        Star false AnyChar; Lit "${/each}"; Star false AnyChar; Lit "</w:tr>"].

(** *** The markup normalizer *)

Definition revisionAttributes : list string :=
  ["w:rsidR"; "w:rsidRDefault"; "w:rsidP"; "w:rsidRPr"; "w:rsidDel";
   "w:rsidTr"; "w14:paraId"; "w14:textId"].

(** One pass of the merge of consecutive runs. *)
Definition mergePass (xml : string) : string :=
  replaceStr mergePreserve ""
    (replaceStr mergePlain ""
       (replaceStr mergeWithAttributes "" xml)).

(** The [do ... while] loop that merges the runs, with the number of
    passes made. [None]: the fuel ran out. *)
Fixpoint mergeRuns (fuel : nat) (iterations : nat) (xml : string)
  : option (string * nat) :=
  match fuel with
  | O => None
  | S fuel' =>
      let previousLength := String.length xml in
      let xml := mergePass xml in
      let iterations := S iterations in
      if Nat.ltb 20 iterations then Some (xml, iterations)
      else if Nat.ltb (String.length xml) previousLength
           then mergeRuns fuel' iterations xml
           else Some (xml, iterations)
  end.

Definition stripAttributes (xml : string) : string :=
  fold_left (fun x name => replaceStr (attributeRegex name) "" x)
    revisionAttributes xml.

Definition removeEmptyRuns (xml : string) : string :=
  replaceStr emptyRunWithProperties ""
    (replaceStr emptyRunWithAttributes ""
       (replaceStr emptyRun "" xml)).

(** [cleanWordXmlLikeLibreOffice], with the number of merge passes. *)
Definition cleanWordXmlPasses (fuel : nat) (xml : string) : option (string * nat) :=
  match mergeRuns fuel 0 (replaceStr proofErrRegex "" (stripAttributes xml)) with
  | Some (merged, iterations) => Some (removeEmptyRuns merged, iterations)
  | None => None
  end.

(** The loop stops by itself: a fuel of 21 is never used up. *)
Definition cleanWordXmlLikeLibreOffice (xml : string) : string :=
  match cleanWordXmlPasses 21 xml with
  | Some (cleaned, _) => cleaned
  | None => xml
  end.

Definition escapeXml (text : string) : string :=
  replaceChar "'" "&apos;"
    (replaceChar dquote "&quot;"
       (replaceChar ">" "&gt;"
          (replaceChar "<" "&lt;"
             (replaceChar "&" "&amp;" text)))).

(** *** The table-row cleaner *)

(** The text of a leaf: the tags removed, the white space trimmed. *)
Definition innerText (text : string) : string :=
  trim (replaceStr tagRegex "" text).

(** The decision on one row, from the text between its tags. *)
Definition keepRowCallback (m : rmatch) : string :=
  let content := groupOr m 1 "" in
  match matchAll textLeafRegex content with
  | [] => m_text m
  | actualText =>
      let hasNonEmptyText :=
        existsb (fun leaf => Nat.ltb 0 (String.length (innerText (m_text leaf))))
          actualText in
      if negb hasNonEmptyText then "" else m_text m
  end.

Definition removeEmptyControlRows (xml : string) : string :=
  let cleaned := replaceStr emptyControlRowPattern "" xml in
  let cleaned := replaceStr emptyMultiCellRowPattern "" cleaned in
  replaceFn tableRowRegex keepRowCallback cleaned.

(** A row content with at least one text leaf, every leaf empty once its
    tags are removed and its white space trimmed. *)
Definition blankLeaves (content : string) : bool :=
  match matchAll textLeafRegex content with
  | [] => false
  | leaves =>
      forallb (fun leaf => String.eqb (innerText (m_text leaf)) "") leaves
  end.

(** The last pass of [removeEmptyControlRows], which decides on each
    row. *)
Definition dropBlankRows (xml : string) : string :=
  replaceFn tableRowRegex keepRowCallback xml.

(** The decision of [removeTableControlRows] on one row: a row whose
    text leaves are all blank goes, and so does a row that has nothing
    but white space outside its tags. *)
Definition controlRowCallback (m : rmatch) : string :=
  let rowContent := groupOr m 1 "" in
  let emptyCells :=
    match matchAll textLeafRegex rowContent with
    | [] => false
    | cellTextMatches =>
        let allText :=
          join "" (map (fun leaf => innerText (m_text leaf)) cellTextMatches) in
        Nat.eqb (String.length allText) 0
    end in
  if emptyCells then ""
  else
    let textContent := innerText rowContent in
    if Nat.eqb (String.length textContent) 0 then "" else m_text m.

Definition removeTableControlRows (xml : string) : string :=
  replaceFn tableRowRegex controlRowCallback xml.

(** *** The executor *)

Definition loopStartMarker : string := "${#each ".
Definition loopEndMarker : string := "${/each}".

(** [this.expressionEvaluator.evaluate(expression, data)], run on the
    host. *)
Definition evaluate (E : HostLib) (h : heap) (expression : string) (data : val)
  : result (val * heap) :=
  runHost E (ExpressionEvaluator.evaluate E h expression data).

Definition evaluateCondition (E : HostLib) (h : heap) (condition : string)
    (data : val) : result (val * heap) :=
  runHost E (ExpressionEvaluator.evaluateCondition E h condition data).

(** The search of the closing tag that balances an opening tag: the inner
    [while (depth > 0 && currentIndex < resultXml.length)]. [None] is the
    index -1. Every turn moves [currentIndex] forward, so a fuel of the
    length of the text is enough. *)
Fixpoint findClose (fuel : nat) (resultXml : string) (depth currentIndex : nat)
  : option nat :=
  match fuel with
  | O => None
  | S fuel' =>
      if Nat.ltb 0 depth && Nat.ltb currentIndex (String.length resultXml) then
        let searchStr := substringFrom resultXml currentIndex in
        let nextOpen := indexOf searchStr loopStartMarker in
        match indexOf searchStr loopEndMarker with
        | None => None
        | Some nextClose =>
            let absNextClose := currentIndex + nextClose in
            let closing :=
              if Nat.eqb (depth - 1) 0 then Some absNextClose
              else findClose fuel' resultXml (depth - 1) (absNextClose + 1) in
            match nextOpen with
            | Some o =>
                if Nat.ltb (currentIndex + o) absNextClose
                then findClose fuel' resultXml (S depth) (currentIndex + o + 1)
                else closing
            | None => closing
            end
        end
      else None
  end.

(** The closing tag that follows [body] is the one the search finds from
    the end of the opening tag, [post] being the text after it. *)
Definition balancedBody (body post : string) : Prop :=
  findClose (S (String.length (body ++ loopEndMarker ++ post)))
    (body ++ loopEndMarker ++ post) 1 0 = Some (String.length body).

(** The body of a loop without one line break at its start and one at
    its end. *)
Definition trimContent (content : string) : string :=
  let content :=
    if startsWith content (String (ascii_of_nat 10) "") then substringFrom content 1
    else if startsWith content (String (ascii_of_nat 13) (String (ascii_of_nat 10) ""))
    then substringFrom content 2
    else content in
  if endsWith content (String (ascii_of_nat 10) "")
  then substring content 0 (String.length content - 1)
  else if endsWith content (String (ascii_of_nat 13) (String (ascii_of_nat 10) ""))
  then substring content 0 (String.length content - 2)
  else content.

(** The context of one iteration, a new object:
    [{...data, this: item, parent: data.this, _parentContext: data,
      index, first, last, count}]. *)
Definition loopContext (E : HostLib) (h : heap) (data item : val)
    (index count : nat) : result (val * heap) :=
  parent <- getProp E h data "this" ;;
  let props := spreadProps h data in
  let props := objSet props "this" item in
  let props := objSet props "parent" parent in
  let props := objSet props "_parentContext" data in
  let props := objSet props "index" (VNum (JsNumber.ofNat index)) in
  let props := objSet props "first" (VBool (Nat.eqb index 0)) in
  let props := objSet props "last" (VBool (Nat.eqb (S index) count)) in
  let props := objSet props "count" (VNum (JsNumber.ofNat count)) in
  Ok (alloc (CObj props) h).

(** The names an iteration binds in its context. *)
Definition loopBindings : list string :=
  ["this"; "parent"; "_parentContext"; "index"; "first"; "last"; "count"].

(** An item that is an object with the text [name] under the key
    [name]: what [${this.name}] reads in an iteration. *)
Definition named (h : heap) (item : val) (name : string) : Prop :=
  exists l ps,
    item = VRef l /\ lookup l h = Some (CObj ps)
    /\ objGet ps "name" = Some (VStr name).

(** [getNestedProperty] of the engine. *)
Fixpoint walkProperty (E : HostLib) (h : heap) (current : val)
    (keys : list string) : result val :=
  match keys with
  | [] => Ok current
  | key :: rest =>
      if ExpressionEvaluator.isNullish current then Ok VNull
      else if test digitsRegex key then
        match ExpressionEvaluator.stepIndex h current key with
        | Some v => walkProperty E h v rest
        | None => Ok VNull
        end
      else
        v <- getProp E h current key ;;
        walkProperty E h v rest
  end.

Definition getNestedProperty (E : HostLib) (h : heap) (obj : val)
    (path : string) : result val :=
  if negb (truthy obj) || String.eqb path "" then Ok VNull
  else walkProperty E h obj (ExpressionEvaluator.pathKeys path).

Definition parseValue (str : string) : val :=
  let trimmed := trim str in
  if test numberRegex trimmed then VNum (JsNumber.parseFloat trimmed)
  else if (startsWith trimmed (String dquote "") && endsWith trimmed (String dquote ""))
          || (startsWith trimmed "'" && endsWith trimmed "'")
  then VStr (slice trimmed 1 (-1))
  else if String.eqb trimmed "true" then VBool true
  else if String.eqb trimmed "false" then VBool false
  else if String.eqb trimmed "null" then VNull
  else VStr trimmed.

(** The text put in a condition for a value:
    [typeof value === 'string' ? `"${value}"` : String(value)]. *)
Definition conditionLiteral (E : HostLib) (h : heap) (value : val)
  : result string :=
  match value with
  | VStr s => Ok (ExpressionEvaluator.quoted s)
  | _ => toString E h value
  end.

(** The replacement of [this.path] in the condition of a loop. *)
Definition thisPathValue (E : HostLib) (h : heap) (data : val) (m : rmatch)
  : result string :=
  this <- getProp E h data "this" ;;
  if truthy this then
    value <- ExpressionEvaluator.getNestedValue E h this (groupOr m 1 "") ;;
    if ExpressionEvaluator.isNullish value then Ok "null"
    else conditionLiteral E h value
  else Ok "null".

(** The [switch] on the operator; [Ok None] when no case applies. *)
Definition compareValues (E : HostLib) (h : heap) (operator : string)
    (leftVal rightVal : val) : result (option bool) :=
  if String.eqb operator ">=" then b <- jsGe E h leftVal rightVal ;; Ok (Some b)
  else if String.eqb operator "<=" then b <- jsLe E h leftVal rightVal ;; Ok (Some b)
  else if String.eqb operator ">" then b <- jsGt E h leftVal rightVal ;; Ok (Some b)
  else if String.eqb operator "<" then b <- jsLt E h leftVal rightVal ;; Ok (Some b)
  else if String.eqb operator "==" then
    b <- looseEq E h leftVal rightVal ;; Ok (Some b)
  else if String.eqb operator "!=" then
    b <- looseEq E h leftVal rightVal ;; Ok (Some (negb b))
  else Ok None.

Definition evaluateConditionInLoop (E : HostLib) (h : heap) (condition : string)
    (data : val) : result bool :=
  processedCondition <-
    ExpressionEvaluator.replaceThrowing thisPathRegex (thisPathValue E h data)
      condition ;;
  let fallback := truthy (parseValue processedCondition) in
  match exec comparisonRegex processedCondition with
  | Some m =>
      let leftVal := parseValue (trim (groupOr m 1 "")) in
      let rightVal := parseValue (trim (groupOr m 3 "")) in
      match compareValues E h (groupOr m 2 "") leftVal rightVal with
      | Ok (Some b) => Ok b
      | Ok None => Ok fallback
      | Throw _ => Ok false
      end
  | None => Ok fallback
  end.

(** The replacement of one [${#if ...}...${/if}] inside a loop. *)
Definition conditionInLoopCallback (E : HostLib) (h : heap) (data : val)
    (m : rmatch) : string :=
  let condition := groupOr m 1 "" in
  let ifContent := groupOr m 2 "" in
  let elseContent := groupOr m 3 "" in
  match evaluateConditionInLoop E h condition data with
  | Ok result => if result then ifContent else elseContent
  | Throw _ => ifContent
  end.

Definition processConditionsInLoop (E : HostLib) (h : heap) (xml : string)
    (data : val) : string :=
  replaceFn conditionRegex (conditionInLoopCallback E h data) xml.

(** [expression.split('|')]: the path and the formatters. *)
Definition splitPipe (expression : string) : string * list string :=
  match splitChar "|" expression with
  | [] => ("", [])
  | p :: fs => (trim p, map trim fs)
  end.

(** [if (formatters.length > 0) value = applyFormatters(value, formatters)] *)
Definition withFormatters (E : HostLib) (h : heap) (value : val)
    (fs : list string) : val * heap :=
  match fs with
  | [] => (value, h)
  | _ => FormatHelper.applyFormatters E h value fs
  end.

(** The value of a styled result, when the value is one:
    [value && typeof value === 'object' && value.formatting]. *)
Definition formattingValue (E : HostLib) (h : heap) (value : val)
  : result (option val) :=
  match value with
  | VRef _ =>
      f <- getProp E h value "formatting" ;;
      if truthy f then v <- getProp E h value "value" ;; Ok (Some v)
      else Ok None
  | _ => Ok None
  end.

Definition errorMarker (expression : string) : string :=
  "[ERROR: " ++ expression ++ "]".

(** [return this.escapeXml(String(value))] inside the [try] of a
    replacement: a conversion that throws gives the marker. *)
Definition escapedText (E : HostLib) (h : heap) (expression : string)
    (value : val) : string :=
  match toString E h value with
  | Ok text => escapeXml text
  | Throw _ => errorMarker expression
  end.

(** The replacement of one [${...}] inside a loop. The log of a
    [this.] variable, [`Loop variable ${varPath} = ${value}`], converts
    the value to a text before the formatters run. *)
Definition variableInLoopCallback (E : HostLib) (data : val) (m : rmatch)
    (h : heap) : string * heap :=
  let expression := groupOr m 1 "" in
  let t := trim expression in
  if startsWith t "#each" || startsWith t "#if" || startsWith t "/each"
     || startsWith t "/if"
  then (m_text m, h)
  else
    let '(varPath, fs) := splitPipe expression in
    let looked : result (val * heap) :=
      if startsWith varPath "this." then
        this <- getProp E h data "this" ;;
        v <- getNestedProperty E h this (substringFrom varPath 5) ;;
        _ <- toString E h v ;;
        Ok (v, h)
      else if String.eqb varPath "this" then v <- getProp E h data "this" ;; Ok (v, h)
      else if String.eqb varPath "index" then v <- getProp E h data "index" ;; Ok (v, h)
      else if String.eqb varPath "first" then v <- getProp E h data "first" ;; Ok (v, h)
      else if String.eqb varPath "last" then v <- getProp E h data "last" ;; Ok (v, h)
      else if String.eqb varPath "count" then v <- getProp E h data "count" ;; Ok (v, h)
      else evaluate E h varPath data in
    match looked with
    | Throw _ => (errorMarker expression, h)
    | Ok (value, h1) =>
        let '(value, h2) := withFormatters E h1 value fs in
        match formattingValue E h2 value with
        | Throw _ => (errorMarker expression, h2)
        | Ok (Some v) =>
            (escapedText E h2 expression (FormatHelper.orElse v (VStr "")), h2)
        | Ok None =>
            (escapedText E h2 expression
               (if ExpressionEvaluator.isNullish value then VStr "" else value),
             h2)
        end
    end.

Definition processVariablesInLoop (E : HostLib) (xml : string) (data : val)
    (h : heap) : string * heap :=
  replaceSt variableRegex (variableInLoopCallback E data) xml h.

(** [arrayData.map((item, index) => ...)], the store threaded through the
    calls. The outer [None] is a lack of fuel, [Throw] an exception of
    the callback. *)
Fixpoint mapItems (f : val -> nat -> heap -> option (result (string * heap)))
    (items : list val) (index : nat) (h : heap)
  : option (result (list string * heap)) :=
  match items with
  | [] => Some (Ok ([], h))
  | item :: rest =>
      match f item index h with
      | None => None
      | Some (Throw msg) => Some (Throw msg)
      | Some (Ok (s, h1)) =>
          match mapItems f rest (S index) h1 with
          | None => None
          | Some (Throw msg) => Some (Throw msg)
          | Some (Ok (ss, h2)) => Some (Ok (s :: ss, h2))
          end
      end
  end.

(** A function for the nested loops that only adds cells to the store. *)
Definition nestedAddsCells
    (nested : string -> val -> heap -> option (string * heap)) : Prop :=
  forall c d h r h', nested c d h = Some (r, h') -> extends h h'.

(** The callback of the map of [processLoops]: the content of the loop
    rendered for one item. [nested] is [processLoops] itself, for the
    loops inside the content. *)
Definition renderItem (E : HostLib)
    (nested : string -> val -> heap -> option (string * heap))
    (content : string) (data : val) (count : nat)
    (item : val) (index : nat) (h : heap) : option (result (string * heap)) :=
  match loopContext E h data item index count with
  | Throw msg => Some (Throw msg)
  | Ok (contextData, h1) =>
      match nested content contextData h1 with
      | None => None
      | Some (processedContent, h2) =>
          let processedContent :=
            processConditionsInLoop E h2 processedContent contextData in
          Some (Ok (processVariablesInLoop E processedContent contextData h2))
      end
  end.

(** The [try] block of [processLoops]: the expansion of one loop. *)
Definition expandLoop (E : HostLib)
    (nested : string -> val -> heap -> option (string * heap))
    (arrayPath content : string) (data : val) (h : heap)
  : option (string * heap) :=
  let failed msg := "[ERROR: Loop " ++ arrayPath ++ " - " ++ msg ++ "]" in
  match evaluate E h arrayPath data with
  | Throw msg => Some (failed msg, h)
  | Ok (arrayData, h1) =>
      match isArray h1 arrayData with
      | None => Some ("", h1)
      | Some items =>
          match mapItems (renderItem E nested content data (List.length items))
                  items 0 h1 with
          | None => None
          | Some (Throw msg) => Some (failed msg, h1)
          | Some (Ok (rendered, h2)) =>
              Some (join (String (ascii_of_nat 10) "") rendered, h2)
          end
      end
  end.

(** The [while (true)] of [processLoops], from [startIndex] on. [None]:
    the fuel ran out. *)
Fixpoint loopFrom (fuel : nat) (E : HostLib) (resultXml : string)
    (startIndex : nat) (data : val) (h : heap) : option (string * heap) :=
  match fuel with
  | O => None
  | S fuel' =>
      match indexOfFrom resultXml loopStartMarker startIndex with
      | None => Some (resultXml, h)
      | Some openIndex =>
          match indexOfFrom resultXml "}" openIndex with
          | None => Some (resultXml, h)
          | Some openTagEndIndex =>
              let arrayPath :=
                trim (substring resultXml
                        (openIndex + String.length loopStartMarker) openTagEndIndex) in
              match findClose (S (String.length resultXml)) resultXml 1
                      (openTagEndIndex + 1) with
              | None => loopFrom fuel' E resultXml (openTagEndIndex + 1) data h
              | Some closeIndex =>
                  let content :=
                    trimContent (substring resultXml (openTagEndIndex + 1) closeIndex) in
                  match expandLoop E (fun c d hh => loopFrom fuel' E c 0 d hh)
                          arrayPath content data h with
                  | None => None
                  | Some (loopResult, h1) =>
                      let beforeLoop := substring resultXml 0 openIndex in
                      let afterLoop :=
                        substringFrom resultXml
                          (closeIndex + String.length loopEndMarker) in
                      loopFrom fuel' E (beforeLoop ++ loopResult ++ afterLoop)
                        (String.length beforeLoop + String.length loopResult)
                        data h1
                  end
              end
          end
      end
  end.

(** Each turn of the loop leaves less text after [startIndex], and a
    nested call works on a shorter text: a fuel above the length of the
    text is enough ([loopFrom_total] below), and the second branch is
    never taken. *)
Definition processLoops (E : HostLib) (xml : string) (data : val) (h : heap)
  : string * heap :=
  match loopFrom (S (String.length xml)) E xml 0 data h with
  | Some r => r
  | None => (xml, h)
  end.

(** A result of the loop with a text put before its text. *)
Definition prepend (done : string) (r : string * heap) : string * heap :=
  (done ++ fst r, snd r).

(** The replacement of one table loop by [processAdvancedTable]: the rows
    between the row of the opener and the row of the closer, once per
    item. *)
Fixpoint tableRows (E : HostLib) (contentBetween : string) (data : val)
    (items : list val) (index count : nat) (h : heap) : list string * heap :=
  match items with
  | [] => ([], h)
  | item :: rest =>
      let props := spreadProps h data in
      let props := objSet props "this" item in
      let props := objSet props "index" (VNum (JsNumber.ofNat index)) in
      let props := objSet props "first" (VBool (Nat.eqb index 0)) in
      let props := objSet props "last" (VBool (Nat.eqb (S index) count)) in
      let '(contextData, h1) := alloc (CObj props) h in
      let '(processedRow, h2) := processVariablesInLoop E contentBetween contextData h1 in
      let processedRow := processConditionsInLoop E h2 processedRow contextData in
      let '(rows, h3) := tableRows E contentBetween data rest (S index) count h2 in
      (processedRow :: rows, h3)
  end.

Definition advancedTableCallback (E : HostLib) (data : val) (m : rmatch)
    (h : heap) : string * heap :=
  let arrayPath := groupOr m 1 "" in
  let contentBetween := groupOr m 2 "" in
  match evaluate E h arrayPath data with
  | Throw _ => ("[ERROR: Table loop " ++ arrayPath ++ "]", h)
  | Ok (arrayData, h1) =>
      match isArray h1 arrayData with
      | None => ("", h1)
      | Some items =>
          let '(rows, h2) :=
            tableRows E contentBetween data items 0 (List.length items) h1 in
          (join "" rows, h2)
      end
  end.

Definition processAdvancedTable (E : HostLib) (xml : string) (data : val)
    (h : heap) : string * heap :=
  replaceSt tableLoopPattern (advancedTableCallback E data) xml h.

(** The decision of [processTableLoops] on one row: a row that opens a
    loop over something that is not an array is removed. *)
Definition tableLoopCallback (E : HostLib) (data : val) (m : rmatch)
    (h : heap) : string * heap :=
  let rowContent := groupOr m 1 "" in
  match exec loopStartRegex rowContent with
  | Some loopStartMatch =>
      match evaluate E h (groupOr loopStartMatch 1 "") data with
      | Throw _ => ("", h)
      | Ok (arrayData, h1) =>
          match isArray h1 arrayData with
          | None => ("", h1)
          | Some _ => (m_text m, h1)
          end
      end
  | None => (m_text m, h)
  end.

Definition processTableLoops (E : HostLib) (xml : string) (data : val)
    (h : heap) : string * heap :=
  replaceSt tableRowRegex (tableLoopCallback E data) xml h.

Definition processTables (E : HostLib) (xml : string) (data : val) (h : heap)
  : string * heap :=
  let '(processedXml, h1) := processTableLoops E xml data h in
  (removeEmptyControlRows processedXml, h1).

(** The replacement of [this.prop] in a condition outside the loops. *)
Definition thisWordValue (E : HostLib) (h : heap) (data : val) (m : rmatch)
  : result string :=
  this <- getProp E h data "this" ;;
  if truthy this then
    value <- getProp E h this (groupOr m 1 "") ;;
    match value with
    | VUndef => Ok "null"
    | _ => conditionLiteral E h value
    end
  else Ok "null".

(** The replacement of one [${#if ...}...${/if}]. The log of the
    outcome, [`Condition "${condition}" evaluated to: ${result}`],
    converts the result to a text inside the [try]. *)
Definition conditionCallback (E : HostLib) (data : val) (m : rmatch) (h : heap)
  : string * heap :=
  let condition := groupOr m 1 "" in
  let ifContent := groupOr m 2 "" in
  let elseContent := groupOr m 3 "" in
  match ExpressionEvaluator.replaceThrowing thisWordRegex (thisWordValue E h data)
          condition with
  | Throw _ => (ifContent, h)
  | Ok processedCondition =>
      match evaluateCondition E h processedCondition data with
      | Throw _ => (ifContent, h)
      | Ok (result, h1) =>
          match toString E h1 result with
          | Throw _ => (ifContent, h1)
          | Ok _ => (if truthy result then ifContent else elseContent, h1)
          end
      end
  end.

Definition processConditions (E : HostLib) (xml : string) (data : val)
    (h : heap) : string * heap :=
  replaceSt conditionRegex (conditionCallback E data) xml h.

(** Whether an expression names a directive: the test that makes
    [processRemainingVariables] leave a tag as it is. *)
Definition namesDirective (expression : string) : bool :=
  includes expression "#each" || includes expression "#if"
  || includes expression "/each" || includes expression "/if".

(** The end of the callback of [processRemainingVariables]: the
    formatters applied to the value, then the value printed. *)
Definition printRemaining (E : HostLib) (h : heap) (expression : string)
    (value : val) (fs : list string) : string * heap :=
  let '(value, h2) := withFormatters E h value fs in
  match formattingValue E h2 value with
  | Throw _ => (errorMarker expression, h2)
  | Ok (Some v) =>
      (escapedText E h2 expression (FormatHelper.orElse v (VStr "")), h2)
  | Ok None =>
      (escapedText E h2 expression (FormatHelper.orElse value (VStr "")), h2)
  end.

(** The replacement of one [${...}] left after the loops. *)
Definition remainingVariableCallback (E : HostLib) (data : val) (m : rmatch)
    (h : heap) : string * heap :=
  let expression := groupOr m 1 "" in
  if includes expression "#each" || includes expression "#if"
     || includes expression "/each" || includes expression "/if"
  then (m_text m, h)
  else
    let '(varPath, fs) := splitPipe expression in
    if startsWith varPath "this." then ("", h)
    else
      match evaluate E h varPath data with
      | Throw _ => (errorMarker expression, h)
      | Ok (value, h1) => printRemaining E h1 expression value fs
      end.

Definition processRemainingVariables (E : HostLib) (xml : string) (data : val)
    (h : heap) : string * heap :=
  replaceSt variableRegex (remainingVariableCallback E data) xml h.

(** The steps of [processAdvancedTemplate] on the text of the main
    part. *)
Definition renderXml (E : HostLib) (documentXml : string) (data : val)
    (h : heap) : string * heap :=
  let documentXml := cleanWordXmlLikeLibreOffice documentXml in
  let '(processedXml, h1) := processLoops E documentXml data h in
  let '(processedXml, h2) := processAdvancedTable E processedXml data h1 in
  let '(processedXml, h3) := processTables E processedXml data h2 in
  let '(processedXml, h4) := processConditions E processedXml data h3 in
  processRemainingVariables E processedXml data h4.

Definition mainPart : string := "word/document.xml".

(** [zip.file(path, content)] *)
Definition setPart (zip : archive) (path content : string) : archive :=
  objSet zip path content.

(** [processAdvancedTemplate], and [processTemplate] which wraps its
    exception once more. The store is returned beside the outcome. *)
Definition processAdvancedTemplate (E : HostLib) (templateBuffer : string)
    (data : val) (h : heap) : result string * heap :=
  let failed msg := Throw ("Advanced template processing failed: " ++ msg) in
  match pizzipLoad E templateBuffer with
  | Throw msg => (failed msg, h)
  | Ok zip =>
      match objGet zip mainPart with
      | None => (failed "Cannot read properties of undefined (reading 'asText')", h)
      | Some documentXml =>
          let '(processedXml, h1) := renderXml E documentXml data h in
          (Ok (pizzipGenerate E (setPart zip mainPart processedXml)), h1)
      end
  end.

Definition processTemplate (E : HostLib) (templateBuffer : string) (data : val)
    (h : heap) : result string * heap :=
  match processAdvancedTemplate E templateBuffer data h with
  | (Throw msg, h1) => (Throw ("Template processing failed: " ++ msg), h1)
  | r => r
  end.

End TemplateEngine.

(** ** DocumentGenerator.js *)

Module DocumentGenerator.
Import JsString Js.
Local Open Scope js_scope.

(** The options the generator reads. A number of the options is kept as
    an integer, [None] when the option is not given. *)
Record options : Type := Options {
  batchSize : option Z;
  batchDelay : option Z;
  metadata : val;
  postProcess : bool;
  index : option nat
}.

(** [{...options, index: i}] *)
Definition withIndex (o : options) (i : nat) : options :=
  Options (batchSize o) (batchDelay o) (metadata o) (postProcess o) (Some i).

Definition showNat (n : nat) : string := JsNumber.digitsOfZ (Z.of_nat n).

Definition validSignatures : list (list nat) :=
  [[80; 75; 3; 4]; [80; 75; 5; 6]; [80; 75; 7; 8]].

Fixpoint hasSignature (sig : list nat) (buffer : string) : bool :=
  match sig, buffer with
  | [], _ => true
  | b :: sig', String c r => Nat.eqb (code c) b && hasSignature sig' r
  | _ :: _, EmptyString => false
  end.

Definition requiredFiles : list string :=
  ["word/document.xml"; "[Content_Types].xml"; "_rels/.rels"].

Definition hasFile (zip : archive) (file : string) : bool :=
  match objGet zip file with Some _ => true | None => false end.

(** The [try] block of [validateDocxBuffer]. *)
Definition checkArchive (E : HostLib) (buffer : string) : result unit :=
  zip <- pizzipLoad E buffer ;;
  let missingFiles := filter (fun file => negb (hasFile zip file)) requiredFiles in
  match missingFiles with
  | _ :: _ =>
      Throw ("Invalid DOCX structure. Missing required files: "
             ++ join ", " missingFiles)
  | [] =>
      match objGet zip "word/document.xml" with
      | Some documentXml =>
          if Nat.ltb (String.length documentXml) 100
          then Throw "Invalid or empty document.xml in DOCX file"
          else Ok tt
      | None => Throw "Invalid or empty document.xml in DOCX file"
      end
  end.

Definition validateDocxBuffer (E : HostLib) (buffer : string) : result unit :=
  if Nat.ltb (String.length buffer) 1000 then
    Throw ("DOCX file too small (" ++ showNat (String.length buffer)
           ++ " bytes). Minimum size should be ~3KB")
  else if Nat.ltb (100 * 1024 * 1024) (String.length buffer) then
    Throw ("DOCX file too large (" ++ showNat (String.length buffer)
           ++ " bytes). Maximum size is 100MB")
  else if negb (existsb (fun sig => hasSignature sig buffer) validSignatures) then
    Throw "Invalid DOCX file: Not a valid ZIP archive. Please ensure the file is a properly saved .docx file"
  else
    match checkArchive E buffer with
    | Ok u => Ok u
    | Throw msg =>
        if includes msg "Invalid DOCX structure" || includes msg "Invalid or empty"
        then Throw msg
        else Throw ("Corrupted DOCX file: " ++ msg)
    end.

Definition validateGenerationData (h : heap) (data : val) : result unit :=
  match data with
  | VRef _ =>
      match jsonStringify h data with
      | Throw msg =>
          if includes msg "circular" then Throw "Data contains circular references"
          else Throw msg
      | Ok text =>
          let dataSize :=
            match text with Some s => String.length s | None => 0 end in
          if Nat.ltb (10 * 1024 * 1024) dataSize
          then Throw "Data payload too large (exceeds 10MB)"
          else Ok tt
      end
  | _ => Throw "Data must be a valid object"
  end.

(** A text field: the replacements of the source that can apply to code
    units below 256, then [trim]. *)
Definition normalizeText (s : string) : string :=
  trim
    (replaceChar (ascii_of_nat 160) " "
       (replaceChar "'" "'"
          (replaceChar dquote (String dquote "") s))).

(** [normalizeTextFields]: the strings are normalized, the arrays and the
    objects are rebuilt. The fuel bounds the depth of the recursion; its
    end is the stack overflow of a cyclic structure. The assignment
    [normalized[key] = ...] under the key [__proto__], which [JSON.parse]
    can make, creates no property of the copy; that it makes an object
    value the prototype of the copy is outside this embedding, whose
    objects have no prototype of their own. *)
Fixpoint normalizeTextFields (fuel : nat) (obj : val) (h : heap)
  : result (val * heap) :=
  match fuel with
  | O => Throw "Maximum call stack size exceeded"
  | S fuel' =>
      match obj with
      | VStr s => Ok (VStr (normalizeText s), h)
      | VRef l =>
          match lookup l h with
          | Some (CArr items) =>
              '(vs, h1) <- mapStR (normalizeTextFields fuel') items h ;;
              Ok (alloc (CArr vs) h1)
          | Some (CObj props) =>
              '(ps, h1) <-
                mapStR (fun kv h =>
                          '(v, h1) <- normalizeTextFields fuel' (snd kv) h ;;
                          Ok ((fst kv, v), h1)) props h ;;
              Ok (alloc (CObj (filter (fun kv => negb (String.eqb (fst kv)
                                                         "__proto__")) ps))
                    h1)
          | None => Ok (obj, h)
          end
      | _ => Ok (obj, h)
      end
  end.

(** The source texts of the helper functions put in [_helpers], with
    the line feeds and the indentation they have in the file: the text
    that [String] gives for such a function. *)
Definition sourceLines (lines : list string) : string :=
  join (String (ascii_of_nat 10) "") lines.

Definition formatDateSource : string :=
  sourceLines
    ["(date, format) => {";
     "                const moment = require('moment');";
     "                return moment(date).format(format);";
     "            }"].
Definition formatCurrencySource : string :=
  sourceLines
    ["(amount, currency = 'USD') => {";
     "                return new Intl.NumberFormat('en-US', {";
     "                    style: 'currency',";
     "                    currency: currency";
     "                }).format(amount);";
     "            }"].
Definition formatNumberSource : string :=
  sourceLines
    ["(num, decimals = 2) => {";
     "                return Number(num).toFixed(decimals);";
     "            }"].

(** [obj.key = value]: a write into the store. A named property written
    on an array is not kept: [normalizeTextFields] drops it next. *)
Definition setProp (h : heap) (obj : val) (key : string) (value : val) : heap :=
  match obj with
  | VRef l =>
      match lookup l h with
      | Some (CObj props) => update l (CObj (objSet props key value)) h
      | _ => h
      end
  | _ => h
  end.

Definition preprocessData (E : HostLib) (data : val) (o : options) (h : heap)
  : result (val * heap) :=
  '(processedData, h1) <- jsonClone h data ;;
  let '(meta, h2) :=
    alloc (CObj (FormatHelper.mergeProps
                   [("generatedAt", VStr (isoNow E));
                    ("templateEngine", VStr "DOCX Template Engine v1.0")]
                   (spreadProps h1 (metadata o)))) h1 in
  let h3 := setProp h2 processedData "_meta" meta in
  let '(helpers, h4) :=
    alloc (CObj [("formatDate", VFun formatDateSource);
                 ("formatCurrency", VFun formatCurrencySource);
                 ("formatNumber", VFun formatNumberSource)]) h3 in
  let h5 := setProp h4 processedData "_helpers" helpers in
  normalizeTextFields (depthFuel h5) processedData h5.

(** The features of the post-processing are not implemented: each step
    returns the document it is given. *)
Definition postProcessDocument (documentBuffer : string) (o : options) : string :=
  documentBuffer.

(** [generateDocument]: the outcome, and the store after the call. *)
Definition generateDocument (E : HostLib) (templateBuffer : string) (data : val)
    (o : options) (h : heap) : result string * heap :=
  let failed msg := Throw ("Document generation failed: " ++ msg) in
  match validateDocxBuffer E templateBuffer with
  | Throw msg => (failed msg, h)
  | Ok _ =>
      match validateGenerationData h data with
      | Throw msg => (failed msg, h)
      | Ok _ =>
          match preprocessData E data o h with
          | Throw msg => (failed msg, h)
          | Ok (processedData, h1) =>
              match TemplateEngine.processTemplate E templateBuffer processedData h1 with
              | (Throw msg, h2) => (failed msg, h2)
              | (Ok generatedBuffer, h2) =>
                  (Ok (if postProcess o
                       then postProcessDocument generatedBuffer o
                       else generatedBuffer), h2)
              end
          end
      end
  end.

(** *** Bulk generation *)

(** One slot of the results:
    [{index, success, document, size}] or [{index, success, error}]. *)
Record item : Type := Item {
  itemIndex : nat;
  success : bool;
  document : option string;
  size : option nat;
  error : option string
}.

Section Batch.

(** [this.generateDocument] *)
Variable generate : string -> val -> options -> heap -> result string * heap.

(** The loop of [generateMultipleDocuments], from position [i]. *)
Fixpoint generateFrom (templateBuffer : string) (dataArray : list val)
    (i : nat) (o : options) (h : heap) : list item * heap :=
  match dataArray with
  | [] => ([], h)
  | data :: rest =>
      let '(r, h1) := generate templateBuffer data (withIndex o i) h in
      let slot :=
        match r with
        | Ok generatedDoc =>
            Item i true (Some generatedDoc) (Some (String.length generatedDoc)) None
        | Throw msg => Item i false None None (Some msg)
        end in
      let '(slots, h2) := generateFrom templateBuffer rest (S i) o h1 in
      (slot :: slots, h2)
  end.

Definition generateMultipleDocumentsWith (templateBuffer : string)
    (dataArray : list val) (o : options) (h : heap) : list item * heap :=
  generateFrom templateBuffer dataArray 0 o h.

(** [array.slice(a, b)] *)
Definition sliceArray (A : Type) (l : list A) (a b : Z) : list A :=
  let lo := sliceIndex (List.length l) a in
  let hi := sliceIndex (List.length l) b in
  firstn (hi - lo) (skipn lo l).

(** [options.batchSize || 10] *)
Definition effectiveBatchSize (o : options) : Z :=
  match batchSize o with
  | Some 0%Z | None => 10%Z
  | Some n => n
  end.

Definition delayOf (o : options) : option Z :=
  match batchDelay o with
  | Some 0%Z | None => None
  | Some d => Some d
  end.

(** The [for] loop of [batchGenerate] from index [i]: the results so
    far, the pauses made, the store. [None]: the fuel ran out. *)
Fixpoint batchFrom (fuel : nat) (templateBuffer : string) (dataArray : list val)
    (o : options) (i : Z) (results : list item) (sleeps : list Z) (h : heap)
  : option (list item * list Z * heap) :=
  match fuel with
  | O => None
  | S fuel' =>
      if Z.ltb i (Z.of_nat (List.length dataArray)) then
        let size := effectiveBatchSize o in
        let batch := sliceArray dataArray i (i + size) in
        let '(batchResults, h1) :=
          generateMultipleDocumentsWith templateBuffer batch o h in
        let results := (results ++ batchResults)%list in
        let sleeps :=
          match delayOf o with
          | Some d =>
              if Z.ltb (i + size) (Z.of_nat (List.length dataArray))
              then (sleeps ++ [d])%list else sleeps
          | None => sleeps
          end in
        batchFrom fuel' templateBuffer dataArray o (i + size) results sleeps h1
      else Some (results, sleeps, h)
  end.

(** [batchGenerate]: with a positive batch size the loop makes at most
    one turn per dataset and one more to stop. *)
Definition batchGenerateWith (templateBuffer : string) (dataArray : list val)
    (o : options) (h : heap) : option (list item * list Z * heap) :=
  batchFrom (S (List.length dataArray)) templateBuffer dataArray o 0 [] [] h.

(** The results slot by slot: dataset [k] of the input is generated once,
    in the order of the input and on the store left by the datasets
    before it, and its slot carries the index [idx k]. *)
Fixpoint slotsFrom (idx : nat -> nat) (templateBuffer : string)
    (dataArray : list val) (k : nat) (o : options) (h : heap)
  : list item * heap :=
  match dataArray with
  | [] => ([], h)
  | data :: rest =>
      let '(r, h1) := generate templateBuffer data (withIndex o (idx k)) h in
      let slot :=
        match r with
        | Ok generatedDoc =>
            Item (idx k) true (Some generatedDoc)
              (Some (String.length generatedDoc)) None
        | Throw msg => Item (idx k) false None None (Some msg)
        end in
      let '(slots, h2) := slotsFrom idx templateBuffer rest (S k) o h1 in
      (slot :: slots, h2)
  end.

End Batch.

Definition generateMultipleDocuments (E : HostLib) :=
  generateMultipleDocumentsWith (generateDocument E).

Definition batchGenerate (E : HostLib) := batchGenerateWith (generateDocument E).

End DocumentGenerator.

(** ** Inputs for the examples *)

Module Scenario.
Import JsString Js.

Definition objectPrototype : list string :=
  ["constructor"; "hasOwnProperty"; "isPrototypeOf"; "propertyIsEnumerable";
   "toLocaleString"; "toString"; "valueOf"].

Definition nativeFunction (name : string) : val :=
  VFun ("function " ++ name ++ "() { [native code] }").

(** A host with nothing but the methods of [Object.prototype]: its
    [Function] constructor rejects every text, and it has no [Intl], no
    moment and no archive library. It stands for the runtime on the
    inputs whose text is not JavaScript, such as [return (();]. The data
    it is given holds no function, so the call of one is an error. *)
Definition bareHost : HostLib := {|
  newFunction := fun _ _ => None;
  inherited := fun _ key =>
    if existsb (String.eqb key) objectPrototype then nativeFunction key
    else VUndef;
  intlCurrency := fun _ _ _ => Throw "Intl is not defined";
  momentFormat := fun _ _ _ => None;
  momentFromNow := fun _ _ => None;
  mathPow := fun _ _ => JsNumber.nan;
  isoNow := "1970-01-01T00:00:00.000Z";
  pizzipLoad := fun _ => Throw "Can't find end of central directory";
  pizzipGenerate := fun _ => "";
  callFunction := fun _ _ _ => Throw "not a function"
|}.

(** The data [{n: 0, flag: false, title: "a<b", items: ["a", "b"]}] laid
    out in an empty store. *)
Definition sampleTree : tree :=
  TObj [("n", TNum (JsNumber.ofZ 0)); ("flag", TBool false);
        ("title", TStr "a<b"); ("items", TArr [TStr "a"; TStr "b"])].

Definition sampleData : val := fst (allocTree sampleTree []).
Definition sampleStore : heap := snd (allocTree sampleTree []).

Definition lineFeed : string := String (ascii_of_nat 10) "".

Definition carriageReturn : string := String (ascii_of_nat 13) "".

(** [n] seams of runs nested in one another: each merge pass removes the
    innermost one and uncovers the next. *)
Fixpoint nestedSeams (n : nat) : string :=
  match n with
  | O => ""
  | S k =>
      "</w:t></w:r><w:r" ++ nestedSeams k ++ "><w:t xml:space="
      ++ String dquote "preserve" ++ String dquote ">"
  end.

(** A table of two rows: a blank text, then the text [x]. *)
Definition twoRows : string :=
  "<w:tbl><w:tr><w:tc><w:p><w:r><w:t> </w:t></w:r></w:p></w:tc></w:tr><w:tr><w:tc><w:p><w:r><w:t>x</w:t></w:r></w:p></w:tc></w:tr></w:tbl>".

(** A host with an archive library: a buffer is read as the main part
    of an archive of three parts, and an archive is written as the
    texts of its parts end to end. *)
Definition archiveHost : HostLib := {|
  newFunction := newFunction bareHost;
  inherited := inherited bareHost;
  intlCurrency := intlCurrency bareHost;
  momentFormat := momentFormat bareHost;
  momentFromNow := momentFromNow bareHost;
  mathPow := mathPow bareHost;
  isoNow := isoNow bareHost;
  pizzipLoad := fun buffer =>
    Ok [("[Content_Types].xml", "<Types/>"); ("word/document.xml", buffer);
        ("_rels/.rels", "<Relationships/>")];
  pizzipGenerate := fun zip => join "" (map snd zip);
  callFunction := callFunction bareHost
|}.

(** The context of an iteration whose item is the number zero. *)
Definition zeroItemStore : heap := [CObj [("this", VNum JsNumber.zero)]].

(** [Math.pow] on whole numbers with an exponent that is not negative;
    the host below leaves the other powers out. *)
Definition wholePow (base exponent : num) : num :=
  match JsNumber.truncate base, JsNumber.truncate exponent with
  | Some b, Some e =>
      if JsNumber.eqb (JsNumber.ofZ b) base && JsNumber.eqb (JsNumber.ofZ e) exponent
         && Z.leb 0 e
      then JsNumber.ofZ (Z.pow b e)
      else JsNumber.nan
  | _, _ => JsNumber.nan
  end.

(** The bare host with the powers of whole numbers. *)
Definition arithmeticHost : HostLib := {|
  newFunction := newFunction bareHost;
  inherited := inherited bareHost;
  intlCurrency := intlCurrency bareHost;
  momentFormat := momentFormat bareHost;
  momentFromNow := momentFromNow bareHost;
  mathPow := wholePow;
  isoNow := isoNow bareHost;
  pizzipLoad := pizzipLoad bareHost;
  pizzipGenerate := pizzipGenerate bareHost;
  callFunction := callFunction bareHost
|}.

(** The data [{people: [{name: "Ann"}, {name: "B&B"}]}]. *)
Definition peopleTree : tree :=
  TObj [("people", TArr [TObj [("name", TStr "Ann")];
                         TObj [("name", TStr "B&B")]])].

Definition peopleData : val := fst (allocTree peopleTree []).
Definition peopleStore : heap := snd (allocTree peopleTree []).

(** The value [{toString: 1}], as [JSON.parse] gives it: its own
    [toString] is no function, and the [valueOf] it inherits returns the
    object, so it has no primitive value. *)
Definition uncoercibleStore : heap :=
  [CObj [("toString", VNum (JsNumber.ofZ 1))]].
Definition uncoercible : val := VRef 0.

(** The context of an iteration whose item is that value. *)
Definition uncoercibleItemStore : heap :=
  (uncoercibleStore ++ [CObj [("this", uncoercible)]])%list.
Definition uncoercibleContext : val := VRef 1.

End Scenario.

(* ===================================================================== *)
(** * Part II: properties                                                 *)
(* ===================================================================== *)

Unset Implicit Arguments.

(** ** Bulk generation *)

Module BatchFacts.
Import Js DocumentGenerator.
Local Open Scope list_scope.

Section Batch.
Variable generate : string -> val -> options -> heap -> result string * heap.
Variable templateBuffer : string.

Lemma generateFrom_slotsFrom (idx : nat -> nat) (o : options) :
  forall dataArray i k h,
    (forall j, j < List.length dataArray -> idx (k + j) = i + j) ->
    generateFrom generate templateBuffer dataArray i o h
    = slotsFrom generate idx templateBuffer dataArray k o h.
Proof.
  induction dataArray as [|data rest IH]; intros i k h Hidx; simpl; [reflexivity|].
  assert (H0 : idx k = i).
  { specialize (Hidx 0). rewrite !Nat.add_0_r in Hidx. apply Hidx. simpl. lia. }
  rewrite H0.
  destruct (generate templateBuffer data (withIndex o i) h) as [r h1].
  rewrite (IH (S i) (S k) h1).
  - reflexivity.
  - intros j Hj. specialize (Hidx (S j)).
    replace (S k + j) with (k + S j) by lia.
    replace (S i + j) with (i + S j) by lia.
    apply Hidx. simpl. lia.
Qed.

Lemma slotsFrom_app (idx : nat -> nat) (o : options) :
  forall l1 l2 k h,
    slotsFrom generate idx templateBuffer (l1 ++ l2) k o h
    = let '(s1, h1) := slotsFrom generate idx templateBuffer l1 k o h in
      let '(s2, h2) :=
        slotsFrom generate idx templateBuffer l2 (k + List.length l1) o h1 in
      (s1 ++ s2, h2).
Proof.
  induction l1 as [|data rest IH]; intros l2 k h; simpl.
  - rewrite Nat.add_0_r.
    destruct (slotsFrom generate idx templateBuffer l2 k o h); reflexivity.
  - destruct (generate templateBuffer data (withIndex o (idx k)) h) as [r h1].
    rewrite IH.
    destruct (slotsFrom generate idx templateBuffer rest (S k) o h1) as [s1 h2].
    replace (k + S (List.length rest)) with (S k + List.length rest) by lia.
    destruct (slotsFrom generate idx templateBuffer l2 (S k + List.length rest) o h2).
    reflexivity.
Qed.

Lemma slotsFrom_length (idx : nat -> nat) (o : options) :
  forall l k h,
    List.length (fst (slotsFrom generate idx templateBuffer l k o h)) = List.length l.
Proof.
  induction l as [|data rest IH]; intros k h; simpl; [reflexivity|].
  destruct (generate templateBuffer data (withIndex o (idx k)) h) as [r h1].
  specialize (IH (S k) h1).
  destruct (slotsFrom generate idx templateBuffer rest (S k) o h1). simpl in *. lia.
Qed.

Lemma sliceArray_chunk (A : Type) (l : list A) (i size : nat) :
  i <= List.length l ->
  sliceArray l (Z.of_nat i) (Z.of_nat i + Z.of_nat size)
  = firstn size (skipn i l).
Proof.
  intros Hi. unfold sliceArray, JsString.sliceIndex.
  destruct (Z.ltb_spec (Z.of_nat i) 0); [lia|].
  destruct (Z.ltb_spec (Z.of_nat i + Z.of_nat size) 0); [lia|].
  rewrite Nat2Z.id.
  replace (Z.to_nat (Z.of_nat i + Z.of_nat size)) with (i + size) by lia.
  rewrite (Nat.min_l i) by lia.
  destruct (Nat.le_ge_cases (i + size) (List.length l)).
  - rewrite Nat.min_l by lia. f_equal. lia.
  - rewrite Nat.min_r by lia.
    rewrite (firstn_all2 (n := size)) by (rewrite length_skipn; lia).
    apply firstn_all2. rewrite length_skipn. lia.
Qed.

(** The loop of [batchGenerate], one batch after the other. *)
Lemma batchFrom_slots (o : options) (size : nat) (dataArray : list val) :
  0 < size ->
  effectiveBatchSize o = Z.of_nat size ->
  forall fuel i results sleeps h,
    i <= List.length dataArray ->
    List.length dataArray - i < fuel ->
    Nat.modulo i size = 0 ->
    exists sleeps',
      batchFrom generate fuel templateBuffer dataArray o (Z.of_nat i) results sleeps h
      = let '(slots, h') :=
          slotsFrom generate (fun k => Nat.modulo k size) templateBuffer
            (skipn i dataArray) i o h in
        Some (results ++ slots, sleeps', h').
Proof.
  intros Hsize Heff.
  induction fuel as [|fuel IH]; intros i results sleeps h Hi Hfuel Hmod; [lia|].
  simpl. rewrite Heff.
  destruct (Z.ltb_spec (Z.of_nat i) (Z.of_nat (List.length dataArray))) as [Hlt|Hge].
  - rewrite sliceArray_chunk by lia.
    unfold generateMultipleDocumentsWith.
    rewrite (generateFrom_slotsFrom (fun k => Nat.modulo k size) o
               (firstn size (skipn i dataArray)) 0 i h).
    2:{ intros j Hj. rewrite length_firstn in Hj.
        rewrite Nat.Div0.add_mod by lia. rewrite Hmod. simpl.
        rewrite Nat.Div0.mod_mod by lia. apply Nat.mod_small. lia. }
    assert (Hsplit := firstn_skipn size (skipn i dataArray)).
    set (chunk := firstn size (skipn i dataArray)) in *.
    rewrite <- Hsplit. subst chunk.
    rewrite slotsFrom_app.
    destruct (slotsFrom generate (fun k => Nat.modulo k size) templateBuffer
                (firstn size (skipn i dataArray)) i o h) as [s1 h1] eqn:E1.
    destruct (Nat.le_ge_cases (i + size) (List.length dataArray)) as [Hfit|Hover].
    + replace (Z.of_nat i + Z.of_nat size)%Z with (Z.of_nat (i + size)) by lia.
      match goal with
      | |- context [batchFrom _ _ _ _ _ _ _ ?sl _] =>
          destruct (IH (i + size) (results ++ s1) sl h1) as [sleeps' Hrec]
      end; try lia.
      { rewrite Nat.Div0.add_mod by lia. rewrite Hmod, Nat.Div0.mod_same by lia.
        simpl. apply Nat.Div0.mod_0_l. }
      exists sleeps'. rewrite Hrec.
      rewrite skipn_skipn. rewrite (Nat.add_comm size i).
      rewrite length_firstn, length_skipn. rewrite Nat.min_l by lia.
      destruct (slotsFrom generate (fun k => Nat.modulo k size) templateBuffer
                  (skipn (i + size) dataArray) (i + size) o h1) as [s2 h2].
      rewrite app_assoc. reflexivity.
    + rewrite skipn_skipn.
      rewrite (skipn_all2 (n := size + i)) by lia. simpl.
      destruct fuel as [|fuel']; [lia|]. simpl.
      destruct (Z.ltb_spec (Z.of_nat i + Z.of_nat size) (Z.of_nat (List.length dataArray)));
        [lia|].
      eexists. rewrite app_nil_r. reflexivity.
  - assert (i = List.length dataArray) by lia. subst i.
    rewrite skipn_all. simpl. exists sleeps. rewrite app_nil_r. reflexivity.
Qed.

End Batch.
End BatchFacts.

Module BatchClaims.
Import Js DocumentGenerator.
Local Open Scope list_scope.

(** With a positive batch size, [batchGenerate] returns one slot per
    dataset, in the order of the input, each generated on its own; the
    index of slot [k] is [k mod size], its position inside its batch. *)
Lemma batchGenerate_slots
    (generate : string -> val -> options -> heap -> result string * heap)
    (templateBuffer : string) (dataArray : list val) (o : options)
    (size : nat) (h : heap) :
  0 < size ->
  effectiveBatchSize o = Z.of_nat size ->
  option_map (fun r => (fst (fst r), snd r))
    (batchGenerateWith generate templateBuffer dataArray o h)
  = Some (slotsFrom generate (fun k => Nat.modulo k size) templateBuffer
            dataArray 0 o h).
Proof.
  intros Hsize Heff. unfold batchGenerateWith.
  destruct (BatchFacts.batchFrom_slots generate templateBuffer o size dataArray
              Hsize Heff (S (List.length dataArray)) 0 [] [] h)
    as [sleeps' Hrun]; try lia.
  { apply Nat.Div0.mod_0_l. }
  simpl Z.of_nat in Hrun. rewrite Hrun. simpl skipn.
  destruct (slotsFrom generate (fun k => Nat.modulo k size) templateBuffer
              dataArray 0 o h) as [slots h'].
  reflexivity.
Qed.

(** [generateMultipleDocuments] on its own numbers the slots by their
    position in its input. *)
Lemma generateMultipleDocuments_index
    (generate : string -> val -> options -> heap -> result string * heap)
    (templateBuffer : string) (o : options) :
  forall dataArray i h,
    map itemIndex (fst (generateFrom generate templateBuffer dataArray i o h))
    = seq i (List.length dataArray).
Proof.
  induction dataArray as [|data rest IH]; intros i h; simpl; [reflexivity|].
  destruct (generate templateBuffer data (withIndex o i) h) as [r h1].
  specialize (IH (S i) h1).
  destruct (generateFrom generate templateBuffer rest (S i) o h1) as [slots h2].
  simpl in *. rewrite IH. destruct r; reflexivity.
Qed.

(** C2, at three datasets and a batch size of two: whatever the
    generator does, the indices of the results are 0, 1, 0; the third
    dataset, at position 2 of the input, is reported with index 0. *)
Theorem batchGenerate_index_restarts
    (generate : string -> val -> options -> heap -> result string * heap)
    (templateBuffer : string) (d1 d2 d3 : val) (h : heap) :
  option_map (fun r => map itemIndex (fst (fst r)))
    (batchGenerateWith generate templateBuffer [d1; d2; d3]
       (Options (Some 2%Z) None VUndef false None) h)
  = Some [0; 1; 0].
Proof.
  pose proof (batchGenerate_slots generate templateBuffer [d1; d2; d3]
                (Options (Some 2%Z) None VUndef false None) 2 h
                ltac:(lia) eq_refl) as Hslots.
  destruct (batchGenerateWith generate templateBuffer [d1; d2; d3] _ h)
    as [[[results sleeps] h']|]; simpl in Hslots; [|discriminate].
  injection Hslots as Hslots. simpl. f_equal.
  cbn -[withIndex] in Hslots.
  repeat match type of Hslots with
         | context [generate ?a ?b ?c ?d] =>
             let r := fresh "r" in
             let h0 := fresh "h" in
             destruct (generate a b c d) as [r h0]; cbn -[withIndex] in Hslots
         end.
  injection Hslots as Hres _. subst results.
  repeat match goal with
         | r : result string |- _ => destruct r
         end; reflexivity.
Qed.

End BatchClaims.

(** ** The markup normalizer *)

Module NormalizerClaims.
Import JsString Regex Js TemplateEngine Scenario.

(** The merge loop stops, after 21 passes at most. *)
Lemma mergeRuns_stops :
  forall fuel iterations xml,
    21 <= iterations + fuel -> 0 < fuel ->
    exists merged passes,
      mergeRuns fuel iterations xml = Some (merged, passes)
      /\ passes <= Nat.max 21 (S iterations).
Proof.
  induction fuel as [|fuel IH]; intros iterations xml Hsum Hfuel; [lia|].
  cbn [mergeRuns].
  destruct (Nat.ltb_spec 20 (S iterations)) as [Hcap|Hcap].
  - eexists _, _. split; [reflexivity|]. lia.
  - destruct (Nat.ltb (String.length (mergePass xml)) (String.length xml)).
    + destruct (IH (S iterations) (mergePass xml)) as (merged & passes & Hrun & Hle);
        try lia.
      exists merged, passes. split; [exact Hrun|]. lia.
    + eexists _, _. split; [reflexivity|]. lia.
Qed.

Lemma cleanWordXml_stops (xml : string) :
  exists cleaned passes,
    cleanWordXmlPasses 21 xml = Some (cleaned, passes) /\ passes <= 21.
Proof.
  unfold cleanWordXmlPasses.
  destruct (mergeRuns_stops 21 0
              (replaceStr proofErrRegex "" (stripAttributes xml)))
    as (merged & passes & Hrun & Hle); try lia.
  rewrite Hrun. eexists _, _. split; [reflexivity|]. simpl in Hle. lia.
Qed.

(** One pass removes the innermost of the nested seams. *)
Example mergePass_peels_one_seam : mergePass (nestedSeams 3) = nestedSeams 2.
Proof. vm_compute. reflexivity. Qed.

(** C9, at 22 nested seams: the merge loop makes 21 passes, each of which
    merges one seam, and is left by its cap with one seam still there.
    At twenty nested seams it makes 21 passes as well, twenty that merge
    and one that finds nothing left. *)
Theorem cleanWordXml_makes_21_passes :
  cleanWordXmlPasses 21 (nestedSeams 22) = Some (nestedSeams 1, 21)
  /\ option_map snd (cleanWordXmlPasses 21 (nestedSeams 20)) = Some 21.
Proof. vm_compute. split; reflexivity. Qed.

End NormalizerClaims.

(** ** The numeric formatters *)

Module FormatterClaims.
Import JsString Js FormatHelper Scenario.

Lemma numberOrZero_falsy (E : HostLib) (h : heap) (value : val) (n : num) :
  toNumber E h value = Ok n -> JsNumber.truthy n = false ->
  numberOrZero E h value = Ok JsNumber.zero.
Proof. intros Hn H. unfold numberOrZero. rewrite Hn. cbn. rewrite H. reflexivity. Qed.

Lemma numberOrZero_zero (E : HostLib) (h : heap) :
  numberOrZero E h (VNum JsNumber.zero) = Ok JsNumber.zero.
Proof. reflexivity. Qed.

(** C10: a value whose conversion to a number returns [NaN] or zero is
    formatted as the number 0 is. [percent] gives "0.00%"; without
    argument [number] gives "0.00", [round] gives 0 and [currency] gives
    what the host prints for 0 US dollars in the locale en-US, on a host
    whose [Object.prototype] has no property [decimals], [currency] or
    [locale] and whose [Math.pow(10, 0)] is 1; with arguments each of
    the three returns what it returns for 0 with the same arguments. *)
Theorem numeric_formatters_take_zero
    (E : HostLib) (h : heap) (value : val) (n : num) :
  toNumber E h value = Ok n ->
  JsNumber.truthy n = false ->
  (forall args, percent E h value args = Ok (VStr "0.00%", h))
  /\ (inherited E KObject "decimals" = VUndef ->
      number E h value [] = Ok (VStr "0.00", h))
  /\ (mathPow E (JsNumber.ofZ 10) JsNumber.zero = JsNumber.ofZ 1 ->
      round E h value [] = Ok (VNum JsNumber.zero, h))
  /\ (inherited E KObject "currency" = VUndef ->
      inherited E KObject "locale" = VUndef ->
      currency E h value []
      = match intlCurrency E (VStr "en-US") (VStr "USD") JsNumber.zero with
        | Ok text => Ok (VStr text, h)
        | Throw msg => Throw msg
        end)
  /\ (forall args,
        currency E h value args = currency E h (VNum JsNumber.zero) args
        /\ number E h value args = number E h (VNum JsNumber.zero) args
        /\ round E h value args = round E h (VNum JsNumber.zero) args).
Proof.
  intros Hn Hfalsy.
  pose proof (numberOrZero_falsy E h value n Hn Hfalsy) as Hzero.
  repeat split.
  - intros args. unfold percent, pure. rewrite Hzero. reflexivity.
  - intros Hdecimals. unfold number, pure, optionOf. rewrite Hzero.
    cbn. rewrite Hdecimals. reflexivity.
  - intros Hpow. unfold round, pure. rewrite Hzero. cbn [bind argOr arg nth].
    change (toNumber E h (VNum JsNumber.zero)) with (Ok JsNumber.zero).
    cbn [bind]. rewrite Hpow. reflexivity.
  - intros Hcurrency Hlocale. unfold currency, pure, optionOf. rewrite Hzero.
    cbn. rewrite Hcurrency, Hlocale. cbn.
    destruct (intlCurrency E (VStr "en-US") (VStr "USD") JsNumber.zero);
      reflexivity.
  - unfold currency, pure. rewrite Hzero, numberOrZero_zero. reflexivity.
  - unfold number, pure. rewrite Hzero, numberOrZero_zero. reflexivity.
  - unfold round, pure. rewrite Hzero, numberOrZero_zero. reflexivity.
Qed.

(** The text "abc" is no number: [percent], [number] and [round] give
    "0.00%", "0.00" and 0. *)
Lemma numeric_formatters_take_zero_witness :
  percent arithmeticHost sampleStore (VStr "abc") [] = Ok (VStr "0.00%", sampleStore)
  /\ number arithmeticHost sampleStore (VStr "abc") [] = Ok (VStr "0.00", sampleStore)
  /\ round arithmeticHost sampleStore (VStr "abc") []
     = Ok (VNum JsNumber.zero, sampleStore).
Proof.
  destruct (numeric_formatters_take_zero arithmeticHost sampleStore (VStr "abc")
              JsNumber.nan eq_refl eq_refl)
    as (Hpercent & Hnumber & Hround & _).
  split; [exact (Hpercent [])|].
  split; [exact (Hnumber eq_refl)|exact (Hround eq_refl)].
Defined.

(** C10, the counterexample: the conversion of [{toString: 1}] to a
    number throws; so does [percent], and [applyFormatters] passes the
    value through as it is. *)
Lemma uncoercible_value_is_passed_through :
  toNumber bareHost uncoercibleStore uncoercible = Throw conversionError
  /\ percent bareHost uncoercibleStore uncoercible [] = Throw conversionError
  /\ number bareHost uncoercibleStore uncoercible [] = Throw conversionError
  /\ applyFormatters bareHost uncoercibleStore uncoercible ["percent"]
     = (uncoercible, uncoercibleStore).
Proof. vm_compute. repeat split; reflexivity. Qed.

Example number_of_zero :
  number bareHost sampleStore (VNum JsNumber.zero) [] = Ok (VStr "0.00", sampleStore).
Proof. vm_compute. reflexivity. Qed.

End FormatterClaims.

(** ** Exceptions inside the evaluator *)

Module ErrorFacts.
Import JsString Regex Js Scenario.
Local Open Scope list_scope.

Lemma runHost_hostBind (E : HostLib) (A B : Type) (c : Host A) (f : A -> Host B) :
  runHost E (hostBind c f) = runHost E (f (runHost E c)).
Proof.
  induction c as [a|ps body k IH]; simpl; [reflexivity|]. apply IH.
Qed.

Lemma hostCalls_hostBind (E : HostLib) (A B : Type) (c : Host A) (f : A -> Host B) :
  hostCalls E (hostBind c f) = hostCalls E c ++ hostCalls E (f (runHost E c)).
Proof.
  induction c as [a|ps body k IH]; simpl; [reflexivity|]. rewrite IH. reflexivity.
Qed.

Lemma runHost_catchWith (E : HostLib) (A : Type) (dflt : A) (c : Host (result A)) :
  runHost E (ExpressionEvaluator.catchWith dflt c)
  = match runHost E c with Ok x => Ok x | Throw _ => Ok dflt end.
Proof. unfold ExpressionEvaluator.catchWith. rewrite runHost_hostBind. reflexivity. Qed.

Lemma hostThrows_catchWith (E : HostLib) (A : Type) (dflt : A) (c : Host (result A)) :
  ExpressionEvaluator.hostThrows E (ExpressionEvaluator.catchWith dflt c) -> ExpressionEvaluator.hostThrows E c.
Proof.
  unfold ExpressionEvaluator.hostThrows, ExpressionEvaluator.catchWith. rewrite hostCalls_hostBind.
  simpl. rewrite app_nil_r. exact (fun H => H).
Qed.

(** The evaluation of a text whose call of the host throws: [null], or an
    earlier exception. *)
Lemma evaluateComplexExpression_throws (E : HostLib) (h : heap)
    (expression : string) (data : val) :
  ExpressionEvaluator.hostThrows E (ExpressionEvaluator.evaluateComplexExpression E h expression data) ->
  runHost E (ExpressionEvaluator.evaluateComplexExpression E h expression data)
  = Ok (VNull, h)
  \/ exists msg,
       runHost E (ExpressionEvaluator.evaluateComplexExpression E h expression data)
       = Throw msg.
Proof.
  unfold ExpressionEvaluator.hostThrows, ExpressionEvaluator.evaluateComplexExpression.
  destruct (ExpressionEvaluator.substituteVariables E h data _ expression)
    as [processed|msg]; [|intros _; right; exists msg; reflexivity].
  unfold ExpressionEvaluator.safeEvaluate. simpl. intros H.
  apply Forall_inv in H. rewrite H. left. reflexivity.
Qed.

Lemma objectKeys_ok (h : heap) (data : val) :
  ExpressionEvaluator.isNullish data = false -> exists keys, objectKeys h data = Ok keys.
Proof.
  destruct data as [| |b|n|s|l|f]; simpl; try discriminate; intros _;
    try (eexists; reflexivity).
  destruct (lookup l h) as [[ps|vs]|]; eexists; reflexivity.
Qed.

(** An expression that is no plain path and whose call of the host
    throws evaluates to [null]. *)
Lemma evaluate_null (E : HostLib) (h : heap) (expression : string) (data : val) :
  ExpressionEvaluator.isNullish data = false ->
  test ExpressionEvaluator.simplePathRegex (trim expression) = false ->
  ExpressionEvaluator.hostThrows E (ExpressionEvaluator.evaluate E h expression data) ->
  TemplateEngine.evaluate E h expression data = Ok (VNull, h).
Proof.
  intros Hdata Hpath. unfold TemplateEngine.evaluate, ExpressionEvaluator.evaluate.
  destruct (String.eqb expression ""); [reflexivity|].
  destruct (objectKeys_ok h data Hdata) as [keys ->]. rewrite Hpath.
  intros H. apply hostThrows_catchWith in H. rewrite runHost_catchWith.
  destruct (evaluateComplexExpression_throws E h expression data H) as [->|[msg ->]];
    reflexivity.
Qed.


(** An interpolation whose expression is no plain path and makes the
    host throw prints the value [null]. *)
Lemma remainingVariableCallback_null (E : HostLib) (data : val) (h : heap)
    (m : rmatch) (varPath : string) (fs : list string) :
  ExpressionEvaluator.isNullish data = false ->
  TemplateEngine.namesDirective (groupOr m 1 "") = false ->
  TemplateEngine.splitPipe (groupOr m 1 "") = (varPath, fs) ->
  startsWith varPath "this." = false ->
  test ExpressionEvaluator.simplePathRegex (trim varPath) = false ->
  ExpressionEvaluator.hostThrows E (ExpressionEvaluator.evaluate E h varPath data) ->
  TemplateEngine.remainingVariableCallback E data m h
  = TemplateEngine.printRemaining E h (groupOr m 1 "") VNull fs.
Proof.
  intros Hdata Hdir Hsplit Hthis Hpath Hthrows.
  unfold TemplateEngine.remainingVariableCallback.
  unfold TemplateEngine.namesDirective in Hdir.
  rewrite Hdir, Hsplit, Hthis.
  rewrite (evaluate_null E h varPath data Hdata Hpath Hthrows).
  reflexivity.
Qed.

(** The value [null] is printed as the empty text, and as [NULL] after
    the formatter [upper]. *)
Lemma printRemaining_null (E : HostLib) (h : heap) (expression : string) :
  TemplateEngine.printRemaining E h expression VNull [] = ("", h).
Proof. reflexivity. Qed.


End ErrorFacts.

(** ** The expression evaluator and the host *)

Module EvaluatorClaims.
Import JsString Regex Js ExpressionEvaluator Scenario ErrorFacts.

Lemma invokesHost_catchWith_Ret (A : Type) (dflt : A) (r : result A) :
  invokesHost (catchWith dflt (Ret r)) = false.
Proof. reflexivity. Qed.

(** The directive [${ ({}).toString() }] of the specification: the
    pattern of a directive ends at the first closing brace, so the
    expression is [ ({]; it is no path, and its text goes to the
    [Function] constructor. That text does not compile, the result is
    [null], and the directive is replaced by nothing: no error marker. *)
Lemma host_escape_reaches_the_host :
  invokesHost (evaluate bareHost sampleStore " ({" sampleData) = true
  /\ hostCalls bareHost (evaluate bareHost sampleStore " ({" sampleData)
     = ["return ( ({);"]
  /\ fst (TemplateEngine.processRemainingVariables bareHost
            "${ ({}).toString() }" sampleData sampleStore)
     = ").toString() }".
Proof. vm_compute. repeat split; reflexivity. Qed.

(** An arithmetic text is evaluated by the host as well. *)
Example arithmetic_reaches_the_host :
  hostCalls bareHost (evaluate bareHost sampleStore "1+1" sampleData)
  = ["return (1+1);"].
Proof. vm_compute. reflexivity. Qed.

(** C1, as the code has it, on data that is neither [null] nor
    [undefined]. A plain path is resolved in the data, without the
    host. Any other expression has its variables replaced by their
    serialized values: when a serialization throws the result is [null]
    and the host is not called; otherwise the text is handed to the
    [Function] constructor of the host, in one call after which the host
    is not called again, and when the host throws the result is [null].
    An interpolation without formatter whose expression makes the host
    throw is replaced by the empty text. *)
Theorem evaluate_host_use
    (E : HostLib) (h : heap) (expression : string) (data : val) :
  expression <> "" ->
  isNullish data = false ->
  (if test simplePathRegex (trim expression)
   then
     evaluate E h expression data
     = Ret (Ok (match getNestedValue E h data (trim expression) with
                | Ok value => (value, h)
                | Throw _ => (VNull, h)
                end))
   else
     match substituteVariables E h data
             (sortByLength (matchAll variablePattern expression)) expression with
     | Ok processed =>
         exists k,
           evaluate E h expression data
           = NewFunction allowedGlobals ("return (" ++ processed ++ ");") k
           /\ (forall r, exists x, k r = Ret x)
           /\ k None = Ret (Ok (VNull, h))
     | Throw _ => evaluate E h expression data = Ret (Ok (VNull, h))
     end)
  /\ (forall m : rmatch,
        TemplateEngine.namesDirective (groupOr m 1 "") = false ->
        TemplateEngine.splitPipe (groupOr m 1 "") = (expression, []) ->
        test simplePathRegex (trim expression) = false ->
        hostThrows E (evaluate E h expression data) ->
        TemplateEngine.remainingVariableCallback E data m h = ("", h)).
Proof.
  intros Hne Hdata. split.
  - unfold evaluate.
    destruct (String.eqb_spec expression "") as [Heq|_]; [contradiction|].
    destruct (objectKeys_ok h data Hdata) as [keys ->].
    destruct (test simplePathRegex (trim expression)).
    + destruct (getNestedValue E h data (trim expression)); reflexivity.
    + unfold evaluateComplexExpression.
      destruct (substituteVariables E h data
                  (sortByLength (matchAll variablePattern expression)) expression)
        as [processed|msg].
      * eexists. split; [reflexivity|]. split; [|reflexivity].
        intros r. eexists. reflexivity.
      * reflexivity.
  - intros m Hdir Hsplit Hpath Hthrows.
    destruct (startsWith expression "this.") eqn:Hthis.
    + unfold TemplateEngine.remainingVariableCallback.
      unfold TemplateEngine.namesDirective in Hdir.
      rewrite Hdir, Hsplit, Hthis. reflexivity.
    + rewrite (remainingVariableCallback_null E data h m expression []
                 Hdata Hdir Hsplit Hthis Hpath Hthrows).
      apply printRemaining_null.
Qed.

(** The expression [n + 1] on the data [{n: 0, ...}]: the host is asked
    for [0 + 1], once; the interpolation [${n + 1}] leaves nothing on a
    host that throws. *)
Lemma evaluate_host_use_witness :
  (exists k,
     evaluate bareHost sampleStore "n + 1" sampleData
     = NewFunction allowedGlobals "return (0 + 1);" k
     /\ (forall r, exists x, k r = Ret x)
     /\ k None = Ret (Ok (VNull, sampleStore)))
  /\ TemplateEngine.remainingVariableCallback bareHost sampleData
       (RMatch 0 "${n + 1}" [(1, "n + 1")]) sampleStore
     = ("", sampleStore).
Proof.
  destruct (evaluate_host_use bareHost sampleStore "n + 1" sampleData
              ltac:(discriminate) eq_refl) as [Hcall Hprint].
  split; [exact Hcall|].
  apply Hprint; [reflexivity|reflexivity|reflexivity|].
  vm_compute. repeat constructor.
Defined.

(** A plain path is looked up in the data. *)
Example plain_path_is_resolved_in_the_data :
  evaluate bareHost sampleStore "title" sampleData
  = Ret (Ok (VStr "a<b", sampleStore)).
Proof. vm_compute. reflexivity. Qed.

End EvaluatorClaims.

(** ** Interpolation *)

Module InterpolationClaims.
Import JsString Regex Js TemplateEngine Scenario.

(** C4, at the data [{n: 0, flag: false, ...}]: outside a loop the
    interpolations of [n] and of [flag] give the empty text, where the
    claim gives "0" and "false"; inside a loop the same values are
    printed. *)
Theorem zero_and_false_render_empty :
  fst (processRemainingVariables bareHost "[${n}][${flag}][${title}]"
         sampleData sampleStore)
  = "[][][a&lt;b]"
  /\ fst (processVariablesInLoop bareHost "[${n}][${flag}][${title}]"
            sampleData sampleStore)
     = "[0][false][a&lt;b]".
Proof. vm_compute. split; reflexivity. Qed.

End InterpolationClaims.

(** ** The store: what a render may change *)

Module StoreFacts.
Import JsString Regex Js.
Local Open Scope list_scope.

Lemma extends_refl (h : heap) : extends h h.
Proof. exists []. symmetry. apply app_nil_r. Qed.

Lemma extends_trans (h1 h2 h3 : heap) :
  extends h1 h2 -> extends h2 h3 -> extends h1 h3.
Proof.
  intros [e1 ->] [e2 ->]. exists (e1 ++ e2). symmetry. apply app_assoc.
Qed.

Lemma extends_length (h h' : heap) : extends h h' -> List.length h <= List.length h'.
Proof. intros [e ->]. rewrite length_app. lia. Qed.

Lemma extends_lookup (h h' : heap) (l : nat) (c : cell) :
  extends h h' -> lookup l h = Some c -> lookup l h' = Some c.
Proof.
  intros [e ->] Hl. unfold lookup in *. rewrite nth_error_app1; [exact Hl|].
  apply nth_error_Some. congruence.
Qed.

Lemma alloc_extends (c : cell) (h : heap) : extends h (snd (alloc c h)).
Proof. exists [c]. reflexivity. Qed.

Lemma alloc_fresh (c : cell) (h : heap) : fst (alloc c h) = VRef (List.length h).
Proof. reflexivity. Qed.

Create HintDb store.
#[global] Hint Resolve extends_refl alloc_extends : store.

(** A map whose function only adds cells only adds cells. *)
Lemma mapSt_extends (A B : Type) (f : A -> heap -> B * heap) (l : list A) :
  Forall (fun x => forall h, extends h (snd (f x h))) l ->
  forall h, extends h (snd (mapSt f l h)).
Proof.
  induction 1 as [|x r Hx _ IH]; intros h; simpl.
  - apply extends_refl.
  - specialize (Hx h). destruct (f x h) as [y h1]. simpl in Hx.
    specialize (IH h1). destruct (mapSt f r h1) as [ys h2]. simpl in *.
    eapply extends_trans; eassumption.
Qed.

Lemma allocTree_extends (t : tree) : forall h, extends h (snd (allocTree t h)).
Proof.
  induction t using tree_nested_ind; intros h; simpl; auto with store.
  - pose proof (mapSt_extends _ _ allocTree elems H h) as Hgo.
    destruct (mapSt allocTree elems h) as [vs h1]. simpl in *.
    eapply extends_trans; [exact Hgo|]. apply alloc_extends.
  - match goal with
    | |- context [mapSt ?f props h] =>
        assert (Hgo : extends h (snd (mapSt f props h)))
    end.
    { apply mapSt_extends. clear h.
      induction H as [|kv ps Hkv _ IH]; constructor; auto.
      intros h. specialize (Hkv h). destruct (allocTree (snd kv) h). exact Hkv. }
    match goal with
    | |- context [mapSt ?f props h] => destruct (mapSt f props h) as [ps h1]
    end.
    simpl in *. eapply extends_trans; [exact Hgo|]. apply alloc_extends.
Qed.

(** A root laid out by [allocTree] is a new cell. *)
Lemma allocTree_root (t : tree) (h : heap) :
  match fst (allocTree t h) with
  | VRef l => List.length h <= l
  | _ => True
  end.
Proof.
  destruct t; simpl; auto.
  - assert (Hgo : extends h (snd (mapSt allocTree elems h))).
    { apply mapSt_extends. apply Forall_forall. intros t _ h0.
      apply allocTree_extends. }
    destruct (mapSt allocTree elems h) as [vs h1]. simpl in *.
    apply extends_length. exact Hgo.
  - match goal with
    | |- context [mapSt ?f props h] =>
        assert (Hgo : extends h (snd (mapSt f props h)))
    end.
    { apply mapSt_extends. apply Forall_forall. intros kv _ h0.
      pose proof (allocTree_extends (snd kv) h0) as Hkv.
      destruct (allocTree (snd kv) h0). exact Hkv. }
    match goal with
    | |- context [mapSt ?f props h] => destruct (mapSt f props h) as [ps h1]
    end.
    simpl in *. apply extends_length. exact Hgo.
Qed.

(** The callbacks of a replacement only add cells: so does the
    replacement. *)
Lemma rebuild_extends (cb : rmatch -> heap -> string * heap) :
  (forall m h, extends h (snd (cb m h))) ->
  forall s ms from h, extends h (snd (rebuild cb s from ms h)).
Proof.
  intros Hcb s ms. induction ms as [|m ms IH]; intros from h; simpl.
  - apply extends_refl.
  - specialize (Hcb m h). destruct (cb m h) as [rep h1]. simpl in Hcb.
    specialize (IH (m_end m) h1).
    destruct (rebuild cb s (m_end m) ms h1) as [tl h2]. simpl in *.
    eapply extends_trans; eassumption.
Qed.

Lemma replaceSt_extends (r : re) (cb : rmatch -> heap -> string * heap) :
  (forall m h, extends h (snd (cb m h))) ->
  forall s h, extends h (snd (replaceSt r cb s h)).
Proof. intros Hcb s h. unfold replaceSt. apply rebuild_extends. exact Hcb. Qed.

End StoreFacts.

Module EngineStoreFacts.
Import JsString Regex Js StoreFacts.
Local Open Scope list_scope.

Ltac inv_ok :=
  let H := fresh "Hok" in intros H; inversion H; subst; clear H.

(** *** The evaluator *)

Lemma evaluate_extends (E : HostLib) (h : heap) (expression : string) (data : val) :
  forall v h',
    TemplateEngine.evaluate E h expression data = Ok (v, h') -> extends h h'.
Proof.
  intros v h'. unfold TemplateEngine.evaluate, ExpressionEvaluator.evaluate.
  destruct (String.eqb expression "").
  { simpl. inv_ok. apply extends_refl. }
  destruct (objectKeys h data); [|discriminate].
  destruct (test ExpressionEvaluator.simplePathRegex (trim expression)).
  - simpl. destruct (ExpressionEvaluator.getNestedValue E h data (trim expression));
      simpl; inv_ok; apply extends_refl.
  - unfold ExpressionEvaluator.evaluateComplexExpression.
    destruct (ExpressionEvaluator.substituteVariables E h data _ expression).
    + simpl. destruct (newFunction E _ _) as [t|]; simpl.
      * pose proof (allocTree_extends t h) as Ht.
        destruct (allocTree t h) as [v0 h0]. simpl in Ht. inv_ok. exact Ht.
      * inv_ok. apply extends_refl.
    + simpl. inv_ok. apply extends_refl.
Qed.

Lemma evaluateCondition_extends (E : HostLib) (h : heap) (condition : string)
    (data : val) :
  forall v h',
    TemplateEngine.evaluateCondition E h condition data = Ok (v, h') -> extends h h'.
Proof.
  intros v h'.
  unfold TemplateEngine.evaluateCondition, ExpressionEvaluator.evaluateCondition.
  destruct (ExpressionEvaluator.replaceThrowing _ _ _).
  - unfold ExpressionEvaluator.evaluateComplexExpression.
    destruct (ExpressionEvaluator.substituteVariables E h data _ _).
    + simpl. destruct (newFunction E _ _) as [t|]; simpl.
      * pose proof (allocTree_extends t h) as Ht.
        destruct (allocTree t h) as [v0 h0]. simpl in Ht.
        destruct (toString E h0 v0); simpl; inv_ok;
          [exact Ht|apply extends_refl].
      * inv_ok. apply extends_refl.
    + simpl. inv_ok. apply extends_refl.
  - simpl. inv_ok. apply extends_refl.
Qed.

(** *** The formatters *)

Lemma pure_addsCells (f : heap -> val -> list val -> result val) :
  FormatHelper.addsCells (FormatHelper.pure f).
Proof.
  intros h value args r h'. unfold FormatHelper.pure.
  destruct (f h value args); simpl; [|discriminate].
  inv_ok. apply extends_refl.
Qed.

Lemma styled_addsCells (key : string) (x : val) :
  FormatHelper.addsCells (FormatHelper.styled key x).
Proof.
  intros h value args r h'. unfold FormatHelper.styled. simpl.
  inv_ok. eexists [_; _]. rewrite <- app_assoc. reflexivity.
Qed.

Lemma size_addsCells (E : HostLib) :
  FormatHelper.addsCells (FormatHelper.size E).
Proof.
  intros h value args r h' Hf. unfold FormatHelper.size in Hf.
  destruct (toString E h (FormatHelper.arg args 0)); [|discriminate].
  exact (styled_addsCells _ _ _ _ _ _ _ Hf).
Qed.

Lemma color_addsCells : FormatHelper.addsCells FormatHelper.color.
Proof.
  intros h value args r h' Hf. unfold FormatHelper.color in Hf.
  exact (styled_addsCells _ _ _ _ _ _ _ Hf).
Qed.

Lemma formatters_addCells (E : HostLib) :
  Forall (fun kv => FormatHelper.addsCells (snd kv)) (FormatHelper.formatters E).
Proof.
  unfold FormatHelper.formatters.
  repeat (constructor;
          [first [ exact (size_addsCells E) | exact color_addsCells
                 | apply pure_addsCells | apply styled_addsCells ]|]).
  constructor.
Qed.

Lemma objGet_Forall (A : Type) (P : A -> Prop) (props : list (string * A))
    (key : string) (x : A) :
  Forall (fun kv => P (snd kv)) props -> objGet props key = Some x -> P x.
Proof.
  induction 1 as [|[k v] r Hkv _ IH]; simpl; [discriminate|].
  destruct (String.eqb k key); [intros Heq; inversion Heq; subst; exact Hkv | exact IH].
Qed.

Lemma applyOne_extends (E : HostLib) (formatterExpr : string)
    (st : val * list (string * val) * heap) :
  extends (snd st) (snd (FormatHelper.applyOne E formatterExpr st)).
Proof.
  unfold FormatHelper.applyOne. destruct st as [[result formatting] h].
  destruct (splitChar ":" formatterExpr) as [|name args]; [apply extends_refl|].
  destruct (objGet (FormatHelper.formatters E) (trim name)) as [f|] eqn:Hf;
    [|apply extends_refl].
  pose proof (objGet_Forall _ _ _ _ _ (formatters_addCells E) Hf) as Hadds.
  destruct (f h result _) as [[formattedResult h1]|] eqn:Hrun; [|apply extends_refl].
  apply Hadds in Hrun.
  match goal with
  | |- context [match ?fm with Some _ => _ | None => _ end] => destruct fm
  end.
  - destruct (getProp E h1 formattedResult "value"); simpl;
      [exact Hrun | apply extends_refl].
  - exact Hrun.
Qed.

Lemma applyFormatters_extends (E : HostLib) (h : heap) (value : val)
    (fs : list string) :
  extends h (snd (FormatHelper.applyFormatters E h value fs)).
Proof.
  unfold FormatHelper.applyFormatters.
  assert (Hfold : forall st,
             extends (snd st)
               (snd (fold_left (fun st f => FormatHelper.applyOne E f st) fs st))).
  { induction fs as [|f fs IH]; intros st; simpl; [apply extends_refl|].
    eapply extends_trans; [apply applyOne_extends | apply IH]. }
  specialize (Hfold (value, [], h)).
  destruct (fold_left _ fs (value, [], h)) as [[result formatting] h1].
  simpl in Hfold.
  destruct formatting as [|p ps]; simpl; [exact Hfold|].
  eapply extends_trans; [exact Hfold|].
  eexists [_; _]. rewrite <- app_assoc. reflexivity.
Qed.

Lemma withFormatters_extends (E : HostLib) (h : heap) (value : val)
    (fs : list string) :
  extends h (snd (TemplateEngine.withFormatters E h value fs)).
Proof.
  unfold TemplateEngine.withFormatters. destruct fs; [apply extends_refl|].
  apply applyFormatters_extends.
Qed.

End EngineStoreFacts.

Module RenderStoreFacts.
Import JsString Regex Js StoreFacts EngineStoreFacts TemplateEngine.
Local Open Scope list_scope.

Ltac pair_of t :=
  let v := fresh "v" in
  let h := fresh "h" in
  destruct t as [v h] eqn:?.

(** *** The executor *)

Lemma variableInLoopCallback_extends (E : HostLib) (data : val) (m : rmatch)
    (h : heap) :
  extends h (snd (variableInLoopCallback E data m h)).
Proof.
  unfold variableInLoopCallback.
  match goal with |- context [if ?b then _ else _] => destruct b end;
    [apply extends_refl|].
  destruct (splitPipe (groupOr m 1 "")) as [varPath fs].
  match goal with
  | |- context [match ?looked with Ok _ => _ | Throw _ => _ end] =>
      assert (Hlooked : forall v h1, looked = Ok (v, h1) -> extends h h1);
      [|destruct looked as [[value h1]|]; [|apply extends_refl]]
  end.
  { intros v h1.
    repeat match goal with
           | |- context [if ?b then _ else _] => destruct b
           end;
      try (apply evaluate_extends);
      unfold bind;
      repeat match goal with
             | |- context [match ?r with Ok _ => _ | Throw _ => _ end] =>
                 destruct r; try discriminate
             end;
      inv_ok; apply extends_refl. }
  specialize (Hlooked value h1 eq_refl).
  pose proof (withFormatters_extends E h1 value fs) as Hfmt.
  destruct (withFormatters E h1 value fs) as [value' h2]. simpl in Hfmt.
  assert (extends h h2) by (eapply extends_trans; eassumption).
  destruct (formattingValue E h2 value') as [[v|]|]; simpl; assumption.
Qed.

Lemma processVariablesInLoop_extends (E : HostLib) (xml : string) (data : val)
    (h : heap) :
  extends h (snd (processVariablesInLoop E xml data h)).
Proof.
  unfold processVariablesInLoop. apply replaceSt_extends.
  apply variableInLoopCallback_extends.
Qed.

(** The context of an iteration is a new cell; nothing else changes. *)
Lemma loopContext_fresh (E : HostLib) (h : heap) (data item : val)
    (index count : nat) (ctx : val) (h' : heap) :
  loopContext E h data item index count = Ok (ctx, h') ->
  ctx = VRef (List.length h) /\ exists c, h' = h ++ [c].
Proof.
  unfold loopContext, bind. destruct (getProp E h data "this"); [|discriminate].
  unfold alloc. inv_ok. split; [reflexivity|]. eexists. reflexivity.
Qed.

Lemma loopContext_extends (E : HostLib) (h : heap) (data item : val)
    (index count : nat) (ctx : val) (h' : heap) :
  loopContext E h data item index count = Ok (ctx, h') -> extends h h'.
Proof.
  intros H. apply loopContext_fresh in H. destruct H as [_ [c ->]].
  exists [c]. reflexivity.
Qed.

Lemma renderItem_extends (E : HostLib)
    (nested : string -> val -> heap -> option (string * heap))
    (content : string) (data : val) (count : nat) (item : val) (index : nat)
    (h : heap) (s : string) (h' : heap) :
  nestedAddsCells nested ->
  renderItem E nested content data count item index h = Some (Ok (s, h')) ->
  extends h h'.
Proof.
  intros Hnested. unfold renderItem.
  destruct (loopContext E h data item index count) as [[ctx h1]|] eqn:Hctx;
    [|discriminate].
  apply loopContext_extends in Hctx.
  destruct (nested content ctx h1) as [[processed h2]|] eqn:Hn; [|discriminate].
  apply Hnested in Hn.
  pose proof (processVariablesInLoop_extends E
                (processConditionsInLoop E h2 processed ctx) ctx h2) as Hv.
  destruct (processVariablesInLoop E _ ctx h2) as [s' h3]. simpl in Hv.
  inv_ok. eapply extends_trans; [eassumption|].
  eapply extends_trans; eassumption.
Qed.

Lemma mapItems_extends
    (f : val -> nat -> heap -> option (result (string * heap))) :
  (forall item index h s h', f item index h = Some (Ok (s, h')) -> extends h h') ->
  forall items index h ss h',
    mapItems f items index h = Some (Ok (ss, h')) -> extends h h'.
Proof.
  intros Hf. induction items as [|item rest IH]; intros index h ss h'; simpl.
  - inv_ok. apply extends_refl.
  - destruct (f item index h) as [[[s h1]|]|] eqn:Hitem; try discriminate.
    apply Hf in Hitem.
    destruct (mapItems f rest (S index) h1) as [[[ss' h2]|]|] eqn:Hrest;
      try discriminate.
    apply IH in Hrest. inv_ok. eapply extends_trans; eassumption.
Qed.

Lemma expandLoop_extends (E : HostLib)
    (nested : string -> val -> heap -> option (string * heap))
    (arrayPath content : string) (data : val) (h : heap) (r : string) (h' : heap) :
  nestedAddsCells nested ->
  expandLoop E nested arrayPath content data h = Some (r, h') -> extends h h'.
Proof.
  intros Hnested. unfold expandLoop.
  destruct (evaluate E h arrayPath data) as [[arrayData h1]|] eqn:Hev.
  2:{ inv_ok. apply extends_refl. }
  apply evaluate_extends in Hev.
  destruct (isArray h1 arrayData) as [items|]; [|inv_ok; exact Hev].
  destruct (mapItems _ items 0 h1) as [[[rendered h2]|]|] eqn:Hmap;
    try discriminate.
  - apply mapItems_extends in Hmap.
    + inv_ok. eapply extends_trans; eassumption.
    + intros item index h0 s h0'. apply renderItem_extends. exact Hnested.
  - inv_ok. exact Hev.
Qed.

Lemma loopFrom_extends (E : HostLib) :
  forall fuel resultXml startIndex data h r h',
    loopFrom fuel E resultXml startIndex data h = Some (r, h') -> extends h h'.
Proof.
  induction fuel as [|fuel IH]; intros resultXml startIndex data h r h';
    [discriminate|].
  cbn [loopFrom].
  destruct (indexOfFrom resultXml loopStartMarker startIndex) as [openIndex|];
    [|inv_ok; apply extends_refl].
  destruct (indexOfFrom resultXml "}" openIndex) as [openTagEndIndex|];
    [|inv_ok; apply extends_refl].
  destruct (findClose _ resultXml 1 (openTagEndIndex + 1)) as [closeIndex|];
    [|apply IH].
  destruct (expandLoop E _ _ _ data h) as [[loopResult h1]|] eqn:Hexp;
    [|discriminate].
  apply expandLoop_extends in Hexp.
  - intros Hrec. apply IH in Hrec. eapply extends_trans; eassumption.
  - intros c d h0 r0 h0'. apply IH.
Qed.

Lemma processLoops_extends (E : HostLib) (xml : string) (data : val) (h : heap) :
  extends h (snd (processLoops E xml data h)).
Proof.
  unfold processLoops.
  destruct (loopFrom _ E xml 0 data h) as [[r h']|] eqn:Hrun.
  - apply loopFrom_extends in Hrun. exact Hrun.
  - apply extends_refl.
Qed.

(** *** The tables, the conditions, the variables left *)

Lemma tableRows_extends (E : HostLib) (contentBetween : string) (data : val) :
  forall items index count h,
    extends h (snd (tableRows E contentBetween data items index count h)).
Proof.
  induction items as [|item rest IH]; intros index count h; simpl.
  - apply extends_refl.
  - match goal with
    | |- context [processVariablesInLoop E contentBetween ?ctx ?h1] =>
        pose proof (processVariablesInLoop_extends E contentBetween ctx h1) as Hv;
        destruct (processVariablesInLoop E contentBetween ctx h1) as [row h2]
    end.
    simpl in Hv. specialize (IH (S index) count h2).
    destruct (tableRows E contentBetween data rest (S index) count h2) as [rows h3].
    simpl in *. eapply extends_trans; [|exact IH].
    eapply extends_trans; [|exact Hv]. eexists [_]. reflexivity.
Qed.

Lemma advancedTableCallback_extends (E : HostLib) (data : val) (m : rmatch)
    (h : heap) :
  extends h (snd (advancedTableCallback E data m h)).
Proof.
  unfold advancedTableCallback.
  destruct (evaluate E h (groupOr m 1 "") data) as [[arrayData h1]|] eqn:Hev;
    [|apply extends_refl].
  apply evaluate_extends in Hev.
  destruct (isArray h1 arrayData) as [items|]; [|exact Hev].
  pose proof (tableRows_extends E (groupOr m 2 "") data items 0
                (List.length items) h1) as Hrows.
  destruct (tableRows E _ data items 0 _ h1) as [rows h2]. simpl in *.
  eapply extends_trans; eassumption.
Qed.

Lemma tableLoopCallback_extends (E : HostLib) (data : val) (m : rmatch)
    (h : heap) :
  extends h (snd (tableLoopCallback E data m h)).
Proof.
  unfold tableLoopCallback.
  destruct (exec loopStartRegex (groupOr m 1 "")) as [start|];
    [|apply extends_refl].
  destruct (evaluate E h _ data) as [[arrayData h1]|] eqn:Hev;
    [|apply extends_refl].
  apply evaluate_extends in Hev.
  destruct (isArray h1 arrayData); exact Hev.
Qed.

Lemma conditionCallback_extends (E : HostLib) (data : val) (m : rmatch)
    (h : heap) :
  extends h (snd (conditionCallback E data m h)).
Proof.
  unfold conditionCallback.
  destruct (ExpressionEvaluator.replaceThrowing _ _ _) as [processed|];
    [|apply extends_refl].
  destruct (evaluateCondition E h processed data) as [[result h1]|] eqn:Hev;
    [|apply extends_refl].
  apply evaluateCondition_extends in Hev.
  destruct (toString E h1 result); exact Hev.
Qed.

Lemma remainingVariableCallback_extends (E : HostLib) (data : val)
    (m : rmatch) (h : heap) :
  extends h (snd (remainingVariableCallback E data m h)).
Proof.
  unfold remainingVariableCallback.
  match goal with |- context [if ?b then _ else _] => destruct b end;
    [apply extends_refl|].
  destruct (splitPipe (groupOr m 1 "")) as [varPath fs].
  destruct (startsWith varPath "this."); [apply extends_refl|].
  destruct (evaluate E h varPath data) as [[value h1]|] eqn:Hev;
    [|apply extends_refl].
  apply evaluate_extends in Hev. unfold printRemaining.
  pose proof (withFormatters_extends E h1 value fs) as Hfmt.
  destruct (withFormatters E h1 value fs) as [value' h2]. simpl in Hfmt.
  assert (extends h h2) by (eapply extends_trans; eassumption).
  destruct (formattingValue E h2 value') as [[v|]|]; simpl; assumption.
Qed.

Lemma renderXml_extends (E : HostLib) (documentXml : string) (data : val)
    (h : heap) :
  extends h (snd (renderXml E documentXml data h)).
Proof.
  unfold renderXml.
  pose proof (processLoops_extends E (cleanWordXmlLikeLibreOffice documentXml)
                data h) as H1.
  destruct (processLoops E _ data h) as [x1 h1]. simpl in H1.
  pose proof (replaceSt_extends tableLoopPattern (advancedTableCallback E data)
                (advancedTableCallback_extends E data) x1 h1) as H2.
  unfold processAdvancedTable.
  destruct (replaceSt tableLoopPattern _ x1 h1) as [x2 h2]. simpl in H2.
  pose proof (replaceSt_extends tableRowRegex (tableLoopCallback E data)
                (tableLoopCallback_extends E data) x2 h2) as H3.
  unfold processTables, processTableLoops.
  destruct (replaceSt tableRowRegex _ x2 h2) as [x3 h3]. simpl in H3.
  pose proof (replaceSt_extends conditionRegex (conditionCallback E data)
                (conditionCallback_extends E data)
                (removeEmptyControlRows x3) h3) as H4.
  unfold processConditions.
  destruct (replaceSt conditionRegex _ _ h3) as [x4 h4]. simpl in H4.
  pose proof (replaceSt_extends variableRegex (remainingVariableCallback E data)
                (remainingVariableCallback_extends E data) x4 h4) as H5.
  unfold processRemainingVariables.
  eapply extends_trans; [exact H1|]. eapply extends_trans; [exact H2|].
  eapply extends_trans; [exact H3|]. eapply extends_trans; [exact H4|].
  exact H5.
Qed.

Lemma processTemplate_extends (E : HostLib) (templateBuffer : string)
    (data : val) (h : heap) :
  extends h (snd (processTemplate E templateBuffer data h)).
Proof.
  unfold processTemplate, processAdvancedTemplate.
  destruct (pizzipLoad E templateBuffer) as [zip|]; [|apply extends_refl].
  destruct (objGet zip mainPart) as [documentXml|]; [|apply extends_refl].
  pose proof (renderXml_extends E documentXml data h) as Hr.
  destruct (renderXml E documentXml data h) as [x h1]. exact Hr.
Qed.

End RenderStoreFacts.

(** ** The caller's data *)

Module FrameClaims.
Import JsString Regex Js StoreFacts EngineStoreFacts RenderStoreFacts.
Import DocumentGenerator.
Local Open Scope list_scope.

Lemma mapStR_extends (A B : Type) (g : A -> heap -> result (B * heap))
    (l : list A) :
  Forall (fun x => forall h y h', g x h = Ok (y, h') -> extends h h') l ->
  forall h ys h', mapStR g l h = Ok (ys, h') -> extends h h'.
Proof.
  induction 1 as [|x r Hx _ IH]; intros h ys h'; simpl.
  - inv_ok. apply extends_refl.
  - destruct (g x h) as [[y h1]|] eqn:Hg; [|discriminate].
    apply Hx in Hg.
    destruct (mapStR g r h1) as [[ys' h2]|] eqn:Hr; [|discriminate].
    apply IH in Hr. inv_ok. eapply extends_trans; eassumption.
Qed.

Lemma normalizeTextFields_extends :
  forall fuel obj h v h',
    normalizeTextFields fuel obj h = Ok (v, h') -> extends h h'.
Proof.
  induction fuel as [|fuel IH]; intros obj h v h'; [discriminate|].
  cbn [normalizeTextFields].
  destruct obj; try (inv_ok; apply extends_refl).
  destruct (lookup l h) as [[props|items]|]; [| |inv_ok; apply extends_refl].
  - unfold bind.
    match goal with
    | |- context [mapStR ?g props h] =>
        destruct (mapStR g props h) as [[ps h1]|] eqn:Hmap; [|discriminate]
    end.
    apply mapStR_extends in Hmap.
    + inv_ok. eapply extends_trans; [exact Hmap|]. eexists [_]. reflexivity.
    + apply Forall_forall. intros kv _ h0 y h0'. unfold bind.
      destruct (normalizeTextFields fuel (snd kv) h0) as [[v0 h2]|] eqn:Hn;
        [|discriminate].
      apply IH in Hn. inv_ok. exact Hn.
  - unfold bind.
    destruct (mapStR (normalizeTextFields fuel) items h) as [[vs h1]|] eqn:Hmap;
      [|discriminate].
    apply mapStR_extends in Hmap.
    + inv_ok. eapply extends_trans; [exact Hmap|]. eexists [_]. reflexivity.
    + apply Forall_forall. intros x _ h0 y h0'. apply IH.
Qed.

(** A write into a cell above the cells of [h0] leaves [h0] as it is. *)
Lemma update_above (h0 : heap) :
  forall ext l c,
    List.length h0 <= l ->
    update l c (h0 ++ ext) = h0 ++ update (l - List.length h0) c ext.
Proof.
  induction h0 as [|x h0 IH]; intros ext l c Hl; simpl.
  - rewrite Nat.sub_0_r. reflexivity.
  - destruct l as [|l]; [simpl in Hl; lia|]. simpl in *.
    rewrite IH by lia. reflexivity.
Qed.

Lemma setProp_above (h0 h : heap) (obj : val) (key : string) (value : val) :
  extends h0 h ->
  match obj with VRef l => List.length h0 <= l | _ => True end ->
  extends h0 (setProp h obj key value).
Proof.
  intros [ext ->] Hobj. unfold setProp.
  destruct obj; try (eexists; reflexivity).
  destruct (lookup l (h0 ++ ext)) as [[props|items]|]; try (eexists; reflexivity).
  unfold extends. rewrite update_above by exact Hobj. eexists. reflexivity.
Qed.

Lemma jsonClone_fresh (h : heap) (data v : val) (h' : heap) :
  jsonClone h data = Ok (v, h') ->
  extends h h' /\ match v with VRef l => List.length h <= l | _ => True end.
Proof.
  unfold jsonClone.
  destruct (reify (depthFuel h) h data) as [t|]; [|discriminate].
  destruct (jsonValue t) as [t'|]; [|discriminate].
  pose proof (allocTree_extends t' h) as Hext.
  pose proof (allocTree_root t' h) as Hroot.
  destruct (allocTree t' h) as [v0 h0]. simpl in *. inv_ok. split; assumption.
Qed.

(** [preprocessData] writes into the copy: the store it is given stays
    as it is, below the cells it adds. *)
Lemma preprocessData_frame (E : HostLib) (data : val) (o : options) (h : heap)
    (v : val) (h' : heap) :
  preprocessData E data o h = Ok (v, h') -> extends h h'.
Proof.
  unfold preprocessData, bind.
  destruct (jsonClone h data) as [[processedData h1]|] eqn:Hclone; [|discriminate].
  apply jsonClone_fresh in Hclone. destruct Hclone as [H1 Hroot].
  unfold alloc.
  set (meta := CObj (FormatHelper.mergeProps _ _)).
  set (h3 := setProp (h1 ++ [meta]) processedData "_meta" (VRef (List.length h1))).
  assert (H3 : extends h h3).
  { apply setProp_above; [|exact Hroot].
    eapply extends_trans; [exact H1|]. exists [meta]. reflexivity. }
  set (helpers := CObj _).
  set (h5 := setProp (h3 ++ [helpers]) processedData "_helpers" _).
  assert (H5 : extends h h5).
  { apply setProp_above; [|exact Hroot].
    eapply extends_trans; [exact H3|]. exists [helpers]. reflexivity. }
  intros Hn. apply normalizeTextFields_extends in Hn.
  eapply extends_trans; eassumption.
Qed.

Lemma generateDocument_frame (E : HostLib) (templateBuffer : string) (data : val)
    (o : options) (h : heap) :
  extends h (snd (generateDocument E templateBuffer data o h)).
Proof.
  unfold generateDocument.
  destruct (validateDocxBuffer E templateBuffer); [|apply extends_refl].
  destruct (validateGenerationData h data); [|apply extends_refl].
  destruct (preprocessData E data o h) as [[processedData h1]|] eqn:Hpre;
    [|apply extends_refl].
  apply preprocessData_frame in Hpre.
  pose proof (processTemplate_extends E templateBuffer processedData h1) as Hrun.
  destruct (TemplateEngine.processTemplate E templateBuffer processedData h1)
    as [[generatedBuffer|msg] h2]; simpl in *;
    eapply extends_trans; eassumption.
Qed.


(** The same for a bulk generation, with any positive batch size. *)
Lemma generateFrom_frame (E : HostLib) (templateBuffer : string) (o : options) :
  forall dataArray i h,
    extends h (snd (generateFrom (generateDocument E) templateBuffer dataArray i o h)).
Proof.
  induction dataArray as [|data rest IH]; intros i h; simpl.
  - apply extends_refl.
  - pose proof (generateDocument_frame E templateBuffer data (withIndex o i) h) as H1.
    destruct (generateDocument E templateBuffer data (withIndex o i) h) as [r h1].
    simpl in H1. specialize (IH (S i) h1).
    destruct (generateFrom (generateDocument E) templateBuffer rest (S i) o h1)
      as [slots h2].
    simpl in *. eapply extends_trans; eassumption.
Qed.

End FrameClaims.

(** ** Texts: offsets, prefixes, first occurrences *)

Module StringFacts.
Import JsString.
Local Open Scope list_scope.
Local Open Scope string_scope.

Lemma length_app (a b : string) :
  String.length (a ++ b) = String.length a + String.length b.
Proof. induction a as [|c a IH]; simpl; [reflexivity|]. rewrite IH. reflexivity. Qed.

Lemma app_assoc (a b c : string) : (a ++ b) ++ c = a ++ b ++ c.
Proof. induction a as [|x a IH]; simpl; [reflexivity|]. rewrite IH. reflexivity. Qed.

Lemma app_empty_r (a : string) : a ++ "" = a.
Proof. induction a as [|x a IH]; simpl; [reflexivity|]. rewrite IH. reflexivity. Qed.

Lemma drop_0 (s : string) : drop 0 s = s.
Proof. destruct s; reflexivity. Qed.

Lemma take_0 (s : string) : take 0 s = "".
Proof. destruct s; reflexivity. Qed.

Lemma drop_empty (n : nat) : drop n "" = "".
Proof. destruct n; reflexivity. Qed.

Lemma drop_app_length (a b : string) : drop (String.length a) (a ++ b) = b.
Proof. induction a as [|x a IH]; simpl; [reflexivity|exact IH]. Qed.

Lemma take_app_length (a b : string) : take (String.length a) (a ++ b) = a.
Proof.
  induction a as [|x a IH]; simpl; [reflexivity|]. rewrite IH. reflexivity.
Qed.

Lemma drop_drop (s : string) : forall m n, drop n (drop m s) = drop (m + n) s.
Proof.
  induction s as [|c s IH]; intros m n.
  - rewrite !drop_empty. reflexivity.
  - destruct m as [|m]; simpl; [reflexivity|]. apply IH.
Qed.

Lemma drop_app_plus (a b : string) (n : nat) :
  drop (String.length a + n) (a ++ b) = drop n b.
Proof. rewrite <- drop_drop. rewrite drop_app_length. reflexivity. Qed.

Lemma length_drop (s : string) : forall n, String.length (drop n s) = String.length s - n.
Proof.
  induction s as [|c s IH]; intros n.
  - rewrite drop_empty. reflexivity.
  - destruct n as [|n]; simpl; [reflexivity|]. apply IH.
Qed.

Lemma length_take (s : string) :
  forall n, String.length (take n s) = Nat.min n (String.length s).
Proof.
  induction s as [|c s IH]; intros n.
  - destruct n; reflexivity.
  - destruct n as [|n]; simpl; [reflexivity|]. rewrite IH. reflexivity.
Qed.

Lemma take_drop (s : string) : forall n, take n s ++ drop n s = s.
Proof.
  induction s as [|c s IH]; intros n.
  - destruct n; reflexivity.
  - destruct n as [|n]; simpl; [reflexivity|]. rewrite IH. reflexivity.
Qed.

Lemma take_all (s : string) : forall n, String.length s <= n -> take n s = s.
Proof.
  induction s as [|c s IH]; intros n Hn.
  - destruct n; reflexivity.
  - destruct n as [|n]; simpl in *; [lia|]. rewrite IH by lia. reflexivity.
Qed.

Lemma take_app_le (a b : string) :
  forall n, n <= String.length a -> take n (a ++ b) = take n a.
Proof.
  induction a as [|x a IH]; intros n Hn; simpl in *.
  - assert (n = 0) by lia. subst. rewrite take_0. reflexivity.
  - destruct n as [|n]; simpl; [reflexivity|]. rewrite IH by lia. reflexivity.
Qed.

Lemma take_app_plus (a b : string) (n : nat) :
  take (String.length a + n) (a ++ b) = a ++ take n b.
Proof.
  induction a as [|x a IH]; simpl; [reflexivity|]. rewrite IH. reflexivity.
Qed.

Lemma drop_app_le (a b : string) :
  forall n, n <= String.length a -> drop n (a ++ b) = drop n a ++ b.
Proof.
  induction a as [|x a IH]; intros n Hn; simpl in *.
  - assert (n = 0) by lia. subst. rewrite drop_0. reflexivity.
  - destruct n as [|n]; simpl; [reflexivity|]. apply IH. lia.
Qed.

(** [substring] between two offsets in order. *)
Lemma substring_le (s : string) (a b : nat) :
  a <= b -> substring s a b = take (b - a) (drop a s).
Proof.
  intros H. unfold substring. rewrite Nat.max_r, Nat.min_l by lia. reflexivity.
Qed.

Lemma substring_shift (done rest : string) (a b : nat) :
  substring (done ++ rest) (String.length done + a) (String.length done + b)
  = substring rest a b.
Proof.
  unfold substring.
  rewrite Nat.add_max_distr_l, Nat.add_min_distr_l.
  rewrite drop_app_plus. f_equal. lia.
Qed.

Lemma substring_0_shift (done rest : string) (b : nat) :
  substring (done ++ rest) 0 (String.length done + b) = done ++ take b rest.
Proof.
  rewrite substring_le by lia. rewrite drop_0, Nat.sub_0_r. apply take_app_plus.
Qed.

(** *** Prefixes *)

Lemma startsWith_app (p r : string) : startsWith (p ++ r) p = true.
Proof.
  induction p as [|c p IH]; simpl; [destruct r; reflexivity|].
  rewrite Ascii.eqb_refl. exact IH.
Qed.

Lemma startsWith_iff (s p : string) :
  startsWith s p = true <-> exists r, s = p ++ r.
Proof.
  split.
  - revert s. induction p as [|c p IH]; intros s H.
    + exists s. reflexivity.
    + destruct s as [|d s]; simpl in H; [discriminate|].
      apply andb_true_iff in H. destruct H as [Hc Hs].
      apply Ascii.eqb_eq in Hc. subst d.
      destruct (IH s Hs) as [r ->]. exists r. reflexivity.
  - intros [r ->]. apply startsWith_app.
Qed.

Lemma startsWith_empty (s : string) : startsWith s "" = true.
Proof. destruct s; reflexivity. Qed.

Lemma startsWith_length (s p : string) :
  startsWith s p = true -> String.length p <= String.length s.
Proof.
  intros H. apply startsWith_iff in H. destruct H as [r ->].
  rewrite length_app. lia.
Qed.

Lemma occursAt_shift (done rest p : string) (i : nat) :
  occursAt (done ++ rest) p (String.length done + i) = occursAt rest p i.
Proof. unfold occursAt. rewrite drop_app_plus. reflexivity. Qed.

Lemma startsWith_app_fits (p : string) :
  forall a b, String.length p <= String.length a ->
    startsWith (a ++ b) p = startsWith a p.
Proof.
  induction p as [|c p IH]; intros a b Hfit.
  - rewrite !startsWith_empty. reflexivity.
  - destruct a as [|x a]; simpl in *; [lia|].
    rewrite IH by lia. reflexivity.
Qed.

(** An occurrence that fits in the first part of a text is an occurrence
    in that part. *)
Lemma occursAt_app_fits (a b p : string) (i : nat) :
  i + String.length p <= String.length a ->
  occursAt (a ++ b) p i = occursAt a p i.
Proof.
  intros Hfit. unfold occursAt. rewrite drop_app_le by lia.
  apply startsWith_app_fits. rewrite length_drop. lia.
Qed.

(** *** First occurrences *)

Lemma indexOf_eq (s p : string) :
  indexOf s p =
  if startsWith s p then Some 0
  else match s with
       | EmptyString => None
       | String _ r => option_map S (indexOf r p)
       end.
Proof. destruct s; reflexivity. Qed.

Lemma indexOf_Some (s p : string) :
  forall i, indexOf s p = Some i ->
    occursAt s p i = true
    /\ i + String.length p <= String.length s
    /\ forall j, j < i -> occursAt s p j = false.
Proof.
  induction s as [|c s IH]; intros i; rewrite indexOf_eq;
    match goal with |- context [startsWith ?t p] =>
      destruct (startsWith t p) eqn:Hsw end.
  - intros [= <-]. split; [exact Hsw|]. split; [|intros j Hj; lia].
    apply startsWith_length in Hsw. simpl in *. lia.
  - discriminate.
  - intros [= <-]. split; [exact Hsw|]. split; [|intros j Hj; lia].
    apply startsWith_length in Hsw. simpl in *. lia.
  - destruct (indexOf s p) as [k|] eqn:Hk; simpl; [|discriminate].
    intros [= <-]. destruct (IH k eq_refl) as (Hocc & Hfit & Hfirst).
    split; [exact Hocc|]. split; [simpl; lia|].
    intros j Hj. destruct j as [|j]; [exact Hsw|]. apply Hfirst. lia.
Qed.

Lemma indexOf_None (s p : string) :
  indexOf s p = None -> forall j, occursAt s p j = false.
Proof.
  induction s as [|c s IH]; rewrite indexOf_eq;
    match goal with |- context [startsWith ?t p] =>
      destruct (startsWith t p) eqn:Hsw end; try discriminate.
  - intros _ j. unfold occursAt. rewrite drop_empty. exact Hsw.
  - destruct (indexOf s p) eqn:Hk; simpl; [discriminate|]. intros _ j.
    destruct j as [|j]; [exact Hsw|]. apply IH. reflexivity.
Qed.

Lemma indexOf_first (s p : string) :
  forall i,
    occursAt s p i = true -> i <= String.length s ->
    (forall j, j < i -> occursAt s p j = false) ->
    indexOf s p = Some i.
Proof.
  induction s as [|c s IH]; intros i Hocc Hle Hfirst; rewrite indexOf_eq.
  - simpl in Hle. assert (i = 0) by lia. subst. unfold occursAt in Hocc.
    rewrite drop_0 in Hocc. rewrite Hocc. reflexivity.
  - destruct i as [|i].
    + unfold occursAt in Hocc. rewrite drop_0 in Hocc. rewrite Hocc. reflexivity.
    + pose proof (Hfirst 0 ltac:(lia)) as H0. unfold occursAt in H0.
      rewrite drop_0 in H0. rewrite H0.
      rewrite (IH i); [reflexivity| | |].
      * exact Hocc.
      * simpl in Hle. lia.
      * intros j Hj. apply (Hfirst (S j)). lia.
Qed.

Lemma indexOf_none (s p : string) :
  (forall j, j <= String.length s -> occursAt s p j = false) ->
  indexOf s p = None.
Proof.
  induction s as [|c s IH]; intros H; rewrite indexOf_eq;
    pose proof (H 0 ltac:(lia)) as H0; unfold occursAt in H0;
    rewrite drop_0 in H0; rewrite H0; [reflexivity|].
  rewrite IH; [reflexivity|].
  intros j Hj. apply (H (S j)). simpl. lia.
Qed.

(** [indexOfFrom] past a first part of the text. *)
Lemma indexOfFrom_shift (done rest p : string) (k : nat) :
  k <= String.length rest ->
  indexOfFrom (done ++ rest) p (String.length done + k)
  = option_map (Nat.add (String.length done)) (indexOfFrom rest p k).
Proof.
  intros Hk. unfold indexOfFrom. rewrite length_app.
  destruct (Nat.ltb_spec (String.length done + String.length rest)
              (String.length done + k)); [lia|].
  destruct (Nat.ltb_spec (String.length rest) k); [lia|].
  rewrite drop_app_plus.
  destruct (indexOf (drop k rest) p); simpl; [f_equal; lia|reflexivity].
Qed.

Lemma indexOfFrom_0 (s p : string) : indexOfFrom s p 0 = indexOf s p.
Proof.
  unfold indexOfFrom. simpl.
  destruct (indexOf s p); reflexivity.
Qed.

Lemma indexOfFrom_Some (s p : string) (from i : nat) :
  p <> "" ->
  indexOfFrom s p from = Some i ->
  from <= i /\ occursAt s p i = true /\ i + String.length p <= String.length s.
Proof.
  intros Hp. unfold indexOfFrom.
  destruct (Nat.ltb_spec (String.length s) from) as [Hlt|Hge].
  - destruct (String.eqb_spec p ""); [contradiction|discriminate].
  - destruct (indexOf (drop from s) p) as [k|] eqn:Hk; simpl; [|discriminate].
    intros [= <-]. apply indexOf_Some in Hk. destruct Hk as (Hocc & Hfit & _).
    split; [lia|]. unfold occursAt in *. rewrite drop_drop in Hocc.
    split; [exact Hocc|]. rewrite length_drop in Hfit. lia.
Qed.

End StringFacts.

(** ** The search of the balanced closing tag *)

Module CloseFacts.
Import JsString StringFacts TemplateEngine.

Lemma findClose_shift (done rest : string) :
  forall fuel depth c,
    findClose fuel (done ++ rest) depth (String.length done + c)
    = option_map (Nat.add (String.length done)) (findClose fuel rest depth c).
Proof.
  induction fuel as [|fuel IH]; intros depth c; [reflexivity|].
  cbn [findClose]. rewrite length_app. unfold substringFrom.
  rewrite drop_app_plus.
  replace (Nat.ltb (String.length done + c) (String.length done + String.length rest))
    with (Nat.ltb c (String.length rest))
    by (destruct (Nat.ltb_spec c (String.length rest));
        destruct (Nat.ltb_spec (String.length done + c)
                    (String.length done + String.length rest)); (reflexivity || lia)).
  destruct (Nat.ltb 0 depth && Nat.ltb c (String.length rest)); [|reflexivity].
  destruct (indexOf (drop c rest) loopEndMarker) as [nc|]; [|reflexivity].
  assert (Hclosing :
    (if Nat.eqb (depth - 1) 0 then Some (String.length done + c + nc)
     else findClose fuel (done ++ rest) (depth - 1) (String.length done + c + nc + 1))
    = option_map (Nat.add (String.length done))
        (if Nat.eqb (depth - 1) 0 then Some (c + nc)
         else findClose fuel rest (depth - 1) (c + nc + 1))).
  { destruct (Nat.eqb (depth - 1) 0); [simpl; f_equal; lia|].
    replace (String.length done + c + nc + 1)
      with (String.length done + (c + nc + 1)) by lia. apply IH. }
  destruct (indexOf (drop c rest) loopStartMarker) as [o|]; [|exact Hclosing].
  replace (Nat.ltb (String.length done + c + o) (String.length done + c + nc))
    with (Nat.ltb (c + o) (c + nc))
    by (destruct (Nat.ltb_spec (c + o) (c + nc));
        destruct (Nat.ltb_spec (String.length done + c + o)
                    (String.length done + c + nc)); (reflexivity || lia)).
  destruct (Nat.ltb (c + o) (c + nc)); [|exact Hclosing].
  replace (String.length done + c + o + 1)
    with (String.length done + (c + o + 1)) by lia. apply IH.
Qed.

(** The result does not depend on the fuel, once above the text left. *)
Lemma findClose_fuel (xml : string) :
  forall f1 f2 depth c,
    String.length xml - c < f1 -> String.length xml - c < f2 ->
    findClose f1 xml depth c = findClose f2 xml depth c.
Proof.
  induction f1 as [|f1 IH]; intros f2 depth c H1 H2; [lia|].
  destruct f2 as [|f2]; [lia|]. cbn [findClose].
  destruct (Nat.ltb_spec c (String.length xml)) as [Hc|Hc];
    [|rewrite andb_false_r; reflexivity].
  destruct (Nat.ltb 0 depth); [|reflexivity]. cbn [andb].
  destruct (indexOf (substringFrom xml c) loopEndMarker) as [nc|]; [|reflexivity].
  assert (Hclosing :
    (if Nat.eqb (depth - 1) 0 then Some (c + nc)
     else findClose f1 xml (depth - 1) (c + nc + 1))
    = (if Nat.eqb (depth - 1) 0 then Some (c + nc)
       else findClose f2 xml (depth - 1) (c + nc + 1))).
  { destruct (Nat.eqb (depth - 1) 0); [reflexivity|]. apply IH; lia. }
  destruct (indexOf (substringFrom xml c) loopStartMarker) as [o|];
    [|exact Hclosing].
  destruct (Nat.ltb (c + o) (c + nc)); [|exact Hclosing].
  apply IH; lia.
Qed.

(** The closing tag found lies after the start and inside the text. *)
Lemma findClose_bounds (xml : string) :
  forall fuel depth c k,
    findClose fuel xml depth c = Some k ->
    c <= k /\ k + String.length loopEndMarker <= String.length xml.
Proof.
  induction fuel as [|fuel IH]; intros depth c k; [discriminate|].
  cbn [findClose].
  destruct (Nat.ltb_spec c (String.length xml)) as [Hc|Hc];
    [|rewrite andb_false_r; discriminate].
  destruct (Nat.ltb 0 depth); [|discriminate]. cbn [andb].
  unfold substringFrom.
  destruct (indexOf (drop c xml) loopEndMarker) as [nc|] eqn:Hnc; [|discriminate].
  apply indexOf_Some in Hnc. destruct Hnc as (_ & Hfit & _).
  rewrite length_drop in Hfit.
  assert (Hclosing :
    (if Nat.eqb (depth - 1) 0 then Some (c + nc)
     else findClose fuel xml (depth - 1) (c + nc + 1)) = Some k ->
    c <= k /\ k + String.length loopEndMarker <= String.length xml).
  { destruct (Nat.eqb (depth - 1) 0).
    - intros [= <-]. lia.
    - intros H. apply IH in H. lia. }
  destruct (indexOf (drop c xml) loopStartMarker) as [o|]; [|exact Hclosing].
  destruct (Nat.ltb (c + o) (c + nc)); [|exact Hclosing].
  intros H. apply IH in H. lia.
Qed.

(** The search started after a first part of the text, with the fuel of
    [processLoops]. *)
Lemma findClose_suffix (done rest : string) (c : nat) :
  findClose (S (String.length (done ++ rest))) (done ++ rest) 1
    (String.length done + c)
  = option_map (Nat.add (String.length done))
      (findClose (S (String.length rest)) rest 1 c).
Proof.
  rewrite findClose_shift. f_equal.
  apply findClose_fuel; rewrite ?length_app; lia.
Qed.

End CloseFacts.

(** ** The loop of [processLoops] *)

Module LoopFacts.
Import JsString StringFacts Js TemplateEngine CloseFacts.

Lemma substring_length (s : string) (a b : nat) :
  a <= b -> String.length (substring s a b) <= b - a.
Proof.
  intros H. rewrite substring_le by exact H. rewrite length_take. lia.
Qed.

Lemma trimContent_length (s : string) :
  String.length (trimContent s) <= String.length s.
Proof.
  unfold trimContent.
  set (t := if startsWith s _ then _ else _).
  assert (Ht : String.length t <= String.length s).
  { subst t. unfold substringFrom.
    destruct (startsWith s _); [rewrite length_drop; lia|].
    destruct (startsWith s _); [rewrite length_drop; lia|lia]. }
  destruct (endsWith t _).
  - pose proof (substring_length t 0 (String.length t - 1) ltac:(lia)). lia.
  - destruct (endsWith t _); [|exact Ht].
    pose proof (substring_length t 0 (String.length t - 2) ltac:(lia)). lia.
Qed.

(** *** The callbacks only see the nested function at the content *)

Lemma mapItems_agree (f g : val -> nat -> heap -> option (result (string * heap))) :
  (forall item i hh, f item i hh = g item i hh) ->
  forall items i h, mapItems f items i h = mapItems g items i h.
Proof.
  intros Hfg. induction items as [|item items IH]; intros i h; [reflexivity|].
  cbn [mapItems]. rewrite Hfg.
  destruct (g item i h) as [[[s h1]|msg]|]; try reflexivity.
  rewrite IH. reflexivity.
Qed.

Lemma renderItem_agree (E : HostLib)
    (n1 n2 : string -> val -> heap -> option (string * heap))
    (content : string) (data : val) (count : nat) :
  (forall d hh, n1 content d hh = n2 content d hh) ->
  forall item i h,
    renderItem E n1 content data count item i h
    = renderItem E n2 content data count item i h.
Proof.
  intros H item i h. unfold renderItem.
  destruct (loopContext E h data item i count) as [[ctx h1]|msg]; [|reflexivity].
  rewrite H. reflexivity.
Qed.

Lemma expandLoop_agree (E : HostLib)
    (n1 n2 : string -> val -> heap -> option (string * heap))
    (arrayPath content : string) (data : val) (h : heap) :
  (forall d hh, n1 content d hh = n2 content d hh) ->
  expandLoop E n1 arrayPath content data h
  = expandLoop E n2 arrayPath content data h.
Proof.
  intros H. unfold expandLoop.
  destruct (evaluate E h arrayPath data) as [[arr h1]|msg]; [|reflexivity].
  destruct (isArray h1 arr) as [items|]; [|reflexivity].
  rewrite (mapItems_agree _ _ (renderItem_agree E n1 n2 content data _ H)).
  reflexivity.
Qed.

Lemma mapItems_some (f : val -> nat -> heap -> option (result (string * heap))) :
  (forall item i hh, exists r, f item i hh = Some r) ->
  forall items i h, exists r, mapItems f items i h = Some r.
Proof.
  intros Hf. induction items as [|item items IH]; intros i h; cbn [mapItems].
  - eexists. reflexivity.
  - destruct (Hf item i h) as [[[s h1]|msg] ->]; [|eexists; reflexivity].
    destruct (IH (S i) h1) as [[[ss h2]|msg] ->]; eexists; reflexivity.
Qed.

Lemma expandLoop_some (E : HostLib)
    (nested : string -> val -> heap -> option (string * heap))
    (arrayPath content : string) (data : val) (h : heap) :
  (forall d hh, exists r, nested content d hh = Some r) ->
  exists r, expandLoop E nested arrayPath content data h = Some r.
Proof.
  intros H. unfold expandLoop.
  destruct (evaluate E h arrayPath data) as [[arr h1]|msg]; [|eexists; reflexivity].
  destruct (isArray h1 arr) as [items|]; [|eexists; reflexivity].
  destruct (mapItems_some (renderItem E nested content data (List.length items)))
    with (items := items) (i := 0) (h := h1) as [[[ss h2]|msg] ->];
    try (eexists; reflexivity).
  intros item i hh. unfold renderItem.
  destruct (loopContext E hh data item i (List.length items)) as [[ctx h2]|msg];
    [|eexists; reflexivity].
  destruct (H ctx h2) as [[r h3] ->]. eexists. reflexivity.
Qed.

(** *** One turn of the loop: where the tags are *)

Lemma turn_bounds (xml : string) (start o e : nat) :
  indexOfFrom xml loopStartMarker start = Some o ->
  indexOfFrom xml "}" o = Some e ->
  start <= o /\ o <= e /\ e + 1 <= String.length xml.
Proof.
  intros Ho He.
  apply indexOfFrom_Some in Ho; [|discriminate].
  apply indexOfFrom_Some in He; [|discriminate].
  simpl in He. lia.
Qed.

Lemma content_length (xml : string) (e c : nat) :
  e + 1 <= c -> c <= String.length xml ->
  String.length (trimContent (substring xml (e + 1) c)) < String.length xml - e.
Proof.
  intros H1 H2. pose proof (trimContent_length (substring xml (e + 1) c)).
  pose proof (substring_length xml (e + 1) c H1). lia.
Qed.

Lemma rest_length (xml before res : string) (k : nat) :
  String.length (before ++ res ++ substringFrom xml k)
  - (String.length before + String.length res)
  = String.length xml - k.
Proof.
  unfold substringFrom. rewrite !length_app, length_drop. lia.
Qed.

(** *** The fuel *)

Lemma loopFrom_fuel (E : HostLib) :
  forall f1 f2 xml start data h,
    String.length xml - start < f1 -> String.length xml - start < f2 ->
    loopFrom f1 E xml start data h = loopFrom f2 E xml start data h.
Proof.
  induction f1 as [|f1 IH]; intros f2 xml start data h H1 H2; [lia|].
  destruct f2 as [|f2]; [lia|]. cbn [loopFrom].
  destruct (indexOfFrom xml loopStartMarker start) as [o|] eqn:Ho; [|reflexivity].
  destruct (indexOfFrom xml "}" o) as [e|] eqn:He; [|reflexivity].
  destruct (turn_bounds xml start o e Ho He) as (Hso & Hoe & Hex).
  destruct (findClose (S (String.length xml)) xml 1 (e + 1)) as [c|] eqn:Hc.
  - apply findClose_bounds in Hc. destruct Hc as [Hec Hcx].
    pose proof (content_length xml e c Hec ltac:(lia)) as Hcontent.
    rewrite (expandLoop_agree E (fun c d hh => loopFrom f1 E c 0 d hh)
               (fun c d hh => loopFrom f2 E c 0 d hh)).
    + destruct (expandLoop E _ _ _ data h) as [[res h1]|]; [|reflexivity].
      apply IH; rewrite rest_length; simpl String.length in *; lia.
    + intros d hh. apply IH; lia.
  - apply IH; lia.
Qed.

Lemma loopFrom_total (E : HostLib) :
  forall fuel xml start data h,
    String.length xml - start < fuel ->
    exists r, loopFrom fuel E xml start data h = Some r.
Proof.
  induction fuel as [|fuel IH]; intros xml start data h Hfuel; [lia|].
  cbn [loopFrom].
  destruct (indexOfFrom xml loopStartMarker start) as [o|] eqn:Ho;
    [|eexists; reflexivity].
  destruct (indexOfFrom xml "}" o) as [e|] eqn:He; [|eexists; reflexivity].
  destruct (turn_bounds xml start o e Ho He) as (Hso & Hoe & Hex).
  destruct (findClose (S (String.length xml)) xml 1 (e + 1)) as [c|] eqn:Hc.
  - apply findClose_bounds in Hc. destruct Hc as [Hec Hcx].
    pose proof (content_length xml e c Hec ltac:(lia)) as Hcontent.
    destruct (expandLoop_some E (fun c d hh => loopFrom fuel E c 0 d hh)
                (trim (substring xml (o + String.length loopStartMarker) e))
                (trimContent (substring xml (e + 1) c)) data h)
      as [[res h1] ->].
    + intros d hh. apply IH. lia.
    + apply IH. rewrite rest_length. simpl String.length in *. lia.
  - apply IH. lia.
Qed.

(** [processLoops] is the loop with any fuel above the length of the
    text. *)
Lemma processLoops_fuel (E : HostLib) (fuel : nat) (xml : string)
    (data : val) (h : heap) :
  String.length xml < fuel ->
  loopFrom fuel E xml 0 data h = Some (processLoops E xml data h).
Proof.
  intros Hfuel. unfold processLoops.
  rewrite (loopFrom_fuel E fuel (S (String.length xml))) by lia.
  destruct (loopFrom_total E (S (String.length xml)) xml 0 data h ltac:(lia))
    as [r ->]. reflexivity.
Qed.

End LoopFacts.

Module ShiftFacts.
Import JsString StringFacts Js TemplateEngine CloseFacts LoopFacts.

Lemma substring_0 (s : string) (b : nat) : substring s 0 b = take b s.
Proof. rewrite substring_le by lia. rewrite Nat.sub_0_r. reflexivity. Qed.

Lemma prepend_prepend (a b : string) (x : option (string * heap)) :
  option_map (prepend a) (option_map (prepend b) x)
  = option_map (prepend (a ++ b)) x.
Proof.
  destruct x as [[r hr]|]; [|reflexivity]. unfold prepend. simpl.
  rewrite app_assoc. reflexivity.
Qed.

(** The loop started after a first part of the text leaves that part as
    it is. *)
Lemma loopFrom_shift (E : HostLib) :
  forall fuel done rest data h,
    loopFrom fuel E (done ++ rest) (String.length done) data h
    = option_map (prepend done) (loopFrom fuel E rest 0 data h).
Proof.
  induction fuel as [|fuel IH]; intros done rest data h; [reflexivity|].
  assert (Hsplit : forall k, k <= String.length rest ->
            loopFrom fuel E (done ++ rest) (String.length done + k) data h
            = option_map (prepend done) (loopFrom fuel E rest k data h)).
  { intros k Hk.
    assert (Hl : String.length (take k rest) = k) by (rewrite length_take; lia).
    pose proof (take_drop rest k) as Hr. clear Hk. revert Hl Hr.
    generalize (take k rest) (drop k rest). intros a b Hl Hr. subst k.
    rewrite <- Hr. rewrite <- length_app, <- app_assoc.
    rewrite !IH. rewrite prepend_prepend. reflexivity. }
  cbn [loopFrom].
  pose proof (indexOfFrom_shift done rest loopStartMarker 0 ltac:(lia)) as Ho.
  rewrite Nat.add_0_r in Ho. rewrite Ho. clear Ho.
  destruct (indexOfFrom rest loopStartMarker 0) as [o|] eqn:Ho; [|reflexivity].
  cbn [option_map].
  pose proof Ho as Hob. apply indexOfFrom_Some in Hob; [|discriminate].
  destruct Hob as (_ & _ & Hob).
  rewrite (indexOfFrom_shift done rest "}" o) by lia.
  destruct (indexOfFrom rest "}" o) as [e|] eqn:He; [|reflexivity].
  cbn [option_map].
  destruct (turn_bounds rest 0 o e Ho He) as (_ & Hoe & Hex).
  replace (String.length done + e + 1) with (String.length done + (e + 1)) by lia.
  rewrite findClose_suffix.
  replace (String.length done + o + String.length loopStartMarker)
    with (String.length done + (o + String.length loopStartMarker)) by lia.
  rewrite substring_shift.
  destruct (findClose (S (String.length rest)) rest 1 (e + 1)) as [c|] eqn:Hc;
    cbn [option_map]; [|apply Hsplit; lia].
  apply findClose_bounds in Hc. destruct Hc as [Hec Hcx].
  rewrite substring_shift.
  destruct (expandLoop E _ _ _ data h) as [[res h1]|]; [|reflexivity].
  rewrite substring_0_shift, substring_0. unfold substringFrom.
  replace (String.length done + c + String.length loopEndMarker)
    with (String.length done + (c + String.length loopEndMarker)) by lia.
  rewrite drop_app_plus.
  rewrite <- !length_app.
  rewrite <- (app_assoc (done ++ take o rest)).
  rewrite <- (app_assoc (take o rest)).
  rewrite (IH ((done ++ take o rest) ++ res)), (IH (take o rest ++ res)).
  rewrite prepend_prepend. rewrite !app_assoc. reflexivity.
Qed.

End ShiftFacts.

Module EachFacts.
Import JsString StringFacts Js TemplateEngine CloseFacts LoopFacts ShiftFacts Scenario.

(** The first occurrence of a tag after a text that has none. *)
Lemma indexOf_after (pre tag tail : string) :
  indexOf (pre ++ tag) tag = Some (String.length pre) ->
  indexOf (pre ++ tag ++ tail) tag = Some (String.length pre).
Proof.
  intros H. apply indexOf_Some in H. destruct H as (_ & _ & Hfirst).
  apply indexOf_first.
  - rewrite <- (Nat.add_0_r (String.length pre)). rewrite occursAt_shift.
    unfold occursAt. apply startsWith_app.
  - rewrite length_app. lia.
  - intros j Hj. rewrite <- app_assoc.
    rewrite occursAt_app_fits by (rewrite length_app; lia).
    apply Hfirst. exact Hj.
Qed.

(** The first occurrence of a character after a text without it. *)
Lemma indexOf_char_after (a tail : string) (ch : ascii) :
  indexOf a (String ch "") = None ->
  indexOf (a ++ String ch tail) (String ch "") = Some (String.length a).
Proof.
  intros H. apply indexOf_first.
  - rewrite <- (Nat.add_0_r (String.length a)). rewrite occursAt_shift.
    unfold occursAt. simpl. rewrite Ascii.eqb_refl. destruct tail; reflexivity.
  - rewrite length_app. lia.
  - intros j Hj. rewrite occursAt_app_fits by (simpl; lia).
    apply indexOf_None. exact H.
Qed.

Lemma indexOf_char_app (a b : string) (ch : ascii) :
  indexOf a (String ch "") = None -> indexOf b (String ch "") = None ->
  indexOf (a ++ b) (String ch "") = None.
Proof.
  intros Ha Hb. apply indexOf_none. intros j _.
  destruct (Nat.lt_ge_cases j (String.length a)) as [Hj|Hj].
  - rewrite occursAt_app_fits by (simpl; lia). apply indexOf_None. exact Ha.
  - replace j with (String.length a + (j - String.length a)) by lia.
    rewrite occursAt_shift. apply indexOf_None. exact Hb.
Qed.

Lemma getProp_ok (E : HostLib) (h : heap) (v : val) (key : string) :
  ExpressionEvaluator.isNullish v = false -> exists x, getProp E h v key = Ok x.
Proof.
  intros Hv. destruct v as [| |b|n|s|l|f]; simpl in *; try discriminate;
    try (eexists; reflexivity).
  - destruct (String.eqb key "length"); [eexists; reflexivity|].
    destruct (arrayIndex key) as [i|]; [|eexists; reflexivity].
    destruct (nthChar s i); eexists; reflexivity.
  - destruct (lookup l h) as [[ps|vs]|]; [| |eexists; reflexivity].
    + destruct (objGet ps key); eexists; reflexivity.
    + destruct (String.eqb key "length"); [eexists; reflexivity|].
      destruct (arrayIndex key) as [i|]; [|eexists; reflexivity].
      destruct (nth_error vs i); eexists; reflexivity.
Qed.

Lemma loopContext_ok (E : HostLib) (h : heap) (data item : val) (index count : nat) :
  ExpressionEvaluator.isNullish data = false ->
  exists ctx h', loopContext E h data item index count = Ok (ctx, h').
Proof.
  intros Hd. unfold loopContext.
  destruct (getProp_ok E h data "this" Hd) as [x ->]. simpl.
  destruct (alloc _ h) as [ctx h']. eexists. eexists. reflexivity.
Qed.

Lemma mapItems_ok (f : val -> nat -> heap -> option (result (string * heap))) :
  (forall item i hh, exists s h', f item i hh = Some (Ok (s, h'))) ->
  forall items i h, exists ss h2,
    mapItems f items i h = Some (Ok (ss, h2))
    /\ List.length ss = List.length items.
Proof.
  intros Hf. induction items as [|item items IH]; intros i h; cbn [mapItems].
  - exists [], h. split; reflexivity.
  - destruct (Hf item i h) as (s & h1 & ->).
    destruct (IH (S i) h1) as (ss & h2 & -> & Hlen).
    exists (s :: ss), h2. split; [reflexivity|]. simpl. rewrite Hlen. reflexivity.
Qed.

Lemma renderItem_ok (E : HostLib) (content : string) (data : val) (count : nat) :
  ExpressionEvaluator.isNullish data = false ->
  forall item i hh, exists s h',
    renderItem E (fun c d h0 => Some (processLoops E c d h0)) content data count
      item i hh = Some (Ok (s, h')).
Proof.
  intros Hd item i hh. unfold renderItem.
  destruct (loopContext_ok E hh data item i count Hd) as (ctx & h1 & ->).
  destruct (processLoops E content ctx h1) as [pc h2].
  destruct (processVariablesInLoop E _ ctx h2) as [s h3].
  exists s, h3. reflexivity.
Qed.

(** One loop whose opening tag is the first of the text, whose path has
    no brace and whose closing tag is the one the balanced search finds:
    the copies of the body, one per item, joined by line feeds, between
    the text before and the rest of the text processed in its turn. *)
Lemma processLoops_each (E : HostLib) (pre path body post : string)
    (data : val) (h : heap) (arr : val) (h1 : heap) (items : list val) :
  indexOf (pre ++ loopStartMarker) loopStartMarker = Some (String.length pre) ->
  indexOf path "}" = None ->
  findClose (S (String.length (body ++ loopEndMarker ++ post)))
    (body ++ loopEndMarker ++ post) 1 0 = Some (String.length body) ->
  ExpressionEvaluator.isNullish data = false ->
  evaluate E h (trim path) data = Ok (arr, h1) ->
  isArray h1 arr = Some items ->
  exists copies h2,
    mapItems
      (renderItem E (fun c d hh => Some (processLoops E c d hh))
         (trimContent body) data (List.length items)) items 0 h1
    = Some (Ok (copies, h2))
    /\ List.length copies = List.length items
    /\ processLoops E
         (pre ++ loopStartMarker ++ path ++ "}" ++ body ++ loopEndMarker ++ post)
         data h
       = (pre ++ join lineFeed copies ++ fst (processLoops E post data h2),
          snd (processLoops E post data h2)).
Proof.
  intros Hopen Hpath Hclose Hdata Heval Harr.
  destruct (mapItems_ok _ (renderItem_ok E (trimContent body) data
                             (List.length items) Hdata) items 0 h1)
    as (copies & h2 & Hmap & Hlen).
  exists copies, h2. split; [exact Hmap|]. split; [exact Hlen|].
  set (tail := body ++ loopEndMarker ++ post) in *.
  set (tag := loopStartMarker ++ path) in *.
  assert (Hxml : pre ++ loopStartMarker ++ path ++ "}" ++ tail
                 = (pre ++ tag ++ "}") ++ tail).
  { subst tag. rewrite !app_assoc. reflexivity. }
  unfold processLoops at 1.
  change (pre ++ loopStartMarker ++ path ++ "}" ++ body ++ loopEndMarker ++ post)
    with (pre ++ loopStartMarker ++ path ++ "}" ++ tail).
  set (xml := pre ++ loopStartMarker ++ path ++ "}" ++ tail) in *.
  assert (Ho : indexOfFrom xml loopStartMarker 0 = Some (String.length pre)).
  { rewrite indexOfFrom_0. subst xml. apply indexOf_after. exact Hopen. }
  assert (He : indexOfFrom xml "}" (String.length pre)
               = Some (String.length pre + String.length tag)).
  { subst xml. pose proof (indexOfFrom_shift pre
      (loopStartMarker ++ path ++ "}" ++ tail) "}" 0 ltac:(lia)) as Hs.
    rewrite Nat.add_0_r in Hs. rewrite Hs. rewrite indexOfFrom_0.
    assert (Htag : indexOf tag "}" = None)
      by (subst tag; apply indexOf_char_app; [reflexivity|exact Hpath]).
    assert (Hi : indexOf (loopStartMarker ++ path ++ "}" ++ tail) "}"
                 = Some (String.length tag))
      by exact (indexOf_char_after tag tail "}" Htag).
    rewrite Hi. reflexivity. }
  assert (Hhead : String.length (pre ++ tag ++ "}")
                  = String.length pre + String.length tag + 1).
  { rewrite !length_app. simpl. lia. }
  assert (Hc : findClose (S (String.length xml)) xml 1
                 (String.length pre + String.length tag + 1)
               = Some (String.length pre + String.length tag + 1
                       + String.length body)).
  { pose proof (findClose_suffix (pre ++ tag ++ "}") tail 0) as Hs.
    rewrite Nat.add_0_r, <- Hxml, Hhead, Hclose in Hs. rewrite Hs.
    reflexivity. }
  assert (Hp : substring xml (String.length pre + String.length loopStartMarker)
                 (String.length pre + String.length tag) = path).
  { subst xml. rewrite substring_shift.
    replace (String.length tag)
      with (String.length loopStartMarker + String.length path)
      by (subst tag; rewrite length_app; reflexivity).
    pose proof (substring_shift loopStartMarker (path ++ "}" ++ tail) 0
                  (String.length path)) as Hs.
    rewrite Nat.add_0_r in Hs. rewrite Hs.
    rewrite substring_0. apply take_app_length. }
  assert (Hb : substring xml (String.length pre + String.length tag + 1)
                 (String.length pre + String.length tag + 1 + String.length body)
               = body).
  { pose proof (substring_shift (pre ++ tag ++ "}") tail 0
                  (String.length body)) as Hs.
    rewrite Nat.add_0_r, <- Hxml, Hhead in Hs. rewrite Hs.
    rewrite substring_0. subst tail. apply take_app_length. }
  assert (Hbefore : substring xml 0 (String.length pre) = pre).
  { subst xml. rewrite substring_0. apply take_app_length. }
  assert (Hafter : substringFrom xml
                     (String.length pre + String.length tag + 1
                      + String.length body + String.length loopEndMarker)
                   = post).
  { rewrite Hxml, <- Hhead. unfold substringFrom.
    rewrite <- Nat.add_assoc. rewrite drop_app_plus. subst tail.
    rewrite <- length_app, <- app_assoc. apply drop_app_length. }
  assert (Hxl : String.length body + String.length post < String.length xml).
  { rewrite Hxml. subst tail. rewrite !length_app. simpl. lia. }
  cbn [loopFrom]. rewrite Ho, He, Hc, Hp, Hb, Hbefore, Hafter.
  pose proof (trimContent_length body) as Htl.
  rewrite (expandLoop_agree E _ (fun c d hh => Some (processLoops E c d hh)))
    by (intros d hh; apply processLoops_fuel; lia).
  unfold expandLoop. rewrite Heval, Harr, Hmap.
  rewrite <- length_app, <- app_assoc.
  rewrite loopFrom_shift. rewrite processLoops_fuel by lia.
  cbn [option_map]. unfold prepend. rewrite app_assoc. reflexivity.
Qed.

End EachFacts.

Module LoopClaims.
Import JsString StringFacts Js TemplateEngine CloseFacts LoopFacts ShiftFacts EachFacts Scenario.

(** A body without loop tags is closed by the tag that follows it. *)
Lemma flat_balancedBody (body post : string) :
  indexOf (body ++ loopEndMarker) loopEndMarker = Some (String.length body) ->
  indexOf (body ++ loopEndMarker) loopStartMarker = None ->
  balancedBody body post.
Proof.
  intros Hclose Hopen. unfold balancedBody. cbn [findClose].
  assert (Hlt : Nat.ltb 0 (String.length (body ++ loopEndMarker ++ post)) = true)
    by (apply Nat.ltb_lt; rewrite !length_app; simpl; lia).
  rewrite Hlt. change (Nat.ltb 0 1) with true. cbn [andb].
  unfold substringFrom. rewrite drop_0.
  rewrite (indexOf_after body loopEndMarker post Hclose).
  change (Nat.eqb (1 - 1) 0) with true. cbn [Nat.add].
  destruct (indexOf (body ++ loopEndMarker ++ post) loopStartMarker) as [o|] eqn:Ho;
    [|reflexivity].
  destruct (Nat.ltb_spec o (String.length body)) as [Ho_lt|Ho_ge]; [|reflexivity].
  exfalso. apply indexOf_Some in Ho. destruct Ho as (Hocc & _ & _).
  rewrite <- app_assoc in Hocc.
  rewrite occursAt_app_fits in Hocc by (rewrite length_app; simpl; lia).
  rewrite (indexOf_None _ _ Hopen) in Hocc. discriminate.
Qed.





(** A loop over the empty list leaves nothing. *)
Example each_over_the_empty_list :
  fst (processLoops bareHost "A${#each items}x${/each}Z"
         (fst (allocTree (TObj [("items", TArr [])]) []))
         (snd (allocTree (TObj [("items", TArr [])]) [])))
  = "AZ".
Proof. vm_compute. reflexivity. Qed.


End LoopClaims.



(** ** The matcher and the row cleaner *)

Module RegexFacts.
Import JsString Regex StringFacts.

Lemma run_Star (R : Type) (greedy : bool) (a : re) (k : mstate -> option R)
    (st : mstate) :
  run (Star greedy a) k st = starLoop greedy a k (S (String.length (rest st))) st.
Proof. reflexivity. Qed.

Lemma pos_advance (s : string) :
  forall st, pos (advance s st) = pos st + String.length s.
Proof.
  induction s as [|c s IH]; intros st; simpl; [lia|]. rewrite IH. simpl. lia.
Qed.

Lemma rest_advance (s : string) :
  forall st, rest (advance s st) = drop (String.length s) (rest st).
Proof.
  induction s as [|c s IH]; intros st; simpl; [reflexivity|].
  rewrite IH. simpl. destruct (rest st) as [|d r]; simpl.
  - apply drop_empty.
  - reflexivity.
Qed.

Lemma caps_advance (s : string) : forall st, caps (advance s st) = caps st.
Proof.
  induction s as [|c s IH]; intros st; simpl; [reflexivity|]. rewrite IH. reflexivity.
Qed.

Lemma advance_app (a b : string) :
  forall st, advance (a ++ b) st = advance b (advance a st).
Proof. induction a as [|c a IH]; intros st; simpl; [reflexivity|]. apply IH. Qed.

(** A literal text matches when the text left starts with it. *)
Lemma run_Lit (R : Type) (s : string) (k : mstate -> option R) :
  forall st,
    run (Lit s) k st = if startsWith (rest st) s then k (advance s st) else None.
Proof.
  induction s as [|c s IH]; intros st.
  - rewrite startsWith_empty. reflexivity.
  - cbn [Lit]. unfold Ch. cbn [run].
    destruct (rest st) as [|d r] eqn:Hrest; [reflexivity|].
    cbn [startsWith].
    destruct (Ascii.eqb_spec c d) as [<-|Hne]; [|reflexivity].
    cbn [andb]. rewrite IH. cbn [advance step rest]. rewrite Hrest.
    reflexivity.
Qed.

Lemma filter_all (A : Type) (l : list A) : filter (fun _ => true) l = l.
Proof. induction l as [|x l IH]; simpl; [reflexivity|]. rewrite IH. reflexivity. Qed.

Lemma clearCaps_nil (st : mstate) : clearCaps [] st = st.
Proof. destruct st as [p pv rs cs]. unfold clearCaps. simpl. rewrite filter_all. reflexivity. Qed.

(** One more turn of a star over a class of characters. *)
Lemma again_class (R : Type) (p : ascii -> bool) (loop : mstate -> option R)
    (st : mstate) :
  run (Chr p) (fun st' => if Nat.leb (pos st') (pos st) then None else loop st')
    (clearCaps (groupsOf (Chr p)) st)
  = match rest st with
    | String c r => if p c then loop (step c r st) else None
    | EmptyString => None
    end.
Proof.
  cbn [groupsOf]. rewrite clearCaps_nil. cbn [run].
  destruct (rest st) as [|c r]; [reflexivity|].
  destruct (p c); [|reflexivity]. cbn [step pos].
  destruct (Nat.leb_spec (S (pos st)) (pos st)); [lia|reflexivity].
Qed.

(** A greedy star over a class, before a continuation that fails as long
    as a character of the class follows: the star takes all the
    characters of the class. *)
Lemma starLoop_greedy_class (R : Type) (p : ascii -> bool)
    (k : mstate -> option R) (a : string) :
  forall fuel st b,
    rest st = a ++ b -> allIn p a = true -> headIn p b = false ->
    String.length a < fuel ->
    (forall st', headIn p (rest st') = true -> k st' = None) ->
    starLoop true (Chr p) k fuel st = k (advance a st).
Proof.
  induction a as [|c a IH]; intros fuel st b Hrest Hall Hhead Hfuel Hk;
    (destruct fuel as [|fuel]; [simpl in Hfuel; lia|]);
    cbn [starLoop]; rewrite again_class; rewrite Hrest; cbn [append].
  - destruct b as [|d b]; [reflexivity|]. cbn [headIn] in Hhead. rewrite Hhead.
    reflexivity.
  - cbn [allIn] in Hall. apply andb_true_iff in Hall. destruct Hall as [Hc Hall].
    rewrite Hc. fold (starLoop true (Chr p) k).
    rewrite (IH fuel (step c (a ++ b) st) b eq_refl Hall Hhead
               ltac:(simpl in Hfuel; lia) Hk).
    cbn [advance]. rewrite Hrest. cbn [append drop].
    destruct (k (advance a (step c (a ++ b) st))) as [x|] eqn:Hres; [reflexivity|].
    apply Hk. rewrite Hrest. cbn [append headIn]. exact Hc.
Qed.

(** A lazy star over any character: the continuation is tried after no
    character, after one, and so on; the first success is the result. *)
Lemma starLoop_lazy_any (R : Type) (k : mstate -> option R) (a : string) :
  forall fuel st b x,
    rest st = a ++ b -> String.length a < fuel ->
    (forall a1 a2, a = a1 ++ a2 -> a2 <> "" -> k (advance a1 st) = None) ->
    k (advance a st) = Some x ->
    starLoop false AnyChar k fuel st = Some x.
Proof.
  induction a as [|c a IH]; intros fuel st b x Hrest Hfuel Hnone Hsome;
    (destruct fuel as [|fuel]; [simpl in Hfuel; lia|]);
    cbn [starLoop].
  - cbn [advance] in Hsome. rewrite Hsome. reflexivity.
  - pose proof (Hnone "" (String c a) eq_refl ltac:(discriminate)) as H0.
    cbn [advance] in H0. rewrite H0.
    unfold AnyChar. rewrite again_class. rewrite Hrest. cbn [append].
    fold AnyChar. fold (starLoop false AnyChar k).
    apply (IH fuel (step c (a ++ b) st) b x eq_refl ltac:(simpl in Hfuel; lia)).
    + intros a1 a2 Ha Ha2.
      pose proof (Hnone (String c a1) a2 ltac:(rewrite Ha; reflexivity) Ha2) as H.
      cbn [advance] in H. rewrite Hrest in H. exact H.
    + cbn [advance] in Hsome. rewrite Hrest in Hsome. exact Hsome.
Qed.

End RegexFacts.

Module RowFacts.
Import JsString Regex StringFacts RegexFacts TemplateEngine.

Lemma advance_read (s : string) :
  forall st r,
    rest st = s ++ r ->
    advance s st
    = MState (pos st + String.length s) (lastChar s (prev st)) r (caps st).
Proof.
  induction s as [|c s IH]; intros st r Hrest.
  - destruct st as [p pv rs cs]. simpl in *. subst rs. f_equal. lia.
  - cbn [advance]. rewrite Hrest. cbn [append drop].
    rewrite (IH (step c (s ++ r) st) r eq_refl). cbn [step pos prev caps lastChar].
    f_equal. simpl. lia.
Qed.

Lemma allIn_NotCh (c : ascii) (s : string) :
  indexOf s (String c "") = None ->
  allIn (fun d => negb (Ascii.eqb c d)) s = true.
Proof.
  intros H. pose proof (indexOf_None _ _ H) as Hocc. clear H.
  induction s as [|d s IH]; [reflexivity|]. cbn [allIn].
  pose proof (Hocc 0) as H0. unfold occursAt in H0. cbn [drop startsWith] in H0.
  assert (Hd : Ascii.eqb c d = false).
  { destruct (Ascii.eqb c d); [|reflexivity].
    destruct s; discriminate. }
  rewrite Hd. cbn [negb andb]. apply IH. intros j. exact (Hocc (S j)).
Qed.

Lemma run_Seq (R : Type) (a b : re) (k : mstate -> option R) (st : mstate) :
  run (Seq a b) k st = run a (run b k) st.
Proof. reflexivity. Qed.

Lemma run_Group (R : Type) (i : nat) (a : re) (k : mstate -> option R)
    (st : mstate) :
  run (Group i a) k st = run a (fun st' => k (setCap i (pos st) (pos st') st')) st.
Proof. reflexivity. Qed.

Lemma run_Ch (R : Type) (c : ascii) (k : mstate -> option R) (st : mstate) :
  run (Ch c) k st
  = match rest st with
    | String d r => if Ascii.eqb c d then k (step d r st) else None
    | EmptyString => None
    end.
Proof. reflexivity. Qed.

(** A row: [<w:tr], attributes without [>], [>], a content, then the
    first [</w:tr>]. *)
Lemma matchAt_tableRow (whole : string) (p : nat) (pv : option ascii)
    (attrs content tail : string) :
  indexOf attrs ">" = None ->
  indexOf (content ++ "</w:tr>") "</w:tr>" = Some (String.length content) ->
  let row := "<w:tr" ++ attrs ++ ">" ++ content ++ "</w:tr>" in
  let from := p + 5 + String.length attrs + 1 in
  matchAt tableRowRegex whole p pv (row ++ tail)
  = Some (RMatch p (substring whole p (p + String.length row))
            [(1, substring whole from (from + String.length content))]).
Proof.
  intros Hattrs Hcontent row from.
  assert (Hrow : row ++ tail
                 = "<w:tr" ++ attrs ++ ">" ++ content ++ "</w:tr>" ++ tail).
  { subst row. rewrite !app_assoc. reflexivity. }
  rewrite Hrow. unfold matchAt, tableRowRegex. cbn [seqs]. rewrite run_Seq.
  rewrite run_Lit. cbn [rest]. rewrite startsWith_app.
  rewrite (advance_read "<w:tr" _ (attrs ++ ">" ++ content ++ "</w:tr>" ++ tail))
    by reflexivity.
  cbn [pos prev caps lastChar String.length].
  rewrite run_Seq, run_Star. unfold NotCh.
  rewrite (starLoop_greedy_class _ (fun d => negb (Ascii.eqb ">" d)) _ attrs
             _ _ (">" ++ content ++ "</w:tr>" ++ tail)).
  - rewrite (advance_read attrs _ (">" ++ content ++ "</w:tr>" ++ tail))
      by reflexivity.
    cbn [pos prev caps rest]. rewrite run_Seq, run_Ch. cbn [rest append].
    rewrite Ascii.eqb_refl. cbn [step pos prev caps rest].
    rewrite run_Seq, run_Group, run_Star.
    rewrite (starLoop_lazy_any _ _ content _ _ ("</w:tr>" ++ tail)
               (MState (p + 5 + String.length attrs + 1 + String.length content
                        + 7) (Some ">"%char) tail
                  [(1, (p + 5 + String.length attrs + 1,
                        p + 5 + String.length attrs + 1 + String.length content))])).
    + cbn [pos caps map fst snd]. subst row from.
      replace (p + 5 + String.length attrs + 1 + String.length content + 7)
        with (p + String.length ("<w:tr" ++ attrs ++ ">" ++ content ++ "</w:tr>"))
        by (rewrite !length_app; simpl; lia).
      reflexivity.
    + reflexivity.
    + cbn [rest step]. rewrite length_app. simpl. lia.
    + intros a1 a2 Ha Ha2. rewrite run_Lit.
      rewrite (advance_read a1 _ (a2 ++ "</w:tr>" ++ tail))
        by (cbn [rest]; rewrite Ha, app_assoc; reflexivity).
      cbn [setCap rest pos prev caps].
      assert (Hocc : occursAt (content ++ "</w:tr>" ++ tail) "</w:tr>"
                       (String.length a1) = false).
      { pose proof (EachFacts.indexOf_after content "</w:tr>" tail Hcontent) as Hi.
        apply indexOf_Some in Hi. destruct Hi as (_ & _ & Hfirst).
        apply Hfirst. rewrite Ha, length_app.
        destruct a2; [contradiction|simpl; lia]. }
      unfold occursAt in Hocc. rewrite Ha, app_assoc, drop_app_length in Hocc.
      rewrite Hocc. reflexivity.
    + rewrite run_Lit.
      rewrite (advance_read content _ ("</w:tr>" ++ tail)) by reflexivity.
      cbn [setCap rest pos prev caps]. rewrite startsWith_app.
      rewrite (advance_read "</w:tr>" _ tail) by reflexivity.
      cbn [step setCap pos prev rest caps lastChar String.length]. f_equal.
      f_equal; try reflexivity; try lia. f_equal. f_equal. f_equal; lia.
  - reflexivity.
  - exact (allIn_NotCh ">" attrs Hattrs).
  - reflexivity.
  - cbn [rest]. rewrite !length_app. simpl. lia.
  - intros st' Hhead. rewrite run_Seq, run_Ch.
    destruct (rest st') as [|d r]; [reflexivity|]. cbn [headIn] in Hhead.
    destruct (Ascii.eqb ">" d); [discriminate|reflexivity].
Qed.

(** No row starts where the text does not start with [<w:tr]. *)
Lemma matchAt_no_tableRow (whole : string) (p : nat) (pv : option ascii)
    (rs : string) :
  startsWith rs "<w:tr" = false -> matchAt tableRowRegex whole p pv rs = None.
Proof.
  intros H. unfold matchAt, tableRowRegex. cbn [seqs]. rewrite run_Seq.
  rewrite run_Lit. cbn [rest]. rewrite H. reflexivity.
Qed.

End RowFacts.

Module RegexShiftFacts.
Import JsString Regex StringFacts RegexFacts.

Lemma filter_shiftCap (d : nat) (gs : list nat) (l : list (nat * (nat * nat))) :
  filter (fun e => negb (existsb (Nat.eqb (fst e)) gs)) (map (shiftCap d) l)
  = map (shiftCap d) (filter (fun e => negb (existsb (Nat.eqb (fst e)) gs)) l).
Proof.
  induction l as [|e l IH]; [reflexivity|]. cbn [map filter shiftCap fst].
  destruct (negb (existsb (Nat.eqb (fst e)) gs)); cbn [map]; rewrite IH; reflexivity.
Qed.

Lemma clearCaps_shifted (d : nat) (gs : list nat) (st st' : mstate) :
  shifted d st st' -> shifted d (clearCaps gs st) (clearCaps gs st').
Proof.
  intros (Hp & Hr & Hc). unfold shifted, clearCaps. cbn [pos rest caps].
  split; [exact Hp|]. split; [exact Hr|]. rewrite Hc. apply filter_shiftCap.
Qed.

Lemma starLoop_shift (d : nat) (greedy : bool) (a : re)
    (k k' : mstate -> option mstate) :
  (forall k1 k1',
     (forall s s', shifted d s s' -> shiftedResult d (k1 s) (k1' s')) ->
     forall st st', shifted d st st' ->
       shiftedResult d (run a k1 st) (run a k1' st')) ->
  (forall s s', shifted d s s' -> shiftedResult d (k s) (k' s')) ->
  forall fuel st st', shifted d st st' ->
    shiftedResult d (starLoop greedy a k fuel st) (starLoop greedy a k' fuel st').
Proof.
  intros Ha Hk. induction fuel as [|fuel IH]; intros st st' Hst; [exact I|].
  cbn [starLoop].
  assert (Hagain :
    shiftedResult d
      (run a (fun s => if Nat.leb (pos s) (pos st) then None
                       else starLoop greedy a k fuel s)
         (clearCaps (groupsOf a) st))
      (run a (fun s => if Nat.leb (pos s) (pos st') then None
                       else starLoop greedy a k' fuel s)
         (clearCaps (groupsOf a) st'))).
  { apply Ha; [|apply clearCaps_shifted; exact Hst].
    intros s s' Hs. destruct Hst as (Hp & _). destruct Hs as (Hps & Hrs & Hcs).
    rewrite Hp, Hps.
    replace (Nat.leb (d + pos s) (d + pos st)) with (Nat.leb (pos s) (pos st))
      by (destruct (Nat.leb_spec (pos s) (pos st));
          destruct (Nat.leb_spec (d + pos s) (d + pos st)); (reflexivity || lia)).
    destruct (Nat.leb (pos s) (pos st)); [exact I|].
    apply IH. split; [exact Hps|]. split; [exact Hrs|exact Hcs]. }
  pose proof (Hk st st' Hst) as Hkst.
  destruct greedy.
  - destruct (run a _ (clearCaps (groupsOf a) st)),
             (run a _ (clearCaps (groupsOf a) st'));
      cbn [shiftedResult] in Hagain; try contradiction; [exact Hagain|exact Hkst].
  - destruct (k st), (k' st'); cbn [shiftedResult] in Hkst; try contradiction;
      [exact Hkst|exact Hagain].
Qed.

(** The match of a pattern without anchors does not depend on where the
    text left lies in the whole text. *)
Lemma run_shift (d : nat) (r : re) :
  anchorFree r = true ->
  forall k k',
    (forall s s', shifted d s s' -> shiftedResult d (k s) (k' s')) ->
    forall st st', shifted d st st' ->
      shiftedResult d (run r k st) (run r k' st').
Proof.
  induction r as [|p|a IHa b IHb|a IHa b IHb|g a IHa|i a IHa| | |];
    intros Hr k k' Hk st st' Hst; cbn [anchorFree] in Hr; try discriminate.
  - apply Hk. exact Hst.
  - cbn [run]. destruct Hst as (Hp & Hrest & Hc). rewrite Hrest.
    destruct (rest st) as [|c s]; [exact I|].
    destruct (p c); [|exact I]. apply Hk. unfold shifted. cbn [step pos rest caps].
    split; [lia|]. split; [reflexivity|exact Hc].
  - apply andb_true_iff in Hr. destruct Hr as [Hra Hrb]. cbn [run].
    apply (IHa Hra); [|exact Hst]. intros s s' Hs. apply (IHb Hrb); assumption.
  - apply andb_true_iff in Hr. destruct Hr as [Hra Hrb]. cbn [run].
    pose proof (IHa Hra k k' Hk st st' Hst) as H1.
    destruct (run a k st), (run a k' st'); cbn [shiftedResult] in H1;
      try contradiction; [exact H1|].
    apply (IHb Hrb); assumption.
  - rewrite !run_Star. destruct Hst as (Hp & Hrest & Hc). rewrite Hrest.
    apply starLoop_shift; [exact (IHa Hr)|exact Hk|].
    split; [exact Hp|]. split; [exact Hrest|exact Hc].
  - cbn [run]. apply (IHa Hr); [|exact Hst]. intros s s' Hs. apply Hk.
    destruct Hst as (Hp & _). destruct Hs as (Hps & Hrs & Hcs).
    unfold shifted. cbn [setCap pos rest caps map shiftCap fst snd].
    split; [exact Hps|]. split; [exact Hrs|]. rewrite Hp, Hps, Hcs. reflexivity.
  - cbn [run]. destruct Hst as (Hp & Hrest & Hc). rewrite Hrest.
    destruct (rest st) eqn:Hst; [|exact I]. apply Hk.
    split; [exact Hp|]. split; [congruence|exact Hc].
Qed.

Lemma matchAt_shift (r : re) (done whole : string) (p : nat)
    (pv pv' : option ascii) (rs : string) :
  anchorFree r = true ->
  matchAt r (done ++ whole) (String.length done + p) pv' rs
  = option_map (shiftMatch (String.length done)) (matchAt r whole p pv rs).
Proof.
  intros Hr. unfold matchAt.
  pose proof (run_shift (String.length done) r Hr (fun st => Some st)
                (fun st => Some st) (fun s s' H => H)
                (MState p pv rs []) (MState (String.length done + p) pv' rs [])
                (conj eq_refl (conj eq_refl eq_refl))) as H.
  destruct (run r _ (MState p pv rs [])) as [s|],
           (run r _ (MState (String.length done + p) pv' rs [])) as [s'|];
    cbn [shiftedResult] in H; try contradiction; [|reflexivity].
  destruct H as (Hp & _ & Hc). cbn [option_map]. unfold shiftMatch.
  cbn [m_index m_text m_groups]. rewrite Hp, Hc, substring_shift. f_equal.
  f_equal. rewrite map_map. apply map_ext. intros [i [a b]].
  cbn [shiftCap fst snd]. rewrite substring_shift. reflexivity.
Qed.

Lemma scan_shift (r : re) (done whole : string) :
  anchorFree r = true ->
  forall rs p pv pv' skip,
    scan r (done ++ whole) (String.length done + p) pv' rs skip
    = map (shiftMatch (String.length done)) (scan r whole p pv rs skip).
Proof.
  intros Hr. induction rs as [|c rs IH]; intros p pv pv' skip;
    destruct skip as [|skip]; cbn [scan]; try reflexivity.
  - rewrite (matchAt_shift r done whole p pv pv' "" Hr).
    destruct (matchAt r whole p pv ""); reflexivity.
  - rewrite (matchAt_shift r done whole p pv pv' (String c rs) Hr).
    replace (S (String.length done + p)) with (String.length done + S p) by lia.
    destruct (matchAt r whole p pv (String c rs)) as [m|]; cbn [option_map map].
    + f_equal. cbn [shiftMatch m_text]. apply IH.
    + apply IH.
  - replace (S (String.length done + p)) with (String.length done + S p) by lia.
    apply IH.
Qed.

Lemma rebuild_shift (T : Type) (cb : rmatch -> T -> string * T)
    (done s : string) :
  readsTexts cb ->
  forall ms from st,
    rebuild cb (done ++ s) (String.length done + from)
      (map (shiftMatch (String.length done)) ms) st
    = rebuild cb s from ms st.
Proof.
  intros Hcb. induction ms as [|m ms IH]; intros from st; cbn [map rebuild].
  - rewrite drop_app_plus. reflexivity.
  - rewrite Hcb. destruct (cb m st) as [rep st1].
    replace (m_end (shiftMatch (String.length done) m))
      with (String.length done + m_end m)
      by (unfold m_end, shiftMatch; cbn [m_index m_text]; lia).
    rewrite IH. cbn [shiftMatch m_index]. rewrite substring_shift. reflexivity.
Qed.

(** The search passes over a text where nothing matches. *)
Lemma scan_pass (r : re) (whole : string) (pre : string) :
  forall rs p pv,
    (forall j pv', j < String.length pre ->
       matchAt r whole (p + j) pv' (drop j (pre ++ rs)) = None) ->
    scan r whole p pv (pre ++ rs) 0
    = scan r whole (p + String.length pre) (lastChar pre pv) rs 0.
Proof.
  induction pre as [|c pre IH]; intros rs p pv Hnone.
  - cbn [append String.length lastChar]. rewrite Nat.add_0_r. reflexivity.
  - cbn [append scan].
    pose proof (Hnone 0 pv ltac:(simpl; lia)) as H0.
    rewrite Nat.add_0_r in H0. cbn [drop append] in H0. rewrite H0.
    rewrite IH.
    + cbn [String.length lastChar]. f_equal. lia.
    + intros j pv' Hj. pose proof (Hnone (S j) pv' ltac:(simpl; lia)) as H.
      cbn [drop append] in H. replace (S p + j) with (p + S j) by lia. exact H.
Qed.

(** The search skips the characters of the last match. *)
Lemma scan_skip (r : re) (whole : string) (a : string) :
  forall rs p pv,
    scan r whole p pv (a ++ rs) (String.length a)
    = scan r whole (p + String.length a) (lastChar a pv) rs 0.
Proof.
  induction a as [|c a IH]; intros rs p pv.
  - cbn [append String.length lastChar]. rewrite Nat.add_0_r. reflexivity.
  - cbn [append String.length scan]. rewrite IH. cbn [lastChar]. f_equal. lia.
Qed.

End RegexShiftFacts.

Module ReplaceFacts.
Import JsString Regex StringFacts RegexFacts RegexShiftFacts.

(** The replacement of a text whose first match is known: the text
    before is copied, the match is replaced, the text after is replaced
    in its turn. *)
Lemma replaceSt_first (T : Type) (r : re) (cb : rmatch -> T -> string * T)
    (pre M post : string) (m : rmatch) (st : T) :
  anchorFree r = true -> readsTexts cb ->
  (forall j pv, j < String.length pre ->
     matchAt r (pre ++ M ++ post) j pv (drop j (pre ++ M ++ post)) = None) ->
  (forall pv, matchAt r (pre ++ M ++ post) (String.length pre) pv (M ++ post)
              = Some m) ->
  m_index m = String.length pre -> m_text m = M -> M <> "" ->
  replaceSt r cb (pre ++ M ++ post) st
  = (pre ++ fst (cb m st) ++ fst (replaceSt r cb post (snd (cb m st))),
     snd (replaceSt r cb post (snd (cb m st)))).
Proof.
  intros Hr Hcb Hnone Hmatch Hindex Htext HM.
  unfold replaceSt, matchAll.
  rewrite (scan_pass r (pre ++ M ++ post) pre (M ++ post) 0 None)
    by (intros j pv Hj; apply Hnone; exact Hj).
  cbn [Nat.add].
  destruct M as [|c M']; [contradiction|]. cbn [append scan].
  pose proof (Hmatch (lastChar pre None)) as Hm. cbn [append] in Hm. rewrite Hm.
  rewrite Htext. cbn [String.length Nat.sub]. rewrite Nat.sub_0_r.
  rewrite scan_skip.
  assert (Hxml : pre ++ String c (M' ++ post) = (pre ++ String c M') ++ post)
    by (rewrite app_assoc; reflexivity).
  assert (Hend : S (String.length pre) + String.length M'
                 = String.length (pre ++ String c M') + 0)
    by (rewrite length_app; simpl; lia).
  rewrite Hend. rewrite Hxml.
  rewrite (scan_shift r (pre ++ String c M') post Hr post 0 None).
  cbn [rebuild]. destruct (cb m st) as [rep st1]. cbn [fst snd].
  replace (m_end m) with (String.length (pre ++ String c M') + 0)
    by (unfold m_end; rewrite Hindex, Htext, length_app; simpl; lia).
  rewrite (rebuild_shift T cb (pre ++ String c M') post Hcb).
  destruct (rebuild cb post 0 (scan r post 0 None post 0) st1) as [tl st2].
  cbn [fst snd]. rewrite Hindex, <- Hxml.
  rewrite ShiftFacts.substring_0, take_app_length. reflexivity.
Qed.

End ReplaceFacts.

Module RowClaims.
Import JsString Regex StringFacts RegexFacts RowFacts RegexShiftFacts
       ReplaceFacts TemplateEngine.

Lemma no_text_all_empty (A : Type) (f : A -> string) (l : list A) :
  negb (existsb (fun x => Nat.ltb 0 (String.length (f x))) l)
  = forallb (fun x => String.eqb (f x) "") l.
Proof.
  induction l as [|x l IH]; [reflexivity|]. cbn [existsb forallb].
  rewrite negb_orb, IH. destruct (f x); reflexivity.
Qed.

(** The decision of the callback on a row. *)
Lemma keepRowCallback_blank (m : rmatch) :
  keepRowCallback m = if blankLeaves (groupOr m 1 "") then "" else m_text m.
Proof.
  unfold keepRowCallback, blankLeaves.
  destruct (matchAll textLeafRegex (groupOr m 1 "")) as [|leaf leaves];
    [reflexivity|].
  rewrite (no_text_all_empty rmatch (fun x => innerText (m_text x))).
  reflexivity.
Qed.

Lemma keepRowCallback_readsTexts :
  readsTexts (fun m (_ : unit) => (keepRowCallback m, tt)).
Proof. intros d m st. reflexivity. Qed.

(** The first row of a text: kept or dropped, and the text after it
    cleaned in its turn. *)
Lemma dropBlankRows_first (pre attrs content post : string) :
  indexOf (pre ++ "<w:tr") "<w:tr" = Some (String.length pre) ->
  indexOf attrs ">" = None ->
  indexOf (content ++ "</w:tr>") "</w:tr>" = Some (String.length content) ->
  let row := "<w:tr" ++ attrs ++ ">" ++ content ++ "</w:tr>" in
  dropBlankRows (pre ++ row ++ post)
  = pre ++ (if blankLeaves content then "" else row) ++ dropBlankRows post.
Proof.
  intros Hpre Hattrs Hcontent row.
  set (m := RMatch (String.length pre) row [(1, content)]).
  unfold dropBlankRows, replaceFn.
  rewrite (replaceSt_first unit tableRowRegex _ pre row post m tt eq_refl
             keepRowCallback_readsTexts).
  - cbn [fst snd]. rewrite keepRowCallback_blank. reflexivity.
  - intros j pv Hj. apply matchAt_no_tableRow.
    assert (Hrow : pre ++ row ++ post
                   = pre ++ "<w:tr" ++ (attrs ++ ">" ++ content ++ "</w:tr>") ++ post)
      by (subst row; rewrite !app_assoc; reflexivity).
    rewrite Hrow.
    pose proof (EachFacts.indexOf_after pre "<w:tr"
                  ((attrs ++ ">" ++ content ++ "</w:tr>") ++ post) Hpre) as Hi.
    apply indexOf_Some in Hi. destruct Hi as (_ & _ & Hfirst).
    exact (Hfirst j Hj).
  - intros pv.
    pose proof (matchAt_tableRow (pre ++ row ++ post) (String.length pre) pv
                  attrs content post Hattrs Hcontent) as H.
    cbn zeta in H. fold row in H. rewrite H. subst m. f_equal. f_equal.
    + pose proof (substring_shift pre (row ++ post) 0 (String.length row)) as Hs.
      rewrite Nat.add_0_r in Hs. rewrite Hs.
      rewrite ShiftFacts.substring_0. apply take_app_length.
    + f_equal. f_equal.
      replace (String.length pre + 5 + String.length attrs + 1)
        with (String.length (pre ++ "<w:tr" ++ attrs ++ ">") + 0)
        by (rewrite !length_app; simpl; lia).
      replace (String.length (pre ++ "<w:tr" ++ attrs ++ ">") + 0
               + String.length content)
        with (String.length (pre ++ "<w:tr" ++ attrs ++ ">")
              + String.length content) by lia.
      assert (Hrow : pre ++ row ++ post
                     = (pre ++ "<w:tr" ++ attrs ++ ">")
                       ++ content ++ "</w:tr>" ++ post)
        by (subst row; rewrite !app_assoc; reflexivity).
      rewrite Hrow, substring_shift, ShiftFacts.substring_0.
      apply take_app_length.
  - reflexivity.
  - reflexivity.
  - subst row. discriminate.
Qed.

(** A text without [<w:tr] has no row to drop. *)
Lemma dropBlankRows_no_row (xml : string) :
  indexOf xml "<w:tr" = None -> dropBlankRows xml = xml.
Proof.
  intros H. unfold dropBlankRows, replaceFn, replaceSt, matchAll.
  pose proof (scan_pass tableRowRegex xml xml "" 0 None) as Hs.
  rewrite app_empty_r in Hs. rewrite Hs.
  - cbn [scan]. rewrite matchAt_no_tableRow by reflexivity.
    cbn [rebuild fst]. apply drop_0.
  - intros j pv _. apply matchAt_no_tableRow. exact (indexOf_None _ _ H j).
Qed.

(** The last pass of the cleaner. A row is the text from [<w:tr ...>] to
    the next [</w:tr>]. Once the rows of bare empty cells are deleted,
    the first row of the text is dropped when it has at least one text
    leaf and all its leaves are blank, and kept as it is otherwise: with
    a leaf that has text, and also without any leaf. The text before the
    row is copied, the text after it is judged in the same way. *)
Lemma rows_are_judged_by_their_text_leaves
    (xml pre attrs content post : string) :
  replaceStr emptyMultiCellRowPattern ""
    (replaceStr emptyControlRowPattern "" xml)
  = pre ++ ("<w:tr" ++ attrs ++ ">" ++ content ++ "</w:tr>") ++ post ->
  indexOf (pre ++ "<w:tr") "<w:tr" = Some (String.length pre) ->
  indexOf attrs ">" = None ->
  indexOf (content ++ "</w:tr>") "</w:tr>" = Some (String.length content) ->
  removeEmptyControlRows xml
  = pre
    ++ (if blankLeaves content then ""
        else "<w:tr" ++ attrs ++ ">" ++ content ++ "</w:tr>")
    ++ dropBlankRows post
  /\ (matchAll textLeafRegex content = [] -> blankLeaves content = false)
  /\ (indexOf post "<w:tr" = None -> dropBlankRows post = post).
Proof.
  intros Hclean Hpre Hattrs Hcontent. split; [|split].
  - unfold removeEmptyControlRows. rewrite Hclean.
    exact (dropBlankRows_first pre attrs content post Hpre Hattrs Hcontent).
  - intros H. unfold blankLeaves. rewrite H. reflexivity.
  - apply dropBlankRows_no_row.
Qed.

(** A table of two rows, the first with a blank text, the second with
    the text [x]. *)
Lemma rows_are_judged_by_their_text_leaves_witness :
  removeEmptyControlRows Scenario.twoRows
  = "<w:tbl>"
    ++ (if blankLeaves "<w:tc><w:p><w:r><w:t> </w:t></w:r></w:p></w:tc>" then ""
        else "<w:tr" ++ "" ++ ">"
             ++ "<w:tc><w:p><w:r><w:t> </w:t></w:r></w:p></w:tc>" ++ "</w:tr>")
    ++ dropBlankRows
         "<w:tr><w:tc><w:p><w:r><w:t>x</w:t></w:r></w:p></w:tc></w:tr></w:tbl>"
  /\ (matchAll textLeafRegex "<w:tc><w:p><w:r><w:t> </w:t></w:r></w:p></w:tc>" = [] ->
      blankLeaves "<w:tc><w:p><w:r><w:t> </w:t></w:r></w:p></w:tc>" = false)
  /\ (indexOf "<w:tr><w:tc><w:p><w:r><w:t>x</w:t></w:r></w:p></w:tc></w:tr></w:tbl>"
        "<w:tr" = None ->
      dropBlankRows
        "<w:tr><w:tc><w:p><w:r><w:t>x</w:t></w:r></w:p></w:tc></w:tr></w:tbl>"
      = "<w:tr><w:tc><w:p><w:r><w:t>x</w:t></w:r></w:p></w:tc></w:tr></w:tbl>").
Proof.
  exact (rows_are_judged_by_their_text_leaves Scenario.twoRows "<w:tbl>" ""
           "<w:tc><w:p><w:r><w:t> </w:t></w:r></w:p></w:tc>"
           "<w:tr><w:tc><w:p><w:r><w:t>x</w:t></w:r></w:p></w:tc></w:tr></w:tbl>"
           ltac:(vm_compute; reflexivity) eq_refl eq_refl eq_refl).
Defined.

(** The table of two rows loses its first row only. *)
Example blank_row_is_dropped :
  removeEmptyControlRows Scenario.twoRows
  = "<w:tbl><w:tr><w:tc><w:p><w:r><w:t>x</w:t></w:r></w:p></w:tc></w:tr></w:tbl>".
Proof. vm_compute. reflexivity. Qed.

(** A row without any text leaf has no text at all, and is kept. *)
Lemma row_without_text_leaf_is_kept :
  removeEmptyControlRows "<w:tbl><w:tr><w:tc><w:p></w:p></w:tc></w:tr></w:tbl>"
  = "<w:tbl><w:tr><w:tc><w:p></w:p></w:tc></w:tr></w:tbl>".
Proof. vm_compute. reflexivity. Qed.

(** C7, on three tables of one row whose text is empty in the output.
    A row whose only text is the interpolation of a path that the data
    does not have is kept, with an empty text leaf: the cleaner runs
    before the conditions and the interpolations are rendered, when the
    leaf still holds the directive. So is a row whose only text is a
    condition that fails. Of a blank row that starts with its properties
    tag [<w:trPr/>] the opening tag [<w:tr>] is left behind: the first
    pattern takes the properties tag for the start of the row. *)
Theorem rows_without_text_stay_in_the_output :
  fst (renderXml Scenario.bareHost
         "<w:tbl><w:tr><w:tc><w:p><w:r><w:t>${missing}</w:t></w:r></w:p></w:tc></w:tr></w:tbl>"
         Scenario.sampleData Scenario.sampleStore)
  = "<w:tbl><w:tr><w:tc><w:p><w:r><w:t></w:t></w:r></w:p></w:tc></w:tr></w:tbl>"
  /\ fst (renderXml Scenario.bareHost
            "<w:tbl><w:tr><w:tc><w:p><w:r><w:t>${#if flag}yes${/if}</w:t></w:r></w:p></w:tc></w:tr></w:tbl>"
            Scenario.sampleData Scenario.sampleStore)
     = "<w:tbl><w:tr><w:tc><w:p><w:r><w:t></w:t></w:r></w:p></w:tc></w:tr></w:tbl>"
  /\ removeEmptyControlRows
       "<w:tbl><w:tr><w:trPr/><w:tc><w:p><w:t></w:t></w:p></w:tc></w:tr></w:tbl>"
     = "<w:tbl><w:tr></w:tbl>".
Proof. vm_compute. repeat split; reflexivity. Qed.

End RowClaims.

(** ** The first match of a replacement *)

Module FirstMatchFacts.
Import JsString Regex StringFacts RegexFacts RegexShiftFacts.

Lemma reaches_refl (st : mstate) : reaches st st.
Proof. exists "". split; [reflexivity|simpl; lia]. Qed.

Lemma reaches_trans (s1 s2 s3 : mstate) :
  reaches s1 s2 -> reaches s2 s3 -> reaches s1 s3.
Proof.
  intros (a & Ha & Hpa) (b & Hb & Hpb). exists (a ++ b). split.
  - rewrite Ha, Hb, app_assoc. reflexivity.
  - rewrite Hpb, Hpa, length_app. lia.
Qed.

Lemma starLoop_reach (R : Type) (greedy : bool) (a : re)
    (k : mstate -> option R) :
  (forall (k1 : mstate -> option R) st x, run a k1 st = Some x ->
     exists st', reaches st st' /\ k1 st' = Some x) ->
  forall fuel st x,
    starLoop greedy a k fuel st = Some x ->
    exists st', reaches st st' /\ k st' = Some x.
Proof.
  intros Ha. induction fuel as [|fuel IH]; intros st x; [discriminate|].
  cbn [starLoop].
  assert (Hagain :
    run a (fun st' => if Nat.leb (pos st') (pos st) then None
                      else starLoop greedy a k fuel st')
      (clearCaps (groupsOf a) st) = Some x ->
    exists st', reaches st st' /\ k st' = Some x).
  { intros H. apply Ha in H. destruct H as (st1 & Hreach & Hk).
    destruct (Nat.leb (pos st1) (pos st)); [discriminate|].
    apply IH in Hk. destruct Hk as (st2 & Hreach2 & Hk).
    exists st2. split; [|exact Hk].
    apply (reaches_trans st st1 st2); [|exact Hreach2]. exact Hreach. }
  assert (Hnow : k st = Some x -> exists st', reaches st st' /\ k st' = Some x).
  { intros H. exists st. split; [apply reaches_refl|exact H]. }
  destruct greedy.
  - destruct (run a _ (clearCaps (groupsOf a) st)) as [y|] eqn:Hrun.
    + intros [= <-]. apply Hagain. reflexivity.
    + exact Hnow.
  - destruct (k st) as [y|] eqn:Hk.
    + intros [= <-]. apply Hnow. reflexivity.
    + exact Hagain.
Qed.

Lemma reaches_pos (st st' : mstate) : reaches st st' -> pos st <= pos st'.
Proof. intros (a & _ & Hp). lia. Qed.

(** A match is the reading of some characters, at least as many as the
    pattern needs, after which the continuation gives the result. *)
Lemma run_reach (R : Type) (r : re) :
  forall (k : mstate -> option R) st x,
    run r k st = Some x ->
    exists st',
      reaches st st' /\ pos st + minLength r <= pos st' /\ k st' = Some x.
Proof.
  induction r as [|p|a IHa b IHb|a IHa b IHb|g a IHa|i a IHa| | |];
    intros k st x; cbn [minLength].
  - cbn [run]. intros H. exists st.
    split; [apply reaches_refl|]. split; [lia|exact H].
  - cbn [run]. destruct (rest st) as [|c s] eqn:Hrest; [discriminate|].
    destruct (p c); [|discriminate]. intros H.
    exists (step c s st). split; [|split; [cbn [step pos]; lia|exact H]].
    exists (String c ""). cbn [step rest pos]. split; [exact Hrest|simpl; lia].
  - cbn [run]. intros H. apply IHa in H. destruct H as (s1 & H1 & Hp1 & H).
    apply IHb in H. destruct H as (s2 & H2 & Hp2 & H).
    exists s2. split; [exact (reaches_trans st s1 s2 H1 H2)|].
    split; [lia|exact H].
  - cbn [run]. destruct (run a k st) as [y|] eqn:Hrun.
    + intros [= <-]. apply IHa in Hrun. destruct Hrun as (s1 & H1 & Hp1 & H).
      exists s1. split; [exact H1|]. split; [lia|exact H].
    + intros H. apply IHb in H. destruct H as (s1 & H1 & Hp1 & H).
      exists s1. split; [exact H1|]. split; [lia|exact H].
  - rewrite run_Star. intros H.
    apply (starLoop_reach R g a k) in H.
    + destruct H as (s1 & H1 & H). exists s1. split; [exact H1|].
      split; [pose proof (reaches_pos st s1 H1); lia|exact H].
    + intros k1 st1 x1 H1. apply IHa in H1. destruct H1 as (s1 & Hr1 & _ & Hk1).
      exists s1. split; [exact Hr1|exact Hk1].
  - cbn [run]. intros H. apply IHa in H. destruct H as (s1 & H1 & Hp1 & H).
    exists (setCap i (pos st) (pos s1) s1).
    split; [exact H1|]. split; [exact Hp1|exact H].
  - cbn [run]. destruct (Nat.eqb (pos st) 0); [|discriminate]. intros H.
    exists st. split; [apply reaches_refl|]. split; [lia|exact H].
  - cbn [run]. destruct (rest st); [|discriminate]. intros H.
    exists st. split; [apply reaches_refl|]. split; [lia|exact H].
  - cbn [run]. destruct (xorb _ _); [|discriminate]. intros H.
    exists st. split; [apply reaches_refl|]. split; [lia|exact H].
Qed.

(** A match found at an offset of a text is a part of the text left. *)
Lemma matchAt_text (r : re) (done rs : string) (pv : option ascii) (m : rmatch) :
  matchAt r (done ++ rs) (String.length done) pv rs = Some m ->
  m_index m = String.length done
  /\ minLength r <= String.length (m_text m)
  /\ exists rs', rs = m_text m ++ rs'.
Proof.
  unfold matchAt.
  destruct (run r _ (MState (String.length done) pv rs [])) as [st|] eqn:Hrun;
    [|discriminate].
  intros [= <-]. cbn [m_index m_text]. split; [reflexivity|].
  apply run_reach in Hrun.
  destruct Hrun as (st' & (a & Ha & Hp) & Hmin & [= ->]).
  cbn [rest pos] in Ha, Hp, Hmin. rewrite Hp, Ha.
  pose proof (substring_shift done (a ++ rest st) 0 (String.length a)) as Hs.
  rewrite Nat.add_0_r in Hs. rewrite Hs.
  rewrite ShiftFacts.substring_0, take_app_length.
  split; [lia|]. exists (rest st). reflexivity.
Qed.

(** The matches of a text, from the first one: the text before it has no
    match, and the matches after it are the matches of the text after
    it. *)
Lemma scan_first (r : re) :
  anchorFree r = true -> 0 < minLength r ->
  forall rs done pv m ms,
    scan r (done ++ rs) (String.length done) pv rs 0 = m :: ms ->
    exists pre post,
      rs = pre ++ m_text m ++ post
      /\ m_index m = String.length done + String.length pre
      /\ ms = map (shiftMatch (String.length (done ++ pre ++ m_text m)))
                (matchAll r post).
Proof.
  intros Hr Hmin. induction rs as [|c rs IH]; intros done pv m ms Hscan.
  - cbn [scan] in Hscan.
    destruct (matchAt r (done ++ "") (String.length done) pv "") as [m'|] eqn:Hm;
      [|discriminate].
    injection Hscan as <- <-. apply matchAt_text in Hm.
    destruct Hm as (_ & Hlen & rs' & Hrs).
    destruct (m_text m'); [simpl in Hlen; lia|discriminate].
  - cbn [scan] in Hscan.
    destruct (matchAt r (done ++ String c rs) (String.length done) pv (String c rs))
      as [m'|] eqn:Hm.
    + injection Hscan as <- <-. apply matchAt_text in Hm.
      destruct Hm as (Hindex & Hlen & rs' & Hrs). exists "", rs'.
      split; [exact Hrs|]. split; [simpl; lia|].
      destruct (m_text m') as [|c' a] eqn:Ha; [simpl in Hlen; lia|].
      cbn [append] in Hrs. injection Hrs as <- ->.
      cbn [String.length Nat.sub]. rewrite Nat.sub_0_r.
      rewrite scan_skip.
      replace (S (String.length done) + String.length a)
        with (String.length (done ++ String c a) + 0)
        by (rewrite length_app; simpl; lia).
      replace (done ++ String c (a ++ rs')) with ((done ++ String c a) ++ rs')
        by (rewrite app_assoc; reflexivity).
      rewrite (scan_shift r (done ++ String c a) rs' Hr rs' 0 None).
      reflexivity.
    + replace (done ++ String c rs) with ((done ++ String c "") ++ rs) in Hscan
        by (rewrite app_assoc; reflexivity).
      replace (S (String.length done))
        with (String.length (done ++ String c "")) in Hscan
        by (rewrite length_app; simpl; lia).
      destruct (IH (done ++ String c "") (Some c) m ms Hscan)
        as (pre & post & Hrs & Hindex & Hms).
      exists (String c pre), post. split; [rewrite Hrs; reflexivity|].
      split.
      * rewrite Hindex, length_app. simpl. lia.
      * rewrite Hms. rewrite !app_assoc. reflexivity.
Qed.

(** The replacement of a text, from its first match: the text before the
    match is copied, the match is replaced, and the text after it is
    replaced as the text it is. *)
Lemma replaceSt_first_match (T : Type) (r : re) (cb : rmatch -> T -> string * T)
    (s : string) (m : rmatch) (ms : list rmatch) (st : T) :
  anchorFree r = true -> 0 < minLength r -> readsTexts cb ->
  matchAll r s = m :: ms ->
  replaceSt r cb s st
  = (take (m_index m) s ++ fst (cb m st)
       ++ fst (replaceSt r cb (drop (m_end m) s) (snd (cb m st))),
     snd (replaceSt r cb (drop (m_end m) s) (snd (cb m st)))).
Proof.
  intros Hr Hmin Hcb Hall. unfold replaceSt at 1. rewrite Hall.
  unfold matchAll in Hall.
  destruct (scan_first r Hr Hmin s "" None m ms Hall)
    as (pre & post & Hs & Hindex & Hms).
  cbn [append String.length Nat.add] in Hindex, Hms.
  cbn [rebuild]. destruct (cb m st) as [rep st1]. cbn [fst snd].
  assert (Hend : m_end m = String.length (pre ++ m_text m) + 0)
    by (unfold m_end; rewrite Hindex, length_app; lia).
  assert (Hdrop : drop (m_end m) s = post).
  { rewrite Hend, Nat.add_0_r, Hs, <- app_assoc. apply drop_app_length. }
  rewrite Hdrop. unfold replaceSt.
  rewrite Hms, Hend.
  pose proof (rebuild_shift T cb (pre ++ m_text m) post Hcb (matchAll r post) 0 st1)
    as Hshift.
  rewrite <- app_assoc in Hs. rewrite <- Hs in Hshift. rewrite Hshift.
  destruct (rebuild cb post 0 (matchAll r post) st1) as [tl st2]. cbn [fst snd].
  assert (Htake : take (String.length pre) s = pre)
    by (rewrite Hs, app_assoc; apply take_app_length).
  rewrite ShiftFacts.substring_0, Hindex, Htake. reflexivity.
Qed.

End FirstMatchFacts.

(** ** Failing expressions *)

Module ErrorClaims.
Import JsString Regex Js TemplateEngine Scenario ErrorFacts StringFacts
       FirstMatchFacts.


Lemma remainingVariableCallback_readsTexts (E : HostLib) (data : val) :
  readsTexts (remainingVariableCallback E data).
Proof. intros d m st. reflexivity. Qed.





(** An exception that escapes the evaluator, here for data that is
    [null]: the interpolation gets the marker, the condition its if
    branch. *)
Example escaping_exception_marks_the_interpolation :
  fst (processRemainingVariables bareHost "[${title}]" VNull []) = "[[ERROR: title]]"
  /\ fst (processConditions bareHost "${#if this.x}A${#else}B${/if}" VNull []) = "A".
Proof. vm_compute. split; reflexivity. Qed.

(** A condition that reads a value without text, [{toString: 1}] under
    [this.x]: the replacement of [this.x] throws, and the condition is
    replaced by its if branch. *)
Example uncoercible_value_in_a_condition :
  fst (processConditions bareHost "${#if this.x}A${#else}B${/if}" (VRef 2)
         [CObj [("toString", VNum (JsNumber.ofZ 1))]; CObj [("x", VRef 0)];
          CObj [("this", VRef 1)]])
  = "A".
Proof. vm_compute. reflexivity. Qed.

End ErrorClaims.

(** ** The loops: edges *)

Module LoopEdgeFacts.
Import JsString StringFacts Js TemplateEngine CloseFacts LoopFacts ShiftFacts
       EachFacts Scenario.

Lemma occursAt_drop (s p : string) (c j : nat) :
  occursAt (drop c s) p j = occursAt s p (c + j).
Proof. unfold occursAt. rewrite drop_drop. reflexivity. Qed.

Lemma indexOf_drop_none (s p : string) (c : nat) :
  indexOf s p = None -> indexOf (drop c s) p = None.
Proof.
  intros H. apply indexOf_none. intros j _. rewrite occursAt_drop.
  apply indexOf_None. exact H.
Qed.

(** Without a closing tag in the text, the search finds none. *)
Lemma findClose_no_tag (xml : string) :
  indexOf xml loopEndMarker = None ->
  forall fuel depth c, findClose fuel xml depth c = None.
Proof.
  intros H fuel depth c. destruct fuel as [|fuel]; [reflexivity|].
  cbn [findClose].
  destruct (Nat.ltb 0 depth && Nat.ltb c (String.length xml)); [|reflexivity].
  unfold substringFrom. rewrite (indexOf_drop_none xml loopEndMarker c H).
  reflexivity.
Qed.

Lemma loopFrom_no_closing_tag (E : HostLib) (xml : string) (data : val) (h : heap) :
  indexOf xml loopEndMarker = None ->
  forall fuel start,
    String.length xml - start < fuel ->
    loopFrom fuel E xml start data h = Some (xml, h).
Proof.
  intros H. induction fuel as [|fuel IH]; intros start Hfuel; [lia|].
  cbn [loopFrom].
  destruct (indexOfFrom xml loopStartMarker start) as [o|] eqn:Ho; [|reflexivity].
  destruct (indexOfFrom xml "}" o) as [e|] eqn:He; [|reflexivity].
  destruct (turn_bounds xml start o e Ho He) as (Hso & Hoe & Hex).
  rewrite (findClose_no_tag xml H). apply IH. lia.
Qed.

(** The first loop of a text, whatever its path gives: the text before
    is copied, the loop is replaced by its expansion, and the text after
    is processed in its turn. *)
Lemma processLoops_first (E : HostLib) (pre path body post : string)
    (data : val) (h : heap) :
  indexOf (pre ++ loopStartMarker) loopStartMarker = Some (String.length pre) ->
  indexOf path "}" = None ->
  balancedBody body post ->
  exists res h1,
    expandLoop E (fun c d hh => Some (processLoops E c d hh))
      (trim path) (trimContent body) data h = Some (res, h1)
    /\ processLoops E
         (pre ++ loopStartMarker ++ path ++ "}" ++ body ++ loopEndMarker ++ post)
         data h
       = (pre ++ res ++ fst (processLoops E post data h1),
          snd (processLoops E post data h1)).
Proof.
  intros Hopen Hpath Hclose.
  destruct (expandLoop_some E (fun c d hh => Some (processLoops E c d hh))
              (trim path) (trimContent body) data h) as [[res h1] Hexp].
  { intros d hh. eexists. reflexivity. }
  exists res, h1. split; [exact Hexp|].
  unfold balancedBody in Hclose.
  set (tail := body ++ loopEndMarker ++ post) in *.
  set (tag := loopStartMarker ++ path) in *.
  assert (Hxml : pre ++ loopStartMarker ++ path ++ "}" ++ tail
                 = (pre ++ tag ++ "}") ++ tail).
  { subst tag. rewrite !app_assoc. reflexivity. }
  unfold processLoops at 1.
  change (pre ++ loopStartMarker ++ path ++ "}" ++ body ++ loopEndMarker ++ post)
    with (pre ++ loopStartMarker ++ path ++ "}" ++ tail).
  set (xml := pre ++ loopStartMarker ++ path ++ "}" ++ tail) in *.
  assert (Ho : indexOfFrom xml loopStartMarker 0 = Some (String.length pre)).
  { rewrite indexOfFrom_0. subst xml. apply indexOf_after. exact Hopen. }
  assert (He : indexOfFrom xml "}" (String.length pre)
               = Some (String.length pre + String.length tag)).
  { subst xml. pose proof (indexOfFrom_shift pre
      (loopStartMarker ++ path ++ "}" ++ tail) "}" 0 ltac:(lia)) as Hs.
    rewrite Nat.add_0_r in Hs. rewrite Hs. rewrite indexOfFrom_0.
    assert (Htag : indexOf tag "}" = None)
      by (subst tag; apply indexOf_char_app; [reflexivity|exact Hpath]).
    assert (Hi : indexOf (loopStartMarker ++ path ++ "}" ++ tail) "}"
                 = Some (String.length tag))
      by exact (indexOf_char_after tag tail "}" Htag).
    rewrite Hi. reflexivity. }
  assert (Hhead : String.length (pre ++ tag ++ "}")
                  = String.length pre + String.length tag + 1).
  { rewrite !length_app. simpl. lia. }
  assert (Hc : findClose (S (String.length xml)) xml 1
                 (String.length pre + String.length tag + 1)
               = Some (String.length pre + String.length tag + 1
                       + String.length body)).
  { pose proof (findClose_suffix (pre ++ tag ++ "}") tail 0) as Hs.
    rewrite Nat.add_0_r, <- Hxml, Hhead, Hclose in Hs. rewrite Hs.
    reflexivity. }
  assert (Hp : substring xml (String.length pre + String.length loopStartMarker)
                 (String.length pre + String.length tag) = path).
  { subst xml. rewrite substring_shift.
    replace (String.length tag)
      with (String.length loopStartMarker + String.length path)
      by (subst tag; rewrite length_app; reflexivity).
    pose proof (substring_shift loopStartMarker (path ++ "}" ++ tail) 0
                  (String.length path)) as Hs.
    rewrite Nat.add_0_r in Hs. rewrite Hs.
    rewrite substring_0. apply take_app_length. }
  assert (Hb : substring xml (String.length pre + String.length tag + 1)
                 (String.length pre + String.length tag + 1 + String.length body)
               = body).
  { pose proof (substring_shift (pre ++ tag ++ "}") tail 0
                  (String.length body)) as Hs.
    rewrite Nat.add_0_r, <- Hxml, Hhead in Hs. rewrite Hs.
    rewrite substring_0. subst tail. apply take_app_length. }
  assert (Hbefore : substring xml 0 (String.length pre) = pre).
  { subst xml. rewrite substring_0. apply take_app_length. }
  assert (Hafter : substringFrom xml
                     (String.length pre + String.length tag + 1
                      + String.length body + String.length loopEndMarker)
                   = post).
  { rewrite Hxml, <- Hhead. unfold substringFrom.
    rewrite <- Nat.add_assoc. rewrite drop_app_plus. subst tail.
    rewrite <- length_app, <- app_assoc. apply drop_app_length. }
  assert (Hxl : String.length body + String.length post < String.length xml).
  { rewrite Hxml. subst tail. rewrite !length_app. simpl. lia. }
  cbn [loopFrom]. rewrite Ho, He, Hc, Hp, Hb, Hbefore, Hafter.
  pose proof (trimContent_length body) as Htl.
  rewrite (expandLoop_agree E _ (fun c d hh => Some (processLoops E c d hh)))
    by (intros d hh; apply processLoops_fuel; lia).
  rewrite Hexp.
  rewrite <- length_app, <- app_assoc.
  rewrite loopFrom_shift. rewrite processLoops_fuel by lia.
  cbn [option_map]. unfold prepend. rewrite app_assoc. reflexivity.
Qed.

End LoopEdgeFacts.

Module LoopEdges.
Import JsString StringFacts Js TemplateEngine CloseFacts LoopFacts ShiftFacts
       EachFacts Scenario LoopEdgeFacts.

(** The closing tag found by the balanced search: it lies at or after
    the place the search starts from, and the text has a closing tag
    there. *)
Theorem findClose_points_at_a_closing_tag (fuel : nat) (xml : string)
    (depth c k : nat) :
  findClose fuel xml depth c = Some k ->
  c <= k /\ occursAt xml loopEndMarker k = true
  /\ k + String.length loopEndMarker <= String.length xml.
Proof.
  revert depth c k. induction fuel as [|fuel IH]; intros depth c k; [discriminate|].
  cbn [findClose].
  destruct (Nat.ltb_spec c (String.length xml)) as [Hc|Hc];
    [|rewrite andb_false_r; discriminate].
  destruct (Nat.ltb 0 depth); [|discriminate]. cbn [andb].
  unfold substringFrom.
  destruct (indexOf (drop c xml) loopEndMarker) as [nc|] eqn:Hnc; [|discriminate].
  apply indexOf_Some in Hnc. destruct Hnc as (Hocc & Hfit & _).
  rewrite occursAt_drop in Hocc. rewrite length_drop in Hfit.
  assert (Hclosing :
    (if Nat.eqb (depth - 1) 0 then Some (c + nc)
     else findClose fuel xml (depth - 1) (c + nc + 1)) = Some k ->
    c <= k /\ occursAt xml loopEndMarker k = true
    /\ k + String.length loopEndMarker <= String.length xml).
  { destruct (Nat.eqb (depth - 1) 0).
    - intros [= <-]. split; [lia|]. split; [exact Hocc|lia].
    - intros H. apply IH in H. destruct H as (H1 & H2 & H3).
      split; [lia|]. split; assumption. }
  destruct (indexOf (drop c xml) loopStartMarker) as [o|]; [|exact Hclosing].
  destruct (Nat.ltb (c + o) (c + nc)); [|exact Hclosing].
  intros H. apply IH in H. destruct H as (H1 & H2 & H3).
  split; [lia|]. split; assumption.
Qed.

Lemma findClose_points_at_a_closing_tag_witness :
  10 <= 31
  /\ occursAt "${#each a}x${#each b}y${/each}z${/each}w" loopEndMarker 31 = true
  /\ 31 + String.length loopEndMarker
     <= String.length "${#each a}x${#each b}y${/each}z${/each}w".
Proof.
  exact (findClose_points_at_a_closing_tag 100
           "${#each a}x${#each b}y${/each}z${/each}w" 1 10 31 eq_refl).
Defined.

(** A text without any closing tag is left as it is, whatever opening
    tags it has, and the store is left as it is. *)
Theorem processLoops_without_closing_tag (E : HostLib) (xml : string)
    (data : val) (h : heap) :
  indexOf xml loopEndMarker = None ->
  processLoops E xml data h = (xml, h).
Proof.
  intros H. unfold processLoops.
  rewrite (loopFrom_no_closing_tag E xml data h H) by lia. reflexivity.
Qed.

Lemma processLoops_without_closing_tag_witness :
  processLoops bareHost "A${#each items}x Z" sampleData sampleStore
  = ("A${#each items}x Z", sampleStore).
Proof.
  exact (processLoops_without_closing_tag bareHost "A${#each items}x Z"
           sampleData sampleStore eq_refl).
Defined.



(** On data that is [null] or [undefined] the evaluation of the path of
    a loop throws, and the loop is replaced by a marker that carries
    the path and the message; the rest of the text is still
    processed. *)
Theorem loop_on_null_data_leaves_a_marker (E : HostLib)
    (pre path body post : string) (data : val) (h : heap) :
  indexOf (pre ++ loopStartMarker) loopStartMarker = Some (String.length pre) ->
  indexOf path "}" = None ->
  balancedBody body post ->
  ExpressionEvaluator.isNullish data = true ->
  String.eqb (trim path) "" = false ->
  processLoops E
    (pre ++ loopStartMarker ++ path ++ "}" ++ body ++ loopEndMarker ++ post)
    data h
  = (pre
     ++ ("[ERROR: Loop " ++ trim path
         ++ " - Cannot convert undefined or null to object]")
     ++ fst (processLoops E post data h),
     snd (processLoops E post data h)).
Proof.
  intros Hopen Hpath Hclose Hdata Hne.
  destruct (processLoops_first E pre path body post data h Hopen Hpath Hclose)
    as (res & h2 & Hexp & Hout).
  unfold expandLoop, evaluate, ExpressionEvaluator.evaluate in Hexp.
  rewrite Hne in Hexp.
  assert (Hkeys : objectKeys h data
                  = Throw "Cannot convert undefined or null to object")
    by (destruct data; try discriminate; reflexivity).
  rewrite Hkeys in Hexp. cbn [runHost] in Hexp.
  injection Hexp as <- <-. exact Hout.
Qed.

Lemma loop_on_null_data_leaves_a_marker_witness :
  processLoops bareHost
    ("A" ++ loopStartMarker ++ "items" ++ "}" ++ "x" ++ loopEndMarker ++ "Z")
    VNull []
  = ("A"
     ++ ("[ERROR: Loop " ++ trim "items"
         ++ " - Cannot convert undefined or null to object]")
     ++ fst (processLoops bareHost "Z" VNull []),
     snd (processLoops bareHost "Z" VNull [])).
Proof.
  exact (loop_on_null_data_leaves_a_marker bareHost "A" "items" "x" "Z" VNull []
           eq_refl eq_refl eq_refl eq_refl eq_refl).
Defined.

Lemma objGet_objSet_same (A : Type) (ps : list (string * A)) (k : string) (v : A) :
  objGet (objSet ps k v) k = Some v.
Proof.
  induction ps as [|[k0 w] ps IH]; cbn [objSet objGet].
  - rewrite String.eqb_refl. reflexivity.
  - destruct (String.eqb k0 k) eqn:Hk; cbn [objGet]; rewrite Hk; [reflexivity|exact IH].
Qed.

Lemma objGet_objSet_other (A : Type) (ps : list (string * A)) (k k' : string)
    (v : A) :
  String.eqb k' k = false -> objGet (objSet ps k v) k' = objGet ps k'.
Proof.
  intros Hne. induction ps as [|[k0 w] ps IH]; cbn [objSet objGet].
  - rewrite String.eqb_sym, Hne. reflexivity.
  - destruct (String.eqb k0 k) eqn:Hk; cbn [objGet].
    + apply String.eqb_eq in Hk. subst k0.
      rewrite String.eqb_sym, Hne. reflexivity.
    + destruct (String.eqb k0 k'); [reflexivity|exact IH].
Qed.

Lemma lookup_new (h : heap) (c : cell) : lookup (List.length h) (h ++ [c])%list = Some c.
Proof.
  unfold lookup. rewrite nth_error_app2 by lia. rewrite Nat.sub_diag. reflexivity.
Qed.

(** The scope of one iteration. The context of item [index] out of
    [count] is a new object in which [this] is the item, [index],
    [first], [last] and [count] describe the position, [parent] is the
    [this] of the data and [_parentContext] the data; these seven names
    hide the fields of the data with the same names, and every other
    name reads the field of the data. *)
Theorem loop_context_scope (E : HostLib) (h : heap) (l : nat)
    (ps : list (string * val)) (item : val) (index count : nat) :
  lookup l h = Some (CObj ps) ->
  exists ctx h',
    loopContext E h (VRef l) item index count = Ok (ctx, h')
    /\ getProp E h' ctx "this" = Ok item
    /\ getProp E h' ctx "index" = Ok (VNum (JsNumber.ofNat index))
    /\ getProp E h' ctx "first" = Ok (VBool (Nat.eqb index 0))
    /\ getProp E h' ctx "last" = Ok (VBool (Nat.eqb (S index) count))
    /\ getProp E h' ctx "count" = Ok (VNum (JsNumber.ofNat count))
    /\ getProp E h' ctx "parent" = getProp E h (VRef l) "this"
    /\ getProp E h' ctx "_parentContext" = Ok (VRef l)
    /\ (forall key, existsb (String.eqb key) loopBindings = false ->
          getProp E h' ctx key = getProp E h (VRef l) key).
Proof.
  intros Hl. unfold loopContext.
  assert (Hthis : exists parent, getProp E h (VRef l) "this" = Ok parent).
  { cbn [getProp]. rewrite Hl. destruct (objGet ps "this"); eexists; reflexivity. }
  destruct Hthis as [parent Hparent]. rewrite Hparent. cbn [bind].
  cbn [spreadProps]. rewrite Hl. unfold alloc.
  eexists. eexists. split; [reflexivity|].
  cbn [getProp]. rewrite lookup_new.
  repeat split.
  - repeat (rewrite objGet_objSet_other by reflexivity).
    rewrite objGet_objSet_same. reflexivity.
  - repeat (rewrite objGet_objSet_other by reflexivity).
    rewrite objGet_objSet_same. reflexivity.
  - repeat (rewrite objGet_objSet_other by reflexivity).
    rewrite objGet_objSet_same. reflexivity.
  - repeat (rewrite objGet_objSet_other by reflexivity).
    rewrite objGet_objSet_same. reflexivity.
  - rewrite objGet_objSet_same. reflexivity.
  - repeat (rewrite objGet_objSet_other by reflexivity).
    rewrite objGet_objSet_same. reflexivity.
  - repeat (rewrite objGet_objSet_other by reflexivity).
    rewrite objGet_objSet_same. reflexivity.
  - intros key Hkey. unfold loopBindings in Hkey. cbn [existsb] in Hkey.
    repeat (apply orb_false_iff in Hkey; destruct Hkey as [? Hkey]).
    repeat (rewrite objGet_objSet_other by assumption).
    rewrite Hl. reflexivity.
Qed.

Lemma loop_context_scope_witness :
  exists ctx h',
    loopContext bareHost sampleStore (VRef 1) (VStr "a") 0 2 = Ok (ctx, h')
    /\ getProp bareHost h' ctx "this" = Ok (VStr "a")
    /\ getProp bareHost h' ctx "index" = Ok (VNum (JsNumber.ofNat 0))
    /\ getProp bareHost h' ctx "first" = Ok (VBool (Nat.eqb 0 0))
    /\ getProp bareHost h' ctx "last" = Ok (VBool (Nat.eqb 1 2))
    /\ getProp bareHost h' ctx "count" = Ok (VNum (JsNumber.ofNat 2))
    /\ getProp bareHost h' ctx "parent" = getProp bareHost sampleStore (VRef 1) "this"
    /\ getProp bareHost h' ctx "_parentContext" = Ok (VRef 1)
    /\ (forall key, existsb (String.eqb key) loopBindings = false ->
          getProp bareHost h' ctx key = getProp bareHost sampleStore (VRef 1) key).
Proof.
  exact (loop_context_scope bareHost sampleStore 1
           [("n", VNum (JsNumber.ofZ 0)); ("flag", VBool false);
            ("title", VStr "a<b"); ("items", VRef 0)]
           (VStr "a") 0 2 eq_refl).
Defined.

Lemma endsWith_app_line_feed (s : string) :
  endsWith (s ++ carriageReturn ++ lineFeed) lineFeed = true.
Proof.
  unfold endsWith. rewrite length_app.
  change (String.length (carriageReturn ++ lineFeed)) with 2.
  change (String.length lineFeed) with 1.
  replace (String.length s + 2 - 1) with (String.length s + 1) by lia.
  rewrite drop_app_plus.
  destruct (Nat.leb_spec 1 (String.length s + 2)); [reflexivity|lia].
Qed.

Lemma trimEnd_app_line_break (s : string) :
  substring (s ++ carriageReturn ++ lineFeed) 0
    (String.length (s ++ carriageReturn ++ lineFeed) - 1)
  = s ++ carriageReturn.
Proof.
  rewrite substring_0, length_app.
  change (String.length (carriageReturn ++ lineFeed)) with 2.
  replace (String.length s + 2 - 1) with (String.length s + 1) by lia.
  rewrite take_app_plus. reflexivity.
Qed.

(** A text that ends with a carriage return and a line feed ends with a
    line feed. *)
Lemma endsWith_line_break (c : string) :
  endsWith c (carriageReturn ++ lineFeed) = true -> endsWith c lineFeed = true.
Proof.
  intros H. unfold endsWith in H. apply andb_prop in H. destruct H as [_ H].
  apply String.eqb_eq in H.
  rewrite <- (take_drop c (String.length c
                           - String.length (carriageReturn ++ lineFeed))).
  rewrite H. apply endsWith_app_line_feed.
Qed.

(** The line breaks around the body of a loop. The test for a final
    line feed comes first, so the branch for a final carriage return
    and line feed is never taken: [trimContent] is the function without
    that branch. A body between two line breaks, the first one a line
    feed or a carriage return and a line feed, the last one a carriage
    return and a line feed, keeps the carriage return of the last. *)
Theorem trimContent_keeps_the_carriage_return (s : string) :
  trimContent (carriageReturn ++ lineFeed ++ s ++ carriageReturn ++ lineFeed)
  = s ++ carriageReturn
  /\ trimContent (lineFeed ++ s ++ carriageReturn ++ lineFeed)
     = s ++ carriageReturn
  /\ trimContent s
     = (let content :=
          if startsWith s lineFeed then substringFrom s 1
          else if startsWith s (carriageReturn ++ lineFeed)
               then substringFrom s 2
               else s in
        if endsWith content lineFeed
        then substring content 0 (String.length content - 1)
        else content).
Proof.
  split; [|split].
  - unfold trimContent.
    change (String (ascii_of_nat 13) (String (ascii_of_nat 10) ""))
      with (carriageReturn ++ lineFeed).
    change (String (ascii_of_nat 10) "") with lineFeed.
    change (startsWith
              (carriageReturn ++ lineFeed ++ s ++ carriageReturn ++ lineFeed)
              lineFeed) with false.
    change (carriageReturn ++ lineFeed ++ s ++ carriageReturn ++ lineFeed)
      with ((carriageReturn ++ lineFeed) ++ s ++ carriageReturn ++ lineFeed).
    rewrite startsWith_app.
    change (substringFrom
              ((carriageReturn ++ lineFeed) ++ s ++ carriageReturn ++ lineFeed) 2)
      with (s ++ carriageReturn ++ lineFeed).
    cbv iota. rewrite endsWith_app_line_feed. apply trimEnd_app_line_break.
  - unfold trimContent.
    change (String (ascii_of_nat 13) (String (ascii_of_nat 10) ""))
      with (carriageReturn ++ lineFeed).
    change (String (ascii_of_nat 10) "") with lineFeed.
    rewrite startsWith_app.
    change (substringFrom (lineFeed ++ s ++ carriageReturn ++ lineFeed) 1)
      with (s ++ carriageReturn ++ lineFeed).
    cbv iota. rewrite endsWith_app_line_feed. apply trimEnd_app_line_break.
  - unfold trimContent.
    change (String (ascii_of_nat 13) (String (ascii_of_nat 10) ""))
      with (carriageReturn ++ lineFeed).
    change (String (ascii_of_nat 10) "") with lineFeed.
    cbv zeta.
    match goal with
    | |- context [endsWith ?c lineFeed] =>
        destruct (endsWith c lineFeed) eqn:Hlf; [reflexivity|];
        destruct (endsWith c (carriageReturn ++ lineFeed)) eqn:Hcrlf;
          [|reflexivity];
        apply endsWith_line_break in Hcrlf; congruence
    end.
Qed.


End LoopEdges.

(** ** Escaping *)

Module EscapeFacts.
Import JsString StringFacts Js TemplateEngine EachFacts.

Lemma replaceChar_app (c : ascii) (by_ a b : string) :
  replaceChar c by_ (a ++ b) = replaceChar c by_ a ++ replaceChar c by_ b.
Proof.
  induction a as [|d a IH]; [reflexivity|]. cbn [append replaceChar].
  rewrite IH. destruct (Ascii.eqb c d); [|reflexivity].
  rewrite app_assoc. reflexivity.
Qed.

Lemma escapeXml_append (a b : string) :
  escapeXml (a ++ b) = escapeXml a ++ escapeXml b.
Proof. unfold escapeXml. rewrite !replaceChar_app. reflexivity. Qed.

Lemma escapeXml_cons (c : ascii) (s : string) :
  escapeXml (String c s) = escapeXml (String c "") ++ escapeXml s.
Proof. exact (escapeXml_append (String c "") s). Qed.

(** The five characters the escaping rewrites. *)
Lemma escapeXml_char (c : ascii) :
  (c = "&"%char /\ escapeXml (String c "") = "&amp;")
  \/ (c = "<"%char /\ escapeXml (String c "") = "&lt;")
  \/ (c = ">"%char /\ escapeXml (String c "") = "&gt;")
  \/ (c = dquote /\ escapeXml (String c "") = "&quot;")
  \/ (c = "'"%char /\ escapeXml (String c "") = "&apos;")
  \/ (Ascii.eqb "&" c = false /\ Ascii.eqb "<" c = false
      /\ Ascii.eqb ">" c = false /\ Ascii.eqb dquote c = false
      /\ Ascii.eqb "'" c = false /\ escapeXml (String c "") = String c "").
Proof.
  destruct (Ascii.eqb_spec "&" c) as [<-|Ha]; [left; split; reflexivity|].
  destruct (Ascii.eqb_spec "<" c) as [<-|Hl]; [right; left; split; reflexivity|].
  destruct (Ascii.eqb_spec ">" c) as [<-|Hg];
    [right; right; left; split; reflexivity|].
  destruct (Ascii.eqb_spec dquote c) as [<-|Hq];
    [right; right; right; left; split; reflexivity|].
  destruct (Ascii.eqb_spec "'" c) as [<-|Hp];
    [right; right; right; right; left; split; reflexivity|].
  do 5 right.
  apply Ascii.eqb_neq in Ha, Hl, Hg, Hq, Hp.
  repeat split; try assumption.
  unfold escapeXml. cbn [replaceChar]. rewrite Ha. cbn [replaceChar].
  rewrite Hl. cbn [replaceChar]. rewrite Hg. cbn [replaceChar].
  rewrite Hq. cbn [replaceChar]. rewrite Hp. reflexivity.
Qed.

Lemma includes_false (s p : string) :
  includes s p = false <-> indexOf s p = None.
Proof.
  unfold includes. destruct (indexOf s p); split; intros H;
    try discriminate; reflexivity.
Qed.

Lemma indexOf_char_cons (c d : ascii) (s : string) :
  indexOf (String d s) (String c "") = None
  <-> Ascii.eqb c d = false /\ indexOf s (String c "") = None.
Proof.
  rewrite indexOf_eq. cbn [startsWith].
  assert (Hs : startsWith s "" = true) by (destruct s; reflexivity).
  rewrite Hs, andb_true_r.
  destruct (Ascii.eqb c d); split.
  - discriminate.
  - intros [H _]. discriminate.
  - destruct (indexOf s (String c "")); [discriminate|]. intros _. split; reflexivity.
  - intros [_ ->]. reflexivity.
Qed.

Lemma escapeXml_plain (s : string) :
  indexOf s "&" = None -> indexOf s "<" = None -> indexOf s ">" = None ->
  indexOf s (String dquote "") = None -> indexOf s "'" = None ->
  escapeXml s = s.
Proof.
  induction s as [|c s IH]; intros Ha Hl Hg Hq Hp; [reflexivity|].
  apply indexOf_char_cons in Ha, Hl, Hg, Hq, Hp.
  destruct Ha as [Ha Ha'], Hl as [Hl Hl'], Hg as [Hg Hg'], Hq as [Hq Hq'],
           Hp as [Hp Hp'].
  rewrite escapeXml_cons. rewrite (IH Ha' Hl' Hg' Hq' Hp').
  destruct (escapeXml_char c)
    as [[-> _]|[[-> _]|[[-> _]|[[-> _]|[[-> _]|(_ & _ & _ & _ & _ & ->)]]]]];
    try discriminate.
  reflexivity.
Qed.

Lemma escapeXml_free (c : ascii) (s : string) :
  Ascii.eqb c "&" = false ->
  indexOf "&amp;" (String c "") = None ->
  indexOf "&lt;" (String c "") = None ->
  indexOf "&gt;" (String c "") = None ->
  indexOf "&quot;" (String c "") = None ->
  indexOf "&apos;" (String c "") = None ->
  (c = "<"%char \/ c = ">"%char \/ c = dquote \/ c = "'"%char) ->
  indexOf (escapeXml s) (String c "") = None.
Proof.
  intros Hamp H1 H2 H3 H4 H5 Hc. induction s as [|d s IH]; [subst; reflexivity|].
  rewrite escapeXml_cons. apply indexOf_char_app; [|exact IH].
  destruct (escapeXml_char d)
    as [[_ ->]|[[_ ->]|[[_ ->]|[[_ ->]|[[_ ->]|(Ha & Hl & Hg & Hq & Hp & ->)]]]]];
    try assumption.
  apply indexOf_char_cons. split; [|reflexivity].
  rewrite Ascii.eqb_sym.
  destruct Hc as [ -> | [ -> | [ -> | -> ] ] ]; assumption.
Qed.

End EscapeFacts.

Module EscapeProperties.
Import JsString StringFacts Js TemplateEngine EachFacts EscapeFacts Regex Scenario.

(** The escaped text has no markup character: none of [<], [>], the
    double quote and the apostrophe is left in it. *)
Theorem escapeXml_leaves_no_markup_character (text : string) :
  includes (escapeXml text) "<" = false
  /\ includes (escapeXml text) ">" = false
  /\ includes (escapeXml text) (String dquote "") = false
  /\ includes (escapeXml text) "'" = false.
Proof.
  repeat split; apply includes_false; apply escapeXml_free;
    try reflexivity; auto.
Qed.

(** Escaping goes through concatenation: the escaped text of two texts
    put end to end is their escaped texts put end to end. *)
Theorem escapeXml_app (a b : string) :
  escapeXml (a ++ b) = escapeXml a ++ escapeXml b.
Proof.
  unfold escapeXml.
  rewrite (replaceChar_app "&" "&amp;" a b).
  rewrite (replaceChar_app "<" "&lt;").
  rewrite (replaceChar_app ">" "&gt;").
  rewrite (replaceChar_app dquote "&quot;").
  apply replaceChar_app.
Qed.

(** A text with none of the five characters [&], [<], [>], the double
    quote and the apostrophe is returned as it is. *)
Theorem escapeXml_keeps_plain_text (text : string) :
  includes text "&" = false -> includes text "<" = false ->
  includes text ">" = false -> includes text (String dquote "") = false ->
  includes text "'" = false ->
  escapeXml text = text.
Proof.
  intros Ha Hl Hg Hq Hp. apply includes_false in Ha, Hl, Hg, Hq, Hp.
  apply escapeXml_plain; assumption.
Qed.

Lemma escapeXml_keeps_plain_text_witness :
  escapeXml "Total: 12,50 (net)" = "Total: 12,50 (net)".
Proof.
  exact (escapeXml_keeps_plain_text "Total: 12,50 (net)"
           eq_refl eq_refl eq_refl eq_refl eq_refl).
Defined.

(** Escaping loses nothing: two texts with the same escaped text are the
    same text. *)
Theorem escapeXml_injective (a b : string) :
  escapeXml a = escapeXml b -> a = b.
Proof.
  revert b. induction a as [|c a IH]; intros [|d b].
  - reflexivity.
  - rewrite escapeXml_cons.
    destruct (escapeXml_char d)
      as [[_ ->]|[[_ ->]|[[_ ->]|[[_ ->]|[[_ ->]|(_ & _ & _ & _ & _ & ->)]]]]];
      discriminate.
  - rewrite escapeXml_cons.
    destruct (escapeXml_char c)
      as [[_ ->]|[[_ ->]|[[_ ->]|[[_ ->]|[[_ ->]|(_ & _ & _ & _ & _ & ->)]]]]];
      discriminate.
  - rewrite (escapeXml_cons c a), (escapeXml_cons d b).
    destruct (escapeXml_char c)
      as [[-> ->]|[[-> ->]|[[-> ->]|[[-> ->]|[[-> ->]|(Ha & Hl & Hg & Hq & Hp & ->)]]]]];
    destruct (escapeXml_char d)
      as [[-> ->]|[[-> ->]|[[-> ->]|[[-> ->]|[[-> ->]|(Ha' & Hl' & Hg' & Hq' & Hp' & ->)]]]]];
    cbn [append]; intros H;
    try (injection H as H; f_equal; apply IH; exact H);
    try discriminate H;
    try (injection H as Hc H; subst;
         first [ rewrite Ascii.eqb_refl in Ha; discriminate
               | rewrite Ascii.eqb_refl in Ha'; discriminate
               | f_equal; apply IH; exact H ]).
Qed.

Lemma escapeXml_injective_witness : "a<b" = "a<b".
Proof. exact (escapeXml_injective "a<b" "a<b" eq_refl). Defined.

End EscapeProperties.

(** ** The pipe of formatters *)

Module PipeFacts.
Import JsString StringFacts Js FormatHelper.

Lemma splitChar_cons (sep : ascii) (s : string) :
  exists x xs, splitChar sep s = x :: xs.
Proof.
  induction s as [|c s (x & xs & IH)]; cbn [splitChar]; [eauto|].
  destruct (Ascii.eqb c sep); [eauto|]. rewrite IH. eauto.
Qed.

Lemma splitChar_prefix (sep : ascii) (p a : string) :
  indexOf p (String sep "") = None ->
  splitChar sep (p ++ String sep a) = p :: splitChar sep a.
Proof.
  induction p as [|c p IH]; intros H; cbn [append splitChar].
  - rewrite Ascii.eqb_refl. reflexivity.
  - rewrite indexOf_eq in H. cbn [startsWith] in H.
    assert (Hs : startsWith p "" = true) by (destruct p; reflexivity).
    rewrite Hs, andb_true_r in H.
    rewrite Ascii.eqb_sym. destruct (Ascii.eqb sep c); [discriminate|].
    destruct (indexOf p (String sep "")); [discriminate|].
    rewrite IH by reflexivity. reflexivity.
Qed.

Lemma fold_left_skip (A B : Type) (f : A -> B -> A) (l1 l2 : list B) (x : B)
    (a : A) :
  (forall a, f a x = a) ->
  fold_left f (l1 ++ x :: l2)%list a = fold_left f (l1 ++ l2)%list a.
Proof.
  intros H. rewrite !fold_left_app. cbn [fold_left]. rewrite H. reflexivity.
Qed.

End PipeFacts.

Module PipeProperties.
Import JsString StringFacts Js FormatHelper PipeFacts Regex Scenario.

(** A formatter whose name is not registered has no effect: the pipe
    gives what it gives without it. *)
Theorem unknown_formatter_is_skipped (E : HostLib) (h : heap) (value : val)
    (before after : list string) (f : string) :
  objGet (formatters E) (trim (hd "" (splitChar ":" f))) = None ->
  applyFormatters E h value (before ++ f :: after)%list
  = applyFormatters E h value (before ++ after)%list.
Proof.
  intros H. unfold applyFormatters.
  rewrite (fold_left_skip _ _ (fun st f => applyOne E f st)); [reflexivity|].
  intros [[r fm] h0]. unfold applyOne.
  destruct (splitChar ":" f) as [|name args]; [reflexivity|].
  cbn [hd] in H. rewrite H. reflexivity.
Qed.

Lemma unknown_formatter_is_skipped_witness :
  applyFormatters bareHost [] (VStr "a") (["trim"] ++ "Upper:x" :: ["escape"])%list
  = applyFormatters bareHost [] (VStr "a") (["trim"] ++ ["escape"])%list.
Proof.
  exact (unknown_formatter_is_skipped bareHost [] (VStr "a") ["trim"] ["escape"]
           "Upper:x" eq_refl).
Defined.

(** The arguments of the pipe are texts, and the options of [number] and
    [currency] are read as properties of their first argument: when the
    prototypes of the host have no [decimals], [currency] and [locale],
    an argument given to [number] or to [currency] in the pipe changes
    nothing. *)
Theorem pipe_argument_of_number_and_currency_is_ignored (E : HostLib)
    (argument : string) (st : val * list (string * val) * heap) :
  (forall key, In key ["decimals"; "currency"; "locale"] ->
     inherited E KString key = VUndef /\ inherited E KObject key = VUndef) ->
  applyOne E ("number:" ++ argument) st = applyOne E "number" st
  /\ applyOne E ("currency:" ++ argument) st = applyOne E "currency" st.
Proof.
  intros H.
  destruct (H "decimals" ltac:(simpl; tauto)) as [Hds Hdo].
  destruct (H "currency" ltac:(simpl; tauto)) as [Hcs Hco].
  destruct (H "locale" ltac:(simpl; tauto)) as [Hls Hlo].
  destruct st as [[r fm] h].
  destruct (splitChar_cons ":" argument) as (x & xs & Hx).
  split.
  - unfold applyOne.
    change ("number:" ++ argument) with ("number" ++ String ":" argument).
    rewrite (splitChar_prefix ":" "number" argument eq_refl), Hx.
    change (splitChar ":" "number") with ["number"].
    change (objGet (formatters E) (trim "number")) with (Some (number E)).
    cbn iota beta.
    assert (Hn : number E h r (map (fun a => VStr (trim a)) (x :: xs))
                 = number E h r (map (fun a => VStr (trim a)) [])).
    { unfold number, pure, optionOf, arg. cbn [map nth getProp].
      change (String.eqb "decimals" "length") with false.
      change (arrayIndex "decimals") with (@None nat).
      cbn iota. rewrite Hds, Hdo. reflexivity. }
    rewrite Hn. reflexivity.
  - unfold applyOne.
    change ("currency:" ++ argument) with ("currency" ++ String ":" argument).
    rewrite (splitChar_prefix ":" "currency" argument eq_refl), Hx.
    change (splitChar ":" "currency") with ["currency"].
    change (objGet (formatters E) (trim "currency")) with (Some (currency E)).
    cbn iota beta.
    assert (Hn : currency E h r (map (fun a => VStr (trim a)) (x :: xs))
                 = currency E h r (map (fun a => VStr (trim a)) [])).
    { unfold currency, pure, optionOf, arg. cbn [map nth getProp].
      change (String.eqb "currency" "length") with false.
      change (String.eqb "locale" "length") with false.
      change (arrayIndex "currency") with (@None nat).
      change (arrayIndex "locale") with (@None nat).
      cbn iota. rewrite Hcs, Hco, Hls, Hlo. reflexivity. }
    rewrite Hn. reflexivity.
Qed.

Lemma pipe_argument_of_number_and_currency_is_ignored_witness :
  applyOne bareHost ("number:" ++ "3") (VStr "1.5", [], [])
  = applyOne bareHost "number" (VStr "1.5", [], [])
  /\ applyOne bareHost ("currency:" ++ "3") (VStr "1.5", [], [])
     = applyOne bareHost "currency" (VStr "1.5", [], []).
Proof.
  apply (pipe_argument_of_number_and_currency_is_ignored bareHost "3"
           (VStr "1.5", [], [])).
  intros key [<-|[<-|[<-|[]]]]; split; reflexivity.
Defined.

Example number_with_three_decimals_asked :
  fst (applyFormatters bareHost [] (VStr "1.5") ["number:3"]) = VStr "1.50".
Proof. vm_compute. reflexivity. Qed.

End PipeProperties.

(** ** The evaluator: what throws and what does not *)

Module EvaluatorFacts.
Import JsString Regex Js ErrorFacts EachFacts.

Lemma stepKey_ok (E : HostLib) (h : heap) (current : val) (key : string) :
  ExpressionEvaluator.isNullish current = false ->
  exists o, ExpressionEvaluator.stepKey E h current key = Ok o.
Proof.
  intros H. unfold ExpressionEvaluator.stepKey.
  destruct (getProp_ok E h current key H) as [v ->]. eexists. reflexivity.
Qed.

Lemma walkProperty_ok (E : HostLib) (h : heap) (keys : list string) :
  forall current, exists v, ExpressionEvaluator.walkProperty E h current keys = Ok v.
Proof.
  induction keys as [|key rest IH]; intros current; cbn [ExpressionEvaluator.walkProperty];
    [eexists; reflexivity|].
  destruct (ExpressionEvaluator.isNullish current) eqn:Hn; [eexists; reflexivity|].
  destruct (test ExpressionEvaluator.digitsRegex key).
  - destruct (ExpressionEvaluator.stepIndex h current key); [apply IH|eexists; reflexivity].
  - destruct (stepKey_ok E h current key Hn) as [o ->]. cbn [bind].
    destruct o; [apply IH|eexists; reflexivity].
Qed.

Lemma walkValue_ok (E : HostLib) (h : heap) (keys : list string) :
  forall current, exists v, ExpressionEvaluator.walkValue E h current keys = Ok v.
Proof.
  induction keys as [|key rest IH]; intros current; cbn [ExpressionEvaluator.walkValue];
    [eexists; reflexivity|].
  destruct (ExpressionEvaluator.isNullish current) eqn:Hn; [eexists; reflexivity|].
  destruct (String.eqb key "this").
  - destruct (stepKey_ok E h current "this" Hn) as [o ->]. cbn [bind].
    destruct o; [apply IH|eexists; reflexivity].
  - destruct (test ExpressionEvaluator.digitsRegex key).
    + destruct (ExpressionEvaluator.stepIndex h current key); [apply IH|eexists; reflexivity].
    + destruct (stepKey_ok E h current key Hn) as [o ->]. cbn [bind].
      destruct o; [apply IH|eexists; reflexivity].
Qed.

Lemma truthy_not_nullish (v : val) :
  truthy v = true -> ExpressionEvaluator.isNullish v = false.
Proof. destruct v; try discriminate; reflexivity. Qed.

Lemma getNestedProperty_ok (E : HostLib) (h : heap) (obj : val) (path : string) :
  exists v, ExpressionEvaluator.getNestedProperty E h obj path = Ok v.
Proof.
  unfold ExpressionEvaluator.getNestedProperty.
  destruct (negb (truthy obj) || String.eqb path ""); [eexists; reflexivity|].
  apply walkProperty_ok.
Qed.

Lemma getNestedValue_ok (E : HostLib) (h : heap) (obj : val) (path : string) :
  exists v, ExpressionEvaluator.getNestedValue E h obj path = Ok v.
Proof.
  unfold ExpressionEvaluator.getNestedValue.
  destruct (truthy obj) eqn:Ht; cbn [negb orb]; [|eexists; reflexivity].
  destruct (String.eqb path ""); [eexists; reflexivity|].
  destruct (startsWith path "this."); [|apply walkValue_ok].
  destruct (getProp_ok E h obj "this" (truthy_not_nullish obj Ht)) as [this ->].
  cbn [bind]. destruct (truthy this); [|eexists; reflexivity].
  apply getNestedProperty_ok.
Qed.

End EvaluatorFacts.

Module EvaluatorProperties.
Import JsString Regex Js ErrorFacts EachFacts EvaluatorFacts Scenario.

(** The lookups never throw: whatever the object, the store and the
    path, [getNestedValue] and [getNestedProperty] return a value; a
    missing key, an index out of range and a step through [null] give
    the value the code returns there. *)
Theorem nested_lookups_never_throw (E : HostLib) (h : heap) (obj : val)
    (path : string) :
  (exists v, ExpressionEvaluator.getNestedValue E h obj path = Ok v)
  /\ (exists v, ExpressionEvaluator.getNestedProperty E h obj path = Ok v).
Proof. split; [apply getNestedValue_ok|apply getNestedProperty_ok]. Qed.

(** What [evaluate] throws. The empty expression is [null] whatever the
    data; on data that is [null] or [undefined] every other expression
    throws, before the [try]; on any other data no expression throws. *)
Theorem evaluate_throws_only_on_null_data (E : HostLib) (h : heap)
    (expression : string) (data : val) :
  TemplateEngine.evaluate E h "" data = Ok (VNull, h)
  /\ (ExpressionEvaluator.isNullish data = true -> expression <> "" ->
      TemplateEngine.evaluate E h expression data
      = Throw "Cannot convert undefined or null to object")
  /\ (ExpressionEvaluator.isNullish data = false ->
      exists v h', TemplateEngine.evaluate E h expression data = Ok (v, h')).
Proof.
  split; [reflexivity|]. split.
  - intros Hdata Hne. unfold TemplateEngine.evaluate, ExpressionEvaluator.evaluate.
    apply String.eqb_neq in Hne. rewrite Hne.
    destruct data; try discriminate; reflexivity.
  - intros Hdata. unfold TemplateEngine.evaluate, ExpressionEvaluator.evaluate.
    destruct (String.eqb expression ""); [eexists; eexists; reflexivity|].
    destruct (objectKeys_ok h data Hdata) as [keys ->].
    rewrite runHost_catchWith.
    destruct (runHost E _) as [[v h']|msg]; eexists; eexists; reflexivity.
Qed.

(** A plain path is looked up in the data: on data that is not [null]
    or [undefined] the evaluation gives a value and leaves the store as
    it is. *)
Theorem plain_path_leaves_the_store (E : HostLib) (h : heap)
    (expression : string) (data : val) :
  ExpressionEvaluator.isNullish data = false ->
  test ExpressionEvaluator.simplePathRegex (trim expression) = true ->
  exists v, TemplateEngine.evaluate E h expression data = Ok (v, h).
Proof.
  intros Hdata Hpath. unfold TemplateEngine.evaluate, ExpressionEvaluator.evaluate.
  destruct (String.eqb expression ""); [eexists; reflexivity|].
  destruct (objectKeys_ok h data Hdata) as [keys ->].
  rewrite runHost_catchWith, Hpath. cbn [runHost].
  destruct (getNestedValue_ok E h data (trim expression)) as [v ->].
  exists v. reflexivity.
Qed.

Lemma plain_path_leaves_the_store_witness :
  exists v, TemplateEngine.evaluate bareHost sampleStore " items[1] " sampleData
            = Ok (v, sampleStore).
Proof.
  exact (plain_path_leaves_the_store bareHost sampleStore " items[1] " sampleData
           eq_refl ltac:(vm_compute; reflexivity)).
Defined.

(** A condition never throws: whatever the text, the data and the host,
    its evaluation gives a value. *)
Theorem evaluateCondition_never_throws (E : HostLib) (h : heap)
    (condition : string) (data : val) :
  exists v h', TemplateEngine.evaluateCondition E h condition data = Ok (v, h').
Proof.
  unfold TemplateEngine.evaluateCondition, ExpressionEvaluator.evaluateCondition.
  rewrite runHost_catchWith.
  destruct (runHost E _) as [[v h']|msg]; eexists; eexists; reflexivity.
Qed.

End EvaluatorProperties.

(** ** Interpolation with formatters *)

Module InterpolationProperties.
Import JsString Regex Js TemplateEngine Scenario.

(** A text piped through [escape] is escaped twice: once by the
    formatter and once more by the interpolation, so that [<] comes out
    as [&amp;lt;]. *)
Theorem escape_formatter_is_escaped_again (E : HostLib) (data : val)
    (m : rmatch) (h h1 : heap) (varPath s : string) :
  namesDirective (groupOr m 1 "") = false ->
  splitPipe (groupOr m 1 "") = (varPath, ["escape"]) ->
  startsWith varPath "this." = false ->
  evaluate E h varPath data = Ok (VStr s, h1) ->
  remainingVariableCallback E data m h = (escapeXml (escapeXml s), h1).
Proof.
  intros Hdir Hsplit Hthis Heval. unfold remainingVariableCallback.
  unfold namesDirective in Hdir. rewrite Hdir, Hsplit, Hthis, Heval.
  unfold printRemaining, withFormatters, FormatHelper.applyFormatters.
  cbn [fold_left]. unfold FormatHelper.applyOne.
  change (splitChar ":" "escape") with ["escape"]. cbv iota beta.
  match goal with
  | |- context [objGet ?f ?k] =>
      change (objGet f k) with (Some (FormatHelper.escape E))
  end.
  cbn [map]. unfold FormatHelper.escape, FormatHelper.pure.
  change (toString E h1 (VStr s)) with (Ok (A:=string) s).
  cbn [bind]. cbv iota beta. cbn [formattingValue].
  change (FormatHelper.escapeText s) with (escapeXml s).
  unfold FormatHelper.orElse, escapedText. cbn [truthy].
  destruct (String.eqb_spec (escapeXml s) "") as [He|He]; cbn [negb].
  - change (toString E h1 (VStr "")) with (Ok (A:=string) ""). rewrite He.
    reflexivity.
  - reflexivity.
Qed.

Lemma escape_formatter_is_escaped_again_witness :
  remainingVariableCallback bareHost sampleData
    (RMatch 0 "${title | escape}" [(1, "title | escape")]) sampleStore
  = (escapeXml (escapeXml "a<b"), sampleStore).
Proof.
  exact (escape_formatter_is_escaped_again bareHost sampleData
           (RMatch 0 "${title | escape}" [(1, "title | escape")])
           sampleStore sampleStore "title" "a<b"
           eq_refl eq_refl eq_refl ltac:(vm_compute; reflexivity)).
Defined.

Example escaped_twice :
  fst (processRemainingVariables bareHost "<w:t>${title | escape}</w:t>"
         sampleData sampleStore)
  = "<w:t>a&amp;lt;b</w:t>".
Proof. vm_compute. reflexivity. Qed.

End InterpolationProperties.

(** ** The generator: templates, slots, batches, pauses *)

Module GeneratorFacts.
Import JsString StringFacts Js DocumentGenerator.
Local Open Scope list_scope.

Lemma generateDocument_failure (E : HostLib) (templateBuffer : string)
    (data : val) (o : options) (h : heap) (msg : string) :
  fst (generateDocument E templateBuffer data o h) = Throw msg ->
  startsWith msg "Document generation failed: " = true.
Proof.
  unfold generateDocument.
  destruct (validateDocxBuffer E templateBuffer) as [u|m];
    [|intros [= <-]; exact (startsWith_app "Document generation failed: " m)].
  destruct (validateGenerationData h data) as [u'|m];
    [|intros [= <-]; exact (startsWith_app "Document generation failed: " m)].
  destruct (preprocessData E data o h) as [[processedData h1]|m];
    [|intros [= <-]; exact (startsWith_app "Document generation failed: " m)].
  destruct (TemplateEngine.processTemplate E templateBuffer processedData h1)
    as [[generatedBuffer|m] h2]; [discriminate|].
  intros [= <-]. exact (startsWith_app "Document generation failed: " m).
Qed.

Lemma generateDocument_invalid_template (E : HostLib) (templateBuffer : string)
    (data : val) (o : options) (h : heap) (msg : string) :
  validateDocxBuffer E templateBuffer = Throw msg ->
  generateDocument E templateBuffer data o h
  = (Throw ("Document generation failed: " ++ msg)%string, h).
Proof. intros H. unfold generateDocument. rewrite H. reflexivity. Qed.

Section Batch.
Variable generate : string -> val -> options -> heap -> result string * heap.
Variable templateBuffer : string.

Lemma slotsFrom_index (idx : nat -> nat) (o : options) :
  forall l k h,
    map itemIndex (fst (slotsFrom generate idx templateBuffer l k o h))
    = map idx (seq k (List.length l)).
Proof.
  induction l as [|data rest IH]; intros k h; simpl; [reflexivity|].
  destruct (generate templateBuffer data (withIndex o (idx k)) h) as [r h1].
  specialize (IH (S k) h1).
  destruct (slotsFrom generate idx templateBuffer rest (S k) o h1) as [slots h2].
  simpl in *. rewrite IH. destruct r; reflexivity.
Qed.

Lemma generateFrom_length (o : options) :
  forall l i h,
    List.length (fst (generateFrom generate templateBuffer l i o h)) = List.length l.
Proof.
  induction l as [|data rest IH]; intros i h; simpl; [reflexivity|].
  destruct (generate templateBuffer data (withIndex o i) h) as [r h1].
  specialize (IH (S i) h1).
  destruct (generateFrom generate templateBuffer rest (S i) o h1). simpl in *. lia.
Qed.

(** A batch size below zero moves the index of the loop backwards. *)
Lemma batchFrom_backwards (o : options) (dataArray : list val) :
  (effectiveBatchSize o < 0)%Z ->
  forall fuel i results sleeps h,
    (i < Z.of_nat (List.length dataArray))%Z ->
    batchFrom generate fuel templateBuffer dataArray o i results sleeps h = None.
Proof.
  intros Hsize. induction fuel as [|fuel IH]; intros i results sleeps h Hi;
    [reflexivity|].
  cbn [batchFrom].
  destruct (Z.ltb_spec i (Z.of_nat (List.length dataArray))) as [_|Hge]; [|lia].
  destruct (generateMultipleDocumentsWith generate templateBuffer _ o h)
    as [batchResults h1].
  apply IH. lia.
Qed.

(** The pauses of the loop: one after each batch but the last. *)
Lemma batchFrom_sleeps (o : options) (size : nat) (d : Z) (dataArray : list val) :
  0 < size ->
  effectiveBatchSize o = Z.of_nat size ->
  delayOf o = Some d ->
  forall fuel i results sleeps h,
    i < List.length dataArray ->
    List.length dataArray - i < fuel ->
    option_map (fun r => snd (fst r))
      (batchFrom generate fuel templateBuffer dataArray o (Z.of_nat i) results sleeps h)
    = Some (sleeps ++ repeat d ((List.length dataArray - 1 - i) / size)).
Proof.
  intros Hsize Heff Hdelay.
  induction fuel as [|fuel IH]; intros i results sleeps h Hi Hfuel; [lia|].
  cbn [batchFrom]. rewrite Heff, Hdelay.
  destruct (Z.ltb_spec (Z.of_nat i) (Z.of_nat (List.length dataArray))) as [_|Hge];
    [|lia].
  destruct (generateMultipleDocumentsWith generate templateBuffer _ o h)
    as [batchResults h1].
  destruct (Z.ltb_spec (Z.of_nat i + Z.of_nat size)
              (Z.of_nat (List.length dataArray))) as [Hmore|Hlast].
  - replace (Z.of_nat i + Z.of_nat size)%Z with (Z.of_nat (i + size)) by lia.
    rewrite IH by lia. f_equal. rewrite <- List.app_assoc. f_equal.
    replace (List.length dataArray - 1 - i)
      with (List.length dataArray - 1 - (i + size) + 1 * size) by lia.
    rewrite Nat.div_add by lia.
    rewrite Nat.add_1_r. reflexivity.
  - destruct fuel as [|fuel']; [lia|]. cbn [batchFrom].
    destruct (Z.ltb_spec (Z.of_nat i + Z.of_nat size)
                (Z.of_nat (List.length dataArray))) as [Hlt|_]; [lia|].
    cbn [option_map fst snd]. rewrite Nat.div_small by lia.
    rewrite app_nil_r. reflexivity.
Qed.

Lemma batchFrom_no_delay (o : options) (dataArray : list val) :
  delayOf o = None ->
  forall fuel i results sleeps h r,
    batchFrom generate fuel templateBuffer dataArray o i results sleeps h = Some r ->
    snd (fst r) = sleeps.
Proof.
  intros Hdelay. induction fuel as [|fuel IH]; intros i results sleeps h r;
    [discriminate|].
  cbn [batchFrom]. rewrite Hdelay.
  destruct (Z.ltb i (Z.of_nat (List.length dataArray))).
  - destruct (generateMultipleDocumentsWith generate templateBuffer _ o h)
      as [batchResults h1]. apply IH.
  - intros [= <-]. reflexivity.
Qed.

End Batch.

End GeneratorFacts.

Module GeneratorProperties.
Import JsString StringFacts Js DocumentGenerator GeneratorFacts Scenario.
Local Open Scope list_scope.

(** What [validateDocxBuffer] accepts: a buffer of 1000 bytes at least
    and 100 MB at most that starts with one of the three signatures,
    that the archive library loads, whose archive has the three
    required parts and whose main part has 100 characters at least. *)
Theorem validateDocxBuffer_accepts (E : HostLib) (buffer : string) :
  validateDocxBuffer E buffer = Ok tt
  <-> (1000 <= String.length buffer
       /\ String.length buffer <= 100 * 1024 * 1024
       /\ existsb (fun sig => hasSignature sig buffer) validSignatures = true
       /\ exists zip documentXml,
            pizzipLoad E buffer = Ok zip
            /\ (forall file, In file requiredFiles -> hasFile zip file = true)
            /\ objGet zip "word/document.xml" = Some documentXml
            /\ 100 <= String.length documentXml).
Proof.
  unfold validateDocxBuffer.
  destruct (Nat.ltb_spec (String.length buffer) 1000) as [Hsmall|Hsmall].
  { split; [discriminate|]. intros (H & _). lia. }
  destruct (Nat.ltb_spec (100 * 1024 * 1024) (String.length buffer)) as [Hbig|Hbig].
  { split; [discriminate|]. intros (_ & H & _). lia. }
  destruct (existsb (fun sig => hasSignature sig buffer) validSignatures) eqn:Hsig;
    cbn [negb].
  2:{ split; [discriminate|]. intros (_ & _ & H & _). discriminate. }
  unfold checkArchive.
  destruct (pizzipLoad E buffer) as [zip|msg] eqn:Hload; cbn [bind].
  2:{ split.
      - destruct (includes msg "Invalid DOCX structure" || includes msg "Invalid or empty");
          discriminate.
      - intros (_ & _ & _ & zip & xml & Hzip & _). discriminate. }
  destruct (filter (fun file => negb (hasFile zip file)) requiredFiles)
    as [|missing rest] eqn:Hmissing.
  - assert (Hall : forall file, In file requiredFiles -> hasFile zip file = true).
    { intros file Hin. destruct (hasFile zip file) eqn:Hf; [reflexivity|].
      assert (Hm : In file (filter (fun file => negb (hasFile zip file)) requiredFiles)).
      { apply filter_In. split; [exact Hin|]. rewrite Hf. reflexivity. }
      rewrite Hmissing in Hm. destruct Hm. }
    destruct (objGet zip "word/document.xml") as [documentXml|] eqn:Hxml.
    + destruct (Nat.ltb_spec (String.length documentXml) 100) as [Hshort|Hlong].
      * split; [discriminate|].
        intros (_ & _ & _ & zip' & xml & [= <-] & _ & Hx & Hlen).
        rewrite Hxml in Hx. injection Hx as <-. lia.
      * split; [|reflexivity]. intros _.
        repeat split; try assumption. exists zip, documentXml.
        repeat split; assumption.
    + split; [discriminate|].
      intros (_ & _ & _ & zip' & xml & [= <-] & _ & Hx & _).
      rewrite Hxml in Hx. discriminate.
  - split.
    + destruct (includes _ "Invalid DOCX structure" || includes _ "Invalid or empty");
        discriminate.
    + intros (_ & _ & _ & zip' & xml & [= <-] & Hall & _).
      assert (Hm : In missing (filter (fun file => negb (hasFile zip file)) requiredFiles))
        by (rewrite Hmissing; left; reflexivity).
      apply filter_In in Hm. destruct Hm as [Hin Hneg].
      rewrite (Hall missing Hin) in Hneg. discriminate.
Qed.

(** [generateMultipleDocuments] returns one slot per dataset, numbered
    by its position; a slot is either a success with its document and
    the size of the document, or a failure with a message that starts
    with [Document generation failed: ]. No exception of a dataset
    escapes. *)
Theorem generateMultipleDocuments_slots (E : HostLib) (templateBuffer : string)
    (dataArray : list val) (o : options) (h : heap) :
  map itemIndex (fst (generateMultipleDocuments E templateBuffer dataArray o h))
  = seq 0 (List.length dataArray)
  /\ Forall (fun slot =>
               match error slot with
               | None =>
                   success slot = true
                   /\ exists d, document slot = Some d
                                /\ size slot = Some (String.length d)
               | Some msg =>
                   success slot = false /\ document slot = None
                   /\ size slot = None
                   /\ startsWith msg "Document generation failed: " = true
               end)
       (fst (generateMultipleDocuments E templateBuffer dataArray o h)).
Proof.
  unfold generateMultipleDocuments, generateMultipleDocumentsWith.
  generalize 0 as i. revert h.
  induction dataArray as [|data rest IH]; intros h i; cbn [generateFrom].
  - split; [reflexivity|constructor].
  - pose proof (generateDocument_failure E templateBuffer data (withIndex o i) h)
      as Hfail.
    destruct (generateDocument E templateBuffer data (withIndex o i) h) as [r h1].
    destruct (IH h1 (S i)) as [Hidx Hall].
    destruct (generateFrom (generateDocument E) templateBuffer rest (S i) o h1)
      as [slots h2].
    cbn [fst snd map List.length seq] in *. split.
    + rewrite Hidx. destruct r; reflexivity.
    + constructor; [|exact Hall].
      destruct r as [generatedDoc|msg]; cbn [error success document size].
      * split; [reflexivity|]. exists generatedDoc. split; reflexivity.
      * repeat split. apply Hfail. reflexivity.
Qed.

(** When the template is rejected, every slot is a failure with the
    message of the template, and the store is left as it is. *)
Theorem rejected_template_fails_every_slot (E : HostLib)
    (templateBuffer : string) (dataArray : list val) (o : options) (h : heap)
    (msg : string) :
  validateDocxBuffer E templateBuffer = Throw msg ->
  generateMultipleDocuments E templateBuffer dataArray o h
  = (map (fun i => Item i false None None
                     (Some ("Document generation failed: " ++ msg)%string))
       (seq 0 (List.length dataArray)), h).
Proof.
  intros Hbad. unfold generateMultipleDocuments, generateMultipleDocumentsWith.
  generalize 0 as i.
  induction dataArray as [|data rest IH]; intros i; cbn [generateFrom];
    [reflexivity|].
  rewrite (generateDocument_invalid_template E templateBuffer data _ h msg Hbad).
  rewrite IH. reflexivity.
Qed.

Lemma rejected_template_fails_every_slot_witness :
  generateMultipleDocuments bareHost "PK" [VNull; sampleData]
    (Options None None VUndef false None) sampleStore
  = (map (fun i => Item i false None None
                     (Some ("Document generation failed: "
                            ++ "DOCX file too small (2 bytes). Minimum size should be ~3KB")%string))
       (seq 0 (List.length [VNull; sampleData])), sampleStore).
Proof.
  exact (rejected_template_fails_every_slot bareHost "PK" [VNull; sampleData]
           (Options None None VUndef false None) sampleStore _ eq_refl).
Defined.

(** With a positive batch size [batchGenerate] returns: it gives one
    slot per dataset, and the slot of dataset [k] carries the index
    [k mod size]. *)
Theorem batchGenerate_returns_one_slot_per_dataset (E : HostLib)
    (templateBuffer : string) (dataArray : list val) (o : options)
    (size : nat) (h : heap) :
  0 < size ->
  effectiveBatchSize o = Z.of_nat size ->
  exists results sleeps h',
    batchGenerate E templateBuffer dataArray o h = Some (results, sleeps, h')
    /\ List.length results = List.length dataArray
    /\ map itemIndex results
       = map (fun k => Nat.modulo k size) (seq 0 (List.length dataArray)).
Proof.
  intros Hsize Heff. unfold batchGenerate, batchGenerateWith.
  destruct (BatchFacts.batchFrom_slots (generateDocument E) templateBuffer o size
              dataArray Hsize Heff (S (List.length dataArray)) 0 [] [] h)
    as [sleeps' Hrun]; try lia.
  { apply Nat.Div0.mod_0_l. }
  cbn [Z.of_nat skipn app] in Hrun. rewrite Hrun.
  pose proof (slotsFrom_index (generateDocument E) templateBuffer
                (fun k => Nat.modulo k size) o dataArray 0 h) as Hidx.
  pose proof (BatchFacts.slotsFrom_length (generateDocument E) templateBuffer
                (fun k => Nat.modulo k size) o dataArray 0 h) as Hlen.
  destruct (slotsFrom (generateDocument E) (fun k => Nat.modulo k size)
              templateBuffer dataArray 0 o h) as [slots h'].
  cbn [fst] in Hidx, Hlen.
  exists slots, sleeps', h'. repeat split; assumption.
Qed.

Lemma batchGenerate_returns_one_slot_per_dataset_witness :
  exists results sleeps h',
    batchGenerate bareHost "PK" [VNull; sampleData; VNull]
      (Options (Some 2%Z) None VUndef false None) sampleStore
    = Some (results, sleeps, h')
    /\ List.length results = List.length [VNull; sampleData; VNull]
    /\ map itemIndex results
       = map (fun k => Nat.modulo k 2)
           (seq 0 (List.length [VNull; sampleData; VNull])).
Proof.
  apply (batchGenerate_returns_one_slot_per_dataset bareHost "PK"
           [VNull; sampleData; VNull]
           (Options (Some 2%Z) None VUndef false None) 2 sampleStore);
    [lia|reflexivity].
Defined.

(** With a batch size below zero and at least one dataset,
    [batchGenerate] never returns: the index of its loop goes down from
    zero and stays below the number of datasets, whatever the number of
    turns. *)
Theorem batchGenerate_negative_size_never_returns (E : HostLib)
    (templateBuffer : string) (dataArray : list val) (o : options) (h : heap)
    (fuel : nat) :
  (effectiveBatchSize o < 0)%Z ->
  0 < List.length dataArray ->
  batchFrom (generateDocument E) fuel templateBuffer dataArray o 0 [] [] h = None.
Proof.
  intros Hsize Hne. apply batchFrom_backwards; [exact Hsize|]. lia.
Qed.

Lemma batchGenerate_negative_size_never_returns_witness :
  batchFrom (generateDocument bareHost) 1000 "PK" [VNull]
    (Options (Some (-1)%Z) None VUndef false None) 0 [] [] sampleStore = None.
Proof.
  apply (batchGenerate_negative_size_never_returns bareHost "PK" [VNull]
           (Options (Some (-1)%Z) None VUndef false None) sampleStore 1000);
    [reflexivity|simpl; lia].
Defined.

(** The pauses of [batchGenerate] with a positive batch size: with a
    delay, one pause after each batch but the last; without a delay,
    none. *)
Theorem batchGenerate_pauses_between_batches (E : HostLib)
    (templateBuffer : string) (dataArray : list val) (o : options)
    (size : nat) (h : heap) :
  0 < size ->
  effectiveBatchSize o = Z.of_nat size ->
  option_map (fun r => snd (fst r))
    (batchGenerate E templateBuffer dataArray o h)
  = Some (match delayOf o with
          | Some d => repeat d ((List.length dataArray - 1) / size)
          | None => []
          end).
Proof.
  intros Hsize Heff. unfold batchGenerate, batchGenerateWith.
  destruct (delayOf o) as [d|] eqn:Hdelay.
  - destruct dataArray as [|data rest] eqn:Hd.
    + cbn. rewrite Nat.Div0.div_0_l. reflexivity.
    + rewrite <- Hd.
      pose proof (batchFrom_sleeps (generateDocument E) templateBuffer o size d
                    dataArray Hsize Heff Hdelay (S (List.length dataArray)) 0
                    [] [] h) as Hs.
      cbn [Z.of_nat app] in Hs.
      rewrite (Nat.sub_0_r (List.length dataArray - 1)) in Hs. apply Hs.
      * subst dataArray. cbn [List.length]. lia.
      * lia.
  - destruct (BatchFacts.batchFrom_slots (generateDocument E) templateBuffer o size
                dataArray Hsize Heff (S (List.length dataArray)) 0 [] [] h)
      as [sleeps' Hrun]; try lia.
    { apply Nat.Div0.mod_0_l. }
    cbn [Z.of_nat] in Hrun.
    destruct (slotsFrom (generateDocument E) _ templateBuffer (skipn 0 dataArray) 0 o h)
      as [slots h'].
    pose proof (batchFrom_no_delay (generateDocument E) templateBuffer o dataArray
                  Hdelay _ _ _ _ _ _ Hrun) as Hsl.
    rewrite Hrun. cbn [option_map fst snd] in *. rewrite Hsl. reflexivity.
Qed.

Lemma batchGenerate_pauses_between_batches_witness :
  option_map (fun r => snd (fst r))
    (batchGenerate bareHost "PK" [VNull; VNull; VNull; VNull; VNull]
       (Options (Some 2%Z) (Some 50%Z) VUndef false None) sampleStore)
  = Some (match delayOf (Options (Some 2%Z) (Some 50%Z) VUndef false None) with
          | Some d => repeat d ((List.length [VNull; VNull; VNull; VNull; VNull] - 1) / 2)
          | None => []
          end).
Proof.
  apply (batchGenerate_pauses_between_batches bareHost "PK"
           [VNull; VNull; VNull; VNull; VNull]
           (Options (Some 2%Z) (Some 50%Z) VUndef false None) 2 sampleStore);
    [lia|reflexivity].
Defined.

End GeneratorProperties.

(** ** The rows of a table *)

Module TableRowFacts.
Import JsString Regex StringFacts RegexFacts RowFacts RegexShiftFacts
       ReplaceFacts Js TemplateEngine.

(** The first row of a text under a replacement of the rows. *)
Lemma replaceSt_first_row (T : Type) (cb : rmatch -> T -> string * T)
    (pre attrs content post : string) (st : T) :
  readsTexts cb ->
  indexOf (pre ++ "<w:tr") "<w:tr" = Some (String.length pre) ->
  indexOf attrs ">" = None ->
  indexOf (content ++ "</w:tr>") "</w:tr>" = Some (String.length content) ->
  replaceSt tableRowRegex cb
    (pre ++ ("<w:tr" ++ attrs ++ ">" ++ content ++ "</w:tr>") ++ post) st
  = (pre
     ++ fst (cb (RMatch (String.length pre)
                   ("<w:tr" ++ attrs ++ ">" ++ content ++ "</w:tr>")
                   [(1, content)]) st)
     ++ fst (replaceSt tableRowRegex cb post
               (snd (cb (RMatch (String.length pre)
                           ("<w:tr" ++ attrs ++ ">" ++ content ++ "</w:tr>")
                           [(1, content)]) st))),
     snd (replaceSt tableRowRegex cb post
            (snd (cb (RMatch (String.length pre)
                        ("<w:tr" ++ attrs ++ ">" ++ content ++ "</w:tr>")
                        [(1, content)]) st)))).
Proof.
  intros Hcb Hpre Hattrs Hcontent.
  set (row := "<w:tr" ++ attrs ++ ">" ++ content ++ "</w:tr>").
  set (m := RMatch (String.length pre) row [(1, content)]).
  apply (replaceSt_first T tableRowRegex cb pre row post m st eq_refl Hcb).
  - intros j pv Hj. apply matchAt_no_tableRow.
    assert (Hrow : pre ++ row ++ post
                   = pre ++ "<w:tr" ++ (attrs ++ ">" ++ content ++ "</w:tr>") ++ post)
      by (subst row; rewrite !app_assoc; reflexivity).
    rewrite Hrow.
    pose proof (EachFacts.indexOf_after pre "<w:tr"
                  ((attrs ++ ">" ++ content ++ "</w:tr>") ++ post) Hpre) as Hi.
    apply indexOf_Some in Hi. destruct Hi as (_ & _ & Hfirst).
    exact (Hfirst j Hj).
  - intros pv.
    pose proof (matchAt_tableRow (pre ++ row ++ post) (String.length pre) pv
                  attrs content post Hattrs Hcontent) as H.
    cbn zeta in H. fold row in H. rewrite H. subst m. f_equal. f_equal.
    + pose proof (substring_shift pre (row ++ post) 0 (String.length row)) as Hs.
      rewrite Nat.add_0_r in Hs. rewrite Hs.
      rewrite ShiftFacts.substring_0. apply take_app_length.
    + f_equal. f_equal.
      replace (String.length pre + 5 + String.length attrs + 1)
        with (String.length (pre ++ "<w:tr" ++ attrs ++ ">") + 0)
        by (rewrite !length_app; simpl; lia).
      replace (String.length (pre ++ "<w:tr" ++ attrs ++ ">") + 0
               + String.length content)
        with (String.length (pre ++ "<w:tr" ++ attrs ++ ">")
              + String.length content) by lia.
      assert (Hrow : pre ++ row ++ post
                     = (pre ++ "<w:tr" ++ attrs ++ ">")
                       ++ content ++ "</w:tr>" ++ post)
        by (subst row; rewrite !app_assoc; reflexivity).
      rewrite Hrow, substring_shift, ShiftFacts.substring_0.
      apply take_app_length.
  - reflexivity.
  - reflexivity.
  - subst row. discriminate.
Qed.

Lemma join_empty (l : list string) :
  Nat.eqb (String.length (join "" l)) 0 = forallb (fun x => String.eqb x "") l.
Proof.
  induction l as [|x l IH]; [reflexivity|].
  destruct l as [|y l].
  - cbn [join forallb]. rewrite andb_true_r. destruct x; reflexivity.
  - change (join "" (x :: y :: l)) with (x ++ "" ++ join "" (y :: l)).
    cbn [append]. rewrite length_app. cbn [forallb] in *.
    rewrite <- IH. destruct x; [reflexivity|]. reflexivity.
Qed.

Lemma forallb_map (A B : Type) (f : A -> B) (p : B -> bool) (l : list A) :
  forallb p (map f l) = forallb (fun x => p (f x)) l.
Proof. induction l as [|x l IH]; [reflexivity|]. cbn. rewrite IH. reflexivity. Qed.

(** The decision of [removeTableControlRows] on a row. *)
Lemma controlRowCallback_blank (m : rmatch) :
  controlRowCallback m
  = if blankLeaves (groupOr m 1 "") || String.eqb (innerText (groupOr m 1 "")) ""
    then "" else m_text m.
Proof.
  unfold controlRowCallback, blankLeaves.
  assert (Hlen : forall s, Nat.eqb (String.length s) 0 = String.eqb s "")
    by (intros [|c s]; reflexivity).
  rewrite Hlen.
  destruct (matchAll textLeafRegex (groupOr m 1 "")) as [|leaf leaves];
    [reflexivity|].
  rewrite join_empty, forallb_map.
  destruct (forallb _ (leaf :: leaves)); reflexivity.
Qed.

Lemma controlRowCallback_readsTexts :
  readsTexts (fun m (_ : unit) => (controlRowCallback m, tt)).
Proof. intros d m st. reflexivity. Qed.

Lemma tableLoopCallback_readsTexts (E : HostLib) (data : val) :
  readsTexts (tableLoopCallback E data).
Proof. intros d m st. reflexivity. Qed.

End TableRowFacts.

Module TableRowProperties.
Import JsString Regex StringFacts RegexFacts RowFacts RegexShiftFacts
       ReplaceFacts Js TemplateEngine TableRowFacts Scenario.

(** The decision of [removeTableControlRows] on the first row of a
    text. A row is the text from [<w:tr ...>] to the next [</w:tr>]; it
    is deleted when it has text leaves and they are all blank, and also
    when what is left of it without its tags is blank; it is kept as it
    is otherwise. The text before the row is kept, the text after it is
    cleaned in its turn. *)
Theorem removeTableControlRows_first_row (pre attrs content post : string) :
  indexOf (pre ++ "<w:tr") "<w:tr" = Some (String.length pre) ->
  indexOf attrs ">" = None ->
  indexOf (content ++ "</w:tr>") "</w:tr>" = Some (String.length content) ->
  removeTableControlRows
    (pre ++ ("<w:tr" ++ attrs ++ ">" ++ content ++ "</w:tr>") ++ post)
  = pre
    ++ (if blankLeaves content || String.eqb (innerText content) ""
        then "" else "<w:tr" ++ attrs ++ ">" ++ content ++ "</w:tr>")
    ++ removeTableControlRows post.
Proof.
  intros Hpre Hattrs Hcontent. unfold removeTableControlRows, replaceFn.
  rewrite (replaceSt_first_row unit _ pre attrs content post tt
             controlRowCallback_readsTexts Hpre Hattrs Hcontent).
  cbn [fst snd]. rewrite controlRowCallback_blank. reflexivity.
Qed.

Lemma removeTableControlRows_first_row_witness :
  removeTableControlRows
    ("<w:tbl>" ++ ("<w:tr" ++ " w:rsidR=1" ++ ">" ++ "<w:tc><w:p/></w:tc>" ++ "</w:tr>")
     ++ "</w:tbl>")
  = "<w:tbl>"
    ++ (if blankLeaves "<w:tc><w:p/></w:tc>"
           || String.eqb (innerText "<w:tc><w:p/></w:tc>") ""
        then ""
        else "<w:tr" ++ " w:rsidR=1" ++ ">" ++ "<w:tc><w:p/></w:tc>" ++ "</w:tr>")
    ++ removeTableControlRows "</w:tbl>".
Proof.
  exact (removeTableControlRows_first_row "<w:tbl>" " w:rsidR=1"
           "<w:tc><w:p/></w:tc>" "</w:tbl>" eq_refl eq_refl eq_refl).
Defined.

(** The two cleaners on a row of cells that have no text leaf: the one
    of the pipeline keeps it, [removeTableControlRows] deletes it. *)
Example cleaners_differ_on_a_row_without_leaf :
  removeTableControlRows "<w:tbl><w:tr><w:tc><w:p/></w:tc></w:tr></w:tbl>"
  = "<w:tbl></w:tbl>"
  /\ removeEmptyControlRows "<w:tbl><w:tr><w:tc><w:p/></w:tc></w:tr></w:tbl>"
     = "<w:tbl><w:tr><w:tc><w:p/></w:tc></w:tr></w:tbl>".
Proof. vm_compute. split; reflexivity. Qed.

(** The first row of a text under [processTableLoops]: a row that opens
    a loop over a path whose value is not an array is deleted; the text
    before it is kept and the text after it is processed in its turn. *)
Theorem table_row_looping_over_no_list_is_deleted (E : HostLib)
    (pre attrs content post : string) (data : val) (h h1 : heap)
    (opener : rmatch) (v : val) :
  indexOf (pre ++ "<w:tr") "<w:tr" = Some (String.length pre) ->
  indexOf attrs ">" = None ->
  indexOf (content ++ "</w:tr>") "</w:tr>" = Some (String.length content) ->
  exec loopStartRegex content = Some opener ->
  evaluate E h (groupOr opener 1 "") data = Ok (v, h1) ->
  isArray h1 v = None ->
  processTableLoops E
    (pre ++ ("<w:tr" ++ attrs ++ ">" ++ content ++ "</w:tr>") ++ post) data h
  = (pre ++ fst (processTableLoops E post data h1),
     snd (processTableLoops E post data h1)).
Proof.
  intros Hpre Hattrs Hcontent Hopen Heval Harr. unfold processTableLoops.
  rewrite (replaceSt_first_row heap _ pre attrs content post h
             (tableLoopCallback_readsTexts E data) Hpre Hattrs Hcontent).
  unfold tableLoopCallback at 1 3 5.
  change (groupOr (RMatch (String.length pre)
                     ("<w:tr" ++ attrs ++ ">" ++ content ++ "</w:tr>")
                     [(1, content)]) 1 "") with content.
  rewrite Hopen, Heval, Harr. reflexivity.
Qed.

Lemma table_row_looping_over_no_list_is_deleted_witness :
  processTableLoops bareHost
    ("<w:tbl>" ++ ("<w:tr" ++ "" ++ ">" ++ "<w:tc>${#each title}</w:tc>" ++ "</w:tr>")
     ++ "</w:tbl>") sampleData sampleStore
  = ("<w:tbl>" ++ fst (processTableLoops bareHost "</w:tbl>" sampleData sampleStore),
     snd (processTableLoops bareHost "</w:tbl>" sampleData sampleStore)).
Proof.
  exact (table_row_looping_over_no_list_is_deleted bareHost "<w:tbl>" ""
           "<w:tc>${#each title}</w:tc>" "</w:tbl>" sampleData sampleStore
           sampleStore (RMatch 6 "${#each title}" [(1, "title")]) (VStr "a<b")
           eq_refl eq_refl eq_refl
           ltac:(vm_compute; reflexivity) ltac:(vm_compute; reflexivity) eq_refl).
Defined.

(** A row that opens no loop is kept by [processTableLoops]. *)
Lemma table_row_without_opener_is_kept (E : HostLib)
    (pre attrs content post : string) (data : val) (h : heap) :
  indexOf (pre ++ "<w:tr") "<w:tr" = Some (String.length pre) ->
  indexOf attrs ">" = None ->
  indexOf (content ++ "</w:tr>") "</w:tr>" = Some (String.length content) ->
  exec loopStartRegex content = None ->
  processTableLoops E
    (pre ++ ("<w:tr" ++ attrs ++ ">" ++ content ++ "</w:tr>") ++ post) data h
  = (pre ++ ("<w:tr" ++ attrs ++ ">" ++ content ++ "</w:tr>")
       ++ fst (processTableLoops E post data h),
     snd (processTableLoops E post data h)).
Proof.
  intros Hpre Hattrs Hcontent Hopen. unfold processTableLoops.
  rewrite (replaceSt_first_row heap _ pre attrs content post h
             (tableLoopCallback_readsTexts E data) Hpre Hattrs Hcontent).
  unfold tableLoopCallback at 1 3 5.
  change (groupOr (RMatch (String.length pre)
                     ("<w:tr" ++ attrs ++ ">" ++ content ++ "</w:tr>")
                     [(1, content)]) 1 "") with content.
  rewrite Hopen. reflexivity.
Qed.

End TableRowProperties.

(** ** Texts without directives *)

Module PlainTextFacts.
Import JsString Regex StringFacts RegexFacts RowFacts RegexShiftFacts
       ReplaceFacts Js TemplateEngine.

Lemma startsWith_prefix (a b : string) :
  forall s, startsWith s (a ++ b) = true -> startsWith s a = true.
Proof.
  induction a as [|c a IH]; intros s H; [apply startsWith_empty|].
  destruct s as [|d s]; cbn [append startsWith] in *; [discriminate|].
  apply andb_true_iff in H. destruct H as [H1 H2].
  rewrite H1. cbn [andb]. apply IH. exact H2.
Qed.

Lemma indexOf_longer (s a b : string) :
  indexOf s a = None -> indexOf s (a ++ b) = None.
Proof.
  intros H. apply indexOf_none. intros j _.
  pose proof (indexOf_None s a H j) as Hj. unfold occursAt in *.
  destruct (startsWith (drop j s) (a ++ b)) eqn:Hs; [|reflexivity].
  apply startsWith_prefix in Hs. congruence.
Qed.

Lemma drop_length (s : string) : drop (String.length s) s = "".
Proof.
  pose proof (drop_app_length s "") as H. rewrite app_empty_r in H. exact H.
Qed.

(** A replacement on a text in which the pattern cannot start. *)
Lemma replaceSt_no_occurrence (T : Type) (r : re) (cb : rmatch -> T -> string * T)
    (lit s : string) (st : T) :
  (forall whole p pv rs,
     startsWith rs lit = false -> matchAt r whole p pv rs = None) ->
  indexOf s lit = None ->
  replaceSt r cb s st = (s, st).
Proof.
  intros Hr Hs. unfold replaceSt, matchAll.
  pose proof (scan_pass r s s "" 0 None) as Hp.
  rewrite app_empty_r in Hp. rewrite Hp.
  - cbn [scan]. rewrite Hr.
    + cbn [rebuild]. rewrite drop_0. reflexivity.
    + pose proof (indexOf_None s lit Hs (String.length s)) as H.
      unfold occursAt in H. rewrite drop_length in H. exact H.
  - intros j pv _. apply Hr. exact (indexOf_None s lit Hs j).
Qed.

Lemma matchAt_no_variable (whole : string) (p : nat) (pv : option ascii)
    (rs : string) :
  startsWith rs "${" = false -> matchAt variableRegex whole p pv rs = None.
Proof.
  intros H. unfold matchAt, variableRegex. cbn [seqs]. rewrite run_Seq.
  rewrite run_Lit. cbn [rest]. rewrite H. reflexivity.
Qed.

Lemma matchAt_no_condition (whole : string) (p : nat) (pv : option ascii)
    (rs : string) :
  startsWith rs "${" = false -> matchAt conditionRegex whole p pv rs = None.
Proof.
  intros H. unfold matchAt, conditionRegex. cbn [seqs]. rewrite run_Seq.
  rewrite run_Lit. cbn [rest].
  destruct (startsWith rs "${#if") eqn:Hs; [|reflexivity].
  apply (startsWith_prefix "${" "#if") in Hs. congruence.
Qed.

End PlainTextFacts.

Module PlainTextProperties.
Import JsString Regex StringFacts Js TemplateEngine LoopEdgeFacts
       PlainTextFacts Scenario.

(** A text in which [${] does not occur has no directive: the loops,
    the conditions and the interpolations, outside a loop and inside,
    return it as it is and leave the store as it is. *)
Theorem text_without_directive_is_left_alone (E : HostLib) (xml : string)
    (data : val) (h : heap) :
  indexOf xml "${" = None ->
  processLoops E xml data h = (xml, h)
  /\ processConditions E xml data h = (xml, h)
  /\ processRemainingVariables E xml data h = (xml, h)
  /\ processVariablesInLoop E xml data h = (xml, h).
Proof.
  intros H. repeat split.
  - unfold processLoops.
    rewrite (loopFrom_no_closing_tag E xml data h
               (indexOf_longer xml "${" "/each}" H)) by lia.
    reflexivity.
  - exact (replaceSt_no_occurrence heap conditionRegex _ "${" xml h
             matchAt_no_condition H).
  - exact (replaceSt_no_occurrence heap variableRegex _ "${" xml h
             matchAt_no_variable H).
  - exact (replaceSt_no_occurrence heap variableRegex _ "${" xml h
             matchAt_no_variable H).
Qed.

Lemma text_without_directive_is_left_alone_witness :
  processLoops bareHost "<w:t>Price: 5 $ {net}</w:t>" sampleData sampleStore
  = ("<w:t>Price: 5 $ {net}</w:t>", sampleStore)
  /\ processConditions bareHost "<w:t>Price: 5 $ {net}</w:t>" sampleData sampleStore
     = ("<w:t>Price: 5 $ {net}</w:t>", sampleStore)
  /\ processRemainingVariables bareHost "<w:t>Price: 5 $ {net}</w:t>" sampleData
       sampleStore
     = ("<w:t>Price: 5 $ {net}</w:t>", sampleStore)
  /\ processVariablesInLoop bareHost "<w:t>Price: 5 $ {net}</w:t>" sampleData
       sampleStore
     = ("<w:t>Price: 5 $ {net}</w:t>", sampleStore).
Proof.
  exact (text_without_directive_is_left_alone bareHost
           "<w:t>Price: 5 $ {net}</w:t>" sampleData sampleStore eq_refl).
Defined.

End PlainTextProperties.

(** ** The values of a condition inside a loop *)

Module ParseFacts.
Import JsString Regex StringFacts RegexFacts RowFacts Js TemplateEngine.

Lemma trimEnd_last (c : ascii) (a : string) :
  isSpace c = false -> trimEnd (a ++ String c "") = a ++ String c "".
Proof.
  intros Hc. induction a as [|x a IH]; cbn [append trimEnd].
  - rewrite Hc. reflexivity.
  - rewrite IH. destruct a; reflexivity.
Qed.

Lemma trim_between (q : ascii) (s : string) :
  isSpace q = false ->
  trim (String q (s ++ String q "")) = String q (s ++ String q "").
Proof.
  intros Hq. unfold trim. cbn [trimStart]. rewrite Hq.
  exact (trimEnd_last q (String q s) Hq).
Qed.

Lemma run_Bol (R : Type) (k : mstate -> option R) (st : mstate) :
  run Bol k st = if Nat.eqb (pos st) 0 then k st else None.
Proof. reflexivity. Qed.

Lemma run_Alt (R : Type) (a b : re) (k : mstate -> option R) (st : mstate) :
  run (Alt a b) k st
  = match run a k st with Some x => Some x | None => run b k st end.
Proof. reflexivity. Qed.

Lemma run_Eps (R : Type) (k : mstate -> option R) (st : mstate) :
  run Eps k st = k st.
Proof. reflexivity. Qed.

Lemma run_Chr (R : Type) (p : ascii -> bool) (k : mstate -> option R)
    (st : mstate) :
  run (Chr p) k st
  = match rest st with
    | String c r => if p c then k (step c r st) else None
    | EmptyString => None
    end.
Proof. reflexivity. Qed.

Lemma search_numberRegex_later (whole : string) (rs : string) :
  forall p pv, search numberRegex whole (S p) pv rs = None.
Proof.
  assert (Hat : forall p pv rs', matchAt numberRegex whole (S p) pv rs' = None).
  { intros p pv rs'. unfold matchAt, numberRegex. cbn [seqs].
    rewrite run_Seq, run_Bol. reflexivity. }
  induction rs as [|c rs IH]; intros p pv; cbn [search]; rewrite Hat;
    [reflexivity|apply IH].
Qed.

Lemma test_numberRegex_no_digit (c : ascii) (s : string) :
  isDigit c = false -> Ascii.eqb "-" c = false ->
  test numberRegex (String c s) = false.
Proof.
  intros Hd Hm. unfold test, exec. cbn [search].
  assert (Hat : matchAt numberRegex (String c s) 0 None (String c s) = None).
  { unfold matchAt, numberRegex. cbn [seqs]. rewrite run_Seq, run_Bol.
    cbn [pos Nat.eqb]. rewrite run_Seq. unfold Opt at 1. rewrite run_Alt.
    rewrite run_Ch. cbn [rest]. rewrite Hm. rewrite run_Eps.
    unfold Plus at 1. rewrite !run_Seq. unfold Digit at 1. rewrite run_Chr.
    cbn [rest]. rewrite Hd. reflexivity. }
  rewrite Hat. rewrite search_numberRegex_later. reflexivity.
Qed.

Lemma endsWith_last (q : ascii) (a : string) :
  endsWith (a ++ String q "") (String q "") = true.
Proof.
  unfold endsWith. rewrite length_app. cbn [String.length].
  replace (String.length a + 1 - 1) with (String.length a) by lia.
  rewrite drop_app_length, String.eqb_refl.
  destruct (Nat.leb_spec 1 (String.length a + 1)); [reflexivity|lia].
Qed.

Lemma slice_between (q : ascii) (s : string) :
  slice (String q (s ++ String q "")) 1 (-1) = s.
Proof.
  unfold slice, sliceIndex. cbn [String.length]. rewrite length_app.
  cbn [String.length].
  destruct (Z.ltb_spec 1 0) as [|_]; [lia|].
  destruct (Z.ltb_spec (-1) 0) as [_|]; [|lia].
  replace (Nat.min (Z.to_nat 1) (S (String.length s + 1))) with 1 by lia.
  replace (Z.to_nat (Z.max (Z.of_nat (S (String.length s + 1)) + -1) 0) - 1)
    with (String.length s) by lia.
  cbn [drop]. apply take_app_length.
Qed.

Lemma parseValue_between (q : ascii) (s : string) :
  q = dquote \/ q = "'"%char ->
  parseValue (String q (s ++ String q "")) = VStr s.
Proof.
  intros Hq.
  assert (Hs : isSpace q = false) by (destruct Hq as [-> | ->]; reflexivity).
  assert (Hd : isDigit q = false) by (destruct Hq as [-> | ->]; reflexivity).
  assert (Hm : Ascii.eqb "-" q = false) by (destruct Hq as [-> | ->]; reflexivity).
  unfold parseValue. rewrite (trim_between q s Hs).
  rewrite (test_numberRegex_no_digit q _ Hd Hm).
  rewrite slice_between.
  pose proof (endsWith_last q (String q s)) as He. cbn [append] in He.
  destruct Hq as [-> | ->].
  - rewrite He. cbn [startsWith]. rewrite Ascii.eqb_refl, startsWith_empty.
    reflexivity.
  - rewrite He. cbn [startsWith]. rewrite Ascii.eqb_refl, startsWith_empty.
    rewrite !andb_true_r, orb_true_r. reflexivity.
Qed.

End ParseFacts.

Module ParseProperties.
Import JsString Regex StringFacts Js TemplateEngine ParseFacts.

(** [parseValue] of a text between two double quotes, or between two
    apostrophes, is the text between them, whatever it holds. *)
Theorem parseValue_reads_back_a_quoted_text (s : string) :
  parseValue (String dquote (s ++ String dquote "")) = VStr s
  /\ parseValue ("'" ++ s ++ "'") = VStr s.
Proof.
  split.
  - exact (parseValue_between dquote s (or_introl eq_refl)).
  - exact (parseValue_between "'" s (or_intror eq_refl)).
Qed.

End ParseProperties.

(** ** The archive *)

Module ArchiveProperties.
Import JsString Regex StringFacts Js TemplateEngine LoopEdges Scenario.
Local Open Scope list_scope.

Lemma objSet_names (A : Type) (ps : list (string * A)) (k : string) (v w : A) :
  objGet ps k = Some w -> map fst (objSet ps k v) = map fst ps.
Proof.
  induction ps as [|[k0 x] ps IH]; cbn [objGet objSet]; [discriminate|].
  destruct (String.eqb k0 k); [reflexivity|].
  intros H. cbn [map fst]. rewrite (IH H). reflexivity.
Qed.

(** A template whose archive loads and has a main part is rendered
    without exception, and the archive written has the parts of the
    template, in the same order: the main part holds the rendered text,
    every other part is the part of the template. *)
Theorem processTemplate_replaces_the_main_part_only (E : HostLib)
    (templateBuffer : string) (data : val) (h : heap) (zip : archive)
    (documentXml : string) :
  pizzipLoad E templateBuffer = Ok zip ->
  objGet zip mainPart = Some documentXml ->
  exists generated,
    processTemplate E templateBuffer data h
    = (Ok (pizzipGenerate E generated), snd (renderXml E documentXml data h))
    /\ map fst generated = map fst zip
    /\ objGet generated mainPart = Some (fst (renderXml E documentXml data h))
    /\ forall path, String.eqb path mainPart = false ->
         objGet generated path = objGet zip path.
Proof.
  intros Hload Hmain.
  exists (setPart zip mainPart (fst (renderXml E documentXml data h))).
  split; [|split; [|split]].
  - unfold processTemplate, processAdvancedTemplate. rewrite Hload, Hmain.
    destruct (renderXml E documentXml data h) as [processedXml h1]. reflexivity.
  - exact (objSet_names string zip mainPart _ documentXml Hmain).
  - apply objGet_objSet_same.
  - intros path Hpath. apply objGet_objSet_other. exact Hpath.
Qed.

Lemma processTemplate_replaces_the_main_part_only_witness :
  exists generated,
    processTemplate archiveHost "<w:t>${title}</w:t>" sampleData sampleStore
    = (Ok (pizzipGenerate archiveHost generated),
       snd (renderXml archiveHost "<w:t>${title}</w:t>" sampleData sampleStore))
    /\ map fst generated
       = map fst [("[Content_Types].xml", "<Types/>"%string);
                  ("word/document.xml", "<w:t>${title}</w:t>"%string);
                  ("_rels/.rels", "<Relationships/>"%string)]
    /\ objGet generated mainPart
       = Some (fst (renderXml archiveHost "<w:t>${title}</w:t>" sampleData
                      sampleStore))
    /\ forall path, String.eqb path mainPart = false ->
         objGet generated path
         = objGet [("[Content_Types].xml", "<Types/>"%string);
                   ("word/document.xml", "<w:t>${title}</w:t>"%string);
                   ("_rels/.rels", "<Relationships/>"%string)] path.
Proof.
  exact (processTemplate_replaces_the_main_part_only archiveHost
           "<w:t>${title}</w:t>" sampleData sampleStore _ "<w:t>${title}</w:t>"
           eq_refl eq_refl).
Defined.

Example rendered_archive :
  fst (processTemplate archiveHost "<w:t>${title}</w:t>" sampleData sampleStore)
  = Ok "<Types/><w:t>a&lt;b</w:t><Relationships/>"%string.
Proof. vm_compute. reflexivity. Qed.

End ArchiveProperties.

(** ** Interpolations outside and inside a loop *)

Module VariableProperties.
Import JsString Regex StringFacts Js TemplateEngine FirstMatchFacts ErrorClaims
       Scenario.

Lemma variableInLoopCallback_readsTexts (E : HostLib) (data : val) :
  readsTexts (variableInLoopCallback E data).
Proof. intros d m st. reflexivity. Qed.

(** Outside the loops, the first interpolation of a text is deleted
    when its path starts with [this.]: nothing is evaluated, no marker
    is left, the store is left as it is, and the text after it is
    rendered in its turn. *)
Theorem leftover_loop_variable_is_deleted (E : HostLib) (data : val) (h : heap)
    (xml : string) (m : rmatch) (ms : list rmatch) (varPath : string)
    (fs : list string) :
  matchAll variableRegex xml = m :: ms ->
  namesDirective (groupOr m 1 "") = false ->
  splitPipe (groupOr m 1 "") = (varPath, fs) ->
  startsWith varPath "this." = true ->
  processRemainingVariables E xml data h
  = (take (m_index m) xml
       ++ fst (processRemainingVariables E (drop (m_end m) xml) data h),
     snd (processRemainingVariables E (drop (m_end m) xml) data h)).
Proof.
  intros Hm Hdir Hsplit Hthis. unfold processRemainingVariables.
  rewrite (replaceSt_first_match heap variableRegex
             (remainingVariableCallback E data) xml m ms h eq_refl
             ltac:(cbn; lia) (remainingVariableCallback_readsTexts E data) Hm).
  unfold remainingVariableCallback at 1 3 5. unfold namesDirective in Hdir.
  rewrite Hdir, Hsplit, Hthis. reflexivity.
Qed.

Lemma leftover_loop_variable_is_deleted_witness :
  processRemainingVariables bareHost "[${this.name | upper}]" VNull []
  = (take 1 "[${this.name | upper}]"
       ++ fst (processRemainingVariables bareHost
                 (drop 21 "[${this.name | upper}]") VNull []),
     snd (processRemainingVariables bareHost
            (drop 21 "[${this.name | upper}]") VNull [])).
Proof.
  exact (leftover_loop_variable_is_deleted bareHost VNull []
           "[${this.name | upper}]"
           (RMatch 1 "${this.name | upper}" [(1, "this.name | upper")]) []
           "this.name" ["upper"]
           ltac:(vm_compute; reflexivity) eq_refl eq_refl eq_refl).
Defined.

(** Inside a loop, the first interpolation of a text, when it is
    [${this}] and the item is neither [null] nor [undefined] nor a
    styled result, prints the item as a text, escaped: zero prints [0]
    and false prints [false]. *)
Theorem loop_variable_this_prints_the_item (E : HostLib) (data : val) (h : heap)
    (xml : string) (m : rmatch) (ms : list rmatch) (item : val) :
  matchAll variableRegex xml = m :: ms ->
  groupOr m 1 "" = "this" ->
  getProp E h data "this" = Ok item ->
  ExpressionEvaluator.isNullish item = false ->
  formattingValue E h item = Ok None ->
  processVariablesInLoop E xml data h
  = (take (m_index m) xml
       ++ match toString E h item with
          | Ok text => escapeXml text
          | Throw _ => "[ERROR: this]"
          end
       ++ fst (processVariablesInLoop E (drop (m_end m) xml) data h),
     snd (processVariablesInLoop E (drop (m_end m) xml) data h)).
Proof.
  intros Hm Hexp Hthis Hitem Hfmt. unfold processVariablesInLoop.
  rewrite (replaceSt_first_match heap variableRegex
             (variableInLoopCallback E data) xml m ms h eq_refl
             ltac:(cbn; lia) (variableInLoopCallback_readsTexts E data) Hm).
  assert (Hcb : variableInLoopCallback E data m h
                = (match toString E h item with
                   | Ok text => escapeXml text
                   | Throw _ => "[ERROR: this]"
                   end, h)).
  { unfold variableInLoopCallback. rewrite Hexp.
    change (trim "this") with "this".
    change (startsWith "this" "#each" || startsWith "this" "#if"
            || startsWith "this" "/each" || startsWith "this" "/if") with false.
    change (splitPipe "this") with ("this", @nil string).
    cbv iota beta.
    change (startsWith "this" "this.") with false.
    change (String.eqb "this" "this") with true. cbv iota.
    rewrite Hthis. cbn [bind withFormatters]. rewrite Hfmt, Hitem.
    unfold escapedText, errorMarker. reflexivity. }
  rewrite Hcb. reflexivity.
Qed.

(** The item 0 is printed as [0]; the item [{toString: 1}], which has no
    text, as the marker. *)
Lemma loop_variable_this_prints_the_item_witness :
  processVariablesInLoop bareHost "<${this}>" (VRef 0) zeroItemStore
  = ("<" ++ "0"
       ++ fst (processVariablesInLoop bareHost ">" (VRef 0) zeroItemStore),
     snd (processVariablesInLoop bareHost ">" (VRef 0) zeroItemStore))
  /\ processVariablesInLoop bareHost "<${this}>" uncoercibleContext
       uncoercibleItemStore
     = ("<" ++ "[ERROR: this]"
          ++ fst (processVariablesInLoop bareHost ">" uncoercibleContext
                    uncoercibleItemStore),
        snd (processVariablesInLoop bareHost ">" uncoercibleContext
               uncoercibleItemStore)).
Proof.
  split.
  - exact (loop_variable_this_prints_the_item bareHost (VRef 0) zeroItemStore
             "<${this}>" (RMatch 1 "${this}" [(1, "this")]) []
             (VNum JsNumber.zero)
             ltac:(vm_compute; reflexivity) eq_refl eq_refl eq_refl eq_refl).
  - exact (loop_variable_this_prints_the_item bareHost uncoercibleContext
             uncoercibleItemStore
             "<${this}>" (RMatch 1 "${this}" [(1, "this")]) [] uncoercible
             ltac:(vm_compute; reflexivity) eq_refl eq_refl eq_refl eq_refl).
Defined.

(** Zero inside a loop and outside. *)
Example zero_inside_and_outside_a_loop :
  fst (processVariablesInLoop bareHost "<${this}>" (VRef 0) zeroItemStore) = "<0>"
  /\ fst (processRemainingVariables bareHost "<${n}>" sampleData sampleStore) = "<>".
Proof. vm_compute. split; reflexivity. Qed.

End VariableProperties.

(** ** The renderings of a loop *)

Module EachRenderFacts.
Import JsString Regex StringFacts RegexFacts RowFacts RegexShiftFacts
       ReplaceFacts Js TemplateEngine StoreFacts EachFacts PlainTextFacts
       Scenario.

(** A text occurs only where its first character does. *)
Lemma occursAt_head (s p q : string) (j : nat) :
  occursAt s p j = false -> occursAt s (p ++ q) j = false.
Proof.
  unfold occursAt. intros H.
  destruct (startsWith (drop j s) (p ++ q)) eqn:Hs; [|reflexivity].
  apply startsWith_prefix in Hs. congruence.
Qed.

(** A text that starts with [$] does not occur in [A $ M B] when [A]
    and [M B] hold no [$] and [$ M B] does not start with it. *)
Lemma indexOf_around (A M B q : string) :
  indexOf A "$" = None ->
  indexOf (M ++ B) "$" = None ->
  startsWith ("$" ++ M ++ B) ("$" ++ q) = false ->
  indexOf (A ++ "$" ++ M ++ B) ("$" ++ q) = None.
Proof.
  intros HA HB Hs. apply indexOf_none. intros j _.
  destruct (Nat.lt_trichotomy j (String.length A)) as [Hlt|[Heq|Hgt]].
  - apply occursAt_head. rewrite occursAt_app_fits by (simpl; lia).
    exact (indexOf_None _ _ HA j).
  - subst j. rewrite <- (Nat.add_0_r (String.length A)), occursAt_shift.
    exact Hs.
  - replace j with (String.length A + S (j - String.length A - 1)) by lia.
    rewrite occursAt_shift. apply occursAt_head.
    exact (indexOf_None _ _ HB (j - String.length A - 1)).
Qed.

Lemma processLoops_no_opening_tag (E : HostLib) (xml : string) (data : val)
    (h : heap) :
  indexOf xml loopStartMarker = None -> processLoops E xml data h = (xml, h).
Proof.
  intros H. unfold processLoops. cbn [loopFrom].
  rewrite indexOfFrom_0, H. reflexivity.
Qed.

Lemma matchAt_no_if (whole : string) (p : nat) (pv : option ascii)
    (rs : string) :
  startsWith rs "${#if" = false -> matchAt conditionRegex whole p pv rs = None.
Proof.
  intros H. unfold matchAt, conditionRegex. cbn [seqs]. rewrite run_Seq.
  rewrite run_Lit. cbn [rest]. rewrite H. reflexivity.
Qed.

Lemma processConditionsInLoop_no_if (E : HostLib) (h : heap) (xml : string)
    (data : val) :
  indexOf xml "${#if" = None -> processConditionsInLoop E h xml data = xml.
Proof.
  intros H. unfold processConditionsInLoop, replaceFn.
  rewrite (replaceSt_no_occurrence unit conditionRegex _ "${#if" xml tt
             matchAt_no_if H).
  reflexivity.
Qed.

(** The pattern of an interpolation on [${expr}]. *)
Lemma matchAt_variable (whole : string) (p : nat) (pv : option ascii)
    (c : ascii) (expr tail : string) :
  allIn (fun d => negb (Ascii.eqb "}" d)) (String c expr) = true ->
  matchAt variableRegex whole p pv ("${" ++ String c expr ++ "}" ++ tail)
  = Some (RMatch p
            (substring whole p (p + 2 + S (String.length expr) + 1))
            [(1, substring whole (p + 2) (p + 2 + S (String.length expr)))]).
Proof.
  intros Hin. cbn [allIn] in Hin. apply andb_prop in Hin.
  destruct Hin as [Hc Hexpr].
  unfold matchAt, variableRegex. cbn [seqs]. rewrite run_Seq.
  rewrite run_Lit. cbn [rest]. rewrite startsWith_app.
  rewrite (advance_read "${" _ (String c expr ++ "}" ++ tail)) by reflexivity.
  cbn [pos prev caps lastChar String.length].
  rewrite run_Seq, run_Group. unfold Plus, NotCh. rewrite run_Seq.
  rewrite ParseFacts.run_Chr. cbn [rest append]. rewrite Hc.
  unfold step. cbn [pos prev caps rest]. rewrite run_Star.
  rewrite (starLoop_greedy_class _ (fun d => negb (Ascii.eqb "}" d)) _ expr
             _ _ ("}" ++ tail)).
  - rewrite (advance_read expr _ ("}" ++ tail)) by reflexivity.
    unfold setCap. cbn [pos prev caps rest]. rewrite run_Lit. cbn [rest].
    rewrite (startsWith_app "}" tail).
    rewrite (advance_read "}" _ tail) by reflexivity.
    cbn [pos prev caps rest lastChar String.length map fst snd].
    f_equal. f_equal; [f_equal; lia|]. f_equal. f_equal. f_equal. lia.
  - reflexivity.
  - exact Hexpr.
  - reflexivity.
  - cbn [rest]. rewrite length_app. simpl. lia.
  - intros st' Hhead. rewrite run_Lit. unfold setCap. cbn [rest].
    destruct (rest st') as [|d r]; [reflexivity|]. cbn [headIn] in Hhead.
    cbn [startsWith]. destruct (Ascii.eqb "}" d); [discriminate|reflexivity].
Qed.

Lemma variableInLoopCallback_reads (E : HostLib) (data : val) :
  readsTexts (variableInLoopCallback E data).
Proof. intros d m st. reflexivity. Qed.

(** The interpolation [${this.name}] of an item that is an object with
    a text under [name]. *)
Lemma variableInLoopCallback_this_name (E : HostLib) (h : heap) (ctx : val)
    (l : nat) (ps : list (string * val)) (name : string) (index : nat) :
  getProp E h ctx "this" = Ok (VRef l) ->
  lookup l h = Some (CObj ps) ->
  objGet ps "name" = Some (VStr name) ->
  variableInLoopCallback E ctx (RMatch index "${this.name}" [(1, "this.name")]) h
  = (escapeXml name, h).
Proof.
  intros Hthis Hl Hname. unfold variableInLoopCallback.
  change (groupOr (RMatch index "${this.name}" [(1, "this.name")]) 1 "")
    with "this.name".
  change (trim "this.name") with "this.name".
  change (startsWith "this.name" "#each" || startsWith "this.name" "#if"
          || startsWith "this.name" "/each" || startsWith "this.name" "/if")
    with false.
  change (splitPipe "this.name") with ("this.name", @nil string).
  cbv iota beta.
  change (startsWith "this.name" "this.") with true. cbv iota.
  rewrite Hthis. cbn [bind].
  change (substringFrom "this.name" 5) with "name".
  unfold getNestedProperty. cbn [truthy negb orb].
  change (String.eqb "name" "") with false. cbv iota.
  change (ExpressionEvaluator.pathKeys "name") with ["name"].
  cbn [walkProperty ExpressionEvaluator.isNullish].
  change (test digitsRegex "name") with false. cbv iota.
  cbn [getProp]. rewrite Hl, Hname. cbn [bind].
  change (toString E h (VStr name)) with (Ok (A:=string) name).
  cbn [bind withFormatters formattingValue ExpressionEvaluator.isNullish].
  unfold escapedText.
  change (toString E h (VStr name)) with (Ok (A:=string) name).
  reflexivity.
Qed.

(** The interpolations of a text whose only [$] starts [${this.name}]. *)
Lemma processVariablesInLoop_this_name (E : HostLib) (data : val) (h : heap)
    (A B text : string) :
  indexOf A "$" = None ->
  indexOf B "$" = None ->
  variableInLoopCallback E data
    (RMatch (String.length A) "${this.name}" [(1, "this.name")]) h = (text, h) ->
  processVariablesInLoop E (A ++ "${this.name}" ++ B) data h = (A ++ text ++ B, h).
Proof.
  intros HA HB Hcb. unfold processVariablesInLoop.
  rewrite (replaceSt_first heap variableRegex (variableInLoopCallback E data)
             A "${this.name}" B (RMatch (String.length A) "${this.name}" [(1, "this.name")])
             h eq_refl (variableInLoopCallback_reads E data)).
  - rewrite Hcb. cbn [fst snd].
    rewrite (replaceSt_no_occurrence heap variableRegex _ "${" B h
               matchAt_no_variable (indexOf_longer B "$" "{" HB)).
    reflexivity.
  - intros j pv Hj. apply matchAt_no_variable.
    change (startsWith (drop j (A ++ "${this.name}" ++ B)) "${")
      with (occursAt (A ++ "${this.name}" ++ B) ("$" ++ "{") j).
    apply occursAt_head. rewrite occursAt_app_fits by (simpl; lia).
    exact (indexOf_None _ _ HA j).
  - intros pv.
    change ("${this.name}" ++ B) with ("${" ++ String "t" "his.name" ++ "}" ++ B).
    rewrite (matchAt_variable _ (String.length A) pv "t" "his.name" B eq_refl).
    f_equal. f_equal.
    + change (String.length A + 2 + S (String.length "his.name") + 1)
        with (String.length A + 2 + 9 + 1).
      replace (String.length A + 2 + 9 + 1) with (String.length A + 12) by lia.
      pose proof (substring_shift A ("${" ++ String "t" "his.name" ++ "}" ++ B)
                    0 12) as Hs.
      rewrite Nat.add_0_r in Hs. rewrite Hs. reflexivity.
    + f_equal. f_equal.
      change (String.length A + 2 + S (String.length "his.name"))
        with (String.length A + 2 + 9).
      replace (String.length A + 2 + 9) with (String.length A + 11) by lia.
      rewrite (substring_shift A ("${" ++ String "t" "his.name" ++ "}" ++ B)
                 2 11).
      reflexivity.
  - reflexivity.
  - reflexivity.
  - discriminate.
Qed.

Lemma named_extends (h h' : heap) (item : val) (name : string) :
  extends h h' -> named h item name -> named h' item name.
Proof.
  intros Hext (l & ps & Hitem & Hl & Hname). exists l, ps.
  split; [exact Hitem|]. split; [|exact Hname].
  exact (extends_lookup h h' l (CObj ps) Hext Hl).
Qed.

(** The rendering of the body [A${this.name}B] for one item. *)
Lemma renderItem_this_name (E : HostLib) (A B : string) (data : val)
    (count : nat) (item : val) (name : string) (index : nat) (h : heap) :
  ExpressionEvaluator.isNullish data = false ->
  indexOf A "$" = None ->
  indexOf B "$" = None ->
  named h item name ->
  exists h',
    renderItem E (fun c d hh => Some (processLoops E c d hh))
      (A ++ "${this.name}" ++ B) data count item index h
    = Some (Ok (A ++ escapeXml name ++ B, h'))
    /\ extends h h'.
Proof.
  intros Hdata HA HB (l & ps & -> & Hl & Hname).
  assert (HB' : indexOf ("{this.name}" ++ B) "$" = None)
    by (apply indexOf_char_app; [reflexivity|exact HB]).
  unfold renderItem, loopContext.
  destruct (getProp_ok E h data "this" Hdata) as [parent ->]. cbn [bind].
  unfold alloc.
  set (props := objSet _ "count" _).
  set (h' := (h ++ [CObj props])%list).
  assert (Hext : extends h h') by (exists [CObj props]; reflexivity).
  rewrite (processLoops_no_opening_tag E (A ++ "${this.name}" ++ B) _ h')
    by (exact (indexOf_around A "{this.name}" B "{#each " HA HB' eq_refl)).
  rewrite (processConditionsInLoop_no_if E h' (A ++ "${this.name}" ++ B))
    by (exact (indexOf_around A "{this.name}" B "{#if" HA HB' eq_refl)).
  exists h'. split; [|exact Hext]. f_equal. f_equal.
  apply processVariablesInLoop_this_name; [exact HA|exact HB|].
  apply (variableInLoopCallback_this_name E h' _ l ps name).
  - cbn [getProp]. subst h'. rewrite LoopEdges.lookup_new. subst props.
    repeat (rewrite LoopEdges.objGet_objSet_other by reflexivity).
    rewrite LoopEdges.objGet_objSet_same. reflexivity.
  - exact (extends_lookup h h' l (CObj ps) Hext Hl).
  - exact Hname.
Qed.

(** The renderings of the body [A${this.name}B] for the items of a
    list. *)
Lemma mapItems_this_name (E : HostLib) (A B : string) (data : val)
    (count : nat) :
  ExpressionEvaluator.isNullish data = false ->
  indexOf A "$" = None ->
  indexOf B "$" = None ->
  forall items names index h,
    Forall2 (named h) items names ->
    exists h2,
      mapItems
        (renderItem E (fun c d hh => Some (processLoops E c d hh))
           (A ++ "${this.name}" ++ B) data count) items index h
      = Some (Ok (map (fun name => A ++ escapeXml name ++ B) names, h2))
      /\ extends h h2.
Proof.
  intros Hdata HA HB items.
  induction items as [|item items IH]; intros names index h Hall;
    inversion Hall as [|? name ? names' Hitem Hrest]; subst.
  - exists h. split; [reflexivity|apply extends_refl].
  - cbn [mapItems map].
    destruct (renderItem_this_name E A B data count item name index h
                Hdata HA HB Hitem) as (h1 & -> & Hext1).
    assert (Hrest1 : Forall2 (named h1) items names').
    { eapply Forall2_impl; [|exact Hrest].
      intros x y. apply named_extends. exact Hext1. }
    destruct (IH names' (S index) h1 Hrest1) as (h2 & -> & Hext2).
    exists h2. split; [reflexivity|].
    exact (extends_trans h h1 h2 Hext1 Hext2).
Qed.

End EachRenderFacts.

Module EachClaims.
Import JsString StringFacts Js TemplateEngine StoreFacts EachFacts
       EachRenderFacts Scenario.

(** C6, as the code has it, on data that is neither [null] nor
    [undefined]. A loop over a list emits one rendering per element, in
    the order of the elements, joined by one line feed: the renderings
    are those of the body without one line break at its start and one
    at its end, by the callback of the map, item after item with its
    index, and there are as many as elements. An empty list leaves
    nothing between the text before the loop and the text after it.
    When the trimmed body is [A${this.name}B], with no [$] in [A] or
    [B], and the elements are objects with a text under [name], the
    rendering for an element is [A], its escaped name, [B]. *)
Theorem each_renders_the_body_for_each_element (E : HostLib)
    (pre path body post : string) (data : val) (h : heap)
    (arr : val) (h1 : heap) (items : list val) :
  indexOf (pre ++ loopStartMarker) loopStartMarker = Some (String.length pre) ->
  indexOf path "}" = None ->
  balancedBody body post ->
  ExpressionEvaluator.isNullish data = false ->
  evaluate E h (trim path) data = Ok (arr, h1) ->
  isArray h1 arr = Some items ->
  (exists copies h2,
     mapItems
       (renderItem E (fun c d hh => Some (processLoops E c d hh))
          (trimContent body) data (List.length items)) items 0 h1
     = Some (Ok (copies, h2))
     /\ List.length copies = List.length items
     /\ processLoops E
          (pre ++ loopStartMarker ++ path ++ "}" ++ body ++ loopEndMarker ++ post)
          data h
        = (pre ++ join lineFeed copies ++ fst (processLoops E post data h2),
           snd (processLoops E post data h2)))
  /\ (items = [] ->
      processLoops E
        (pre ++ loopStartMarker ++ path ++ "}" ++ body ++ loopEndMarker ++ post)
        data h
      = (pre ++ fst (processLoops E post data h1),
         snd (processLoops E post data h1)))
  /\ (forall (A B : string) (names : list string),
        trimContent body = A ++ "${this.name}" ++ B ->
        indexOf A "$" = None ->
        indexOf B "$" = None ->
        Forall2 (named h1) items names ->
        exists h2,
          processLoops E
            (pre ++ loopStartMarker ++ path ++ "}" ++ body ++ loopEndMarker
               ++ post) data h
          = (pre
               ++ join lineFeed
                    (map (fun name => A ++ escapeXml name ++ B) names)
               ++ fst (processLoops E post data h2),
             snd (processLoops E post data h2))).
Proof.
  intros Hopen Hpath Hclose Hdata Heval Harr.
  destruct (processLoops_each E pre path body post data h arr h1 items
              Hopen Hpath Hclose Hdata Heval Harr)
    as (copies & h2 & Hmap & Hlen & Hout).
  split; [exists copies, h2; repeat split; assumption|]. split.
  - intros ->. cbn [mapItems] in Hmap. injection Hmap as <- <-.
    exact Hout.
  - intros A B names Hbody HA HB Hnames.
    destruct (mapItems_this_name E A B data (List.length items) Hdata HA HB
                items names 0 h1 Hnames) as (h3 & Hmap3 & _).
    rewrite Hbody in Hmap. rewrite Hmap3 in Hmap. injection Hmap as <- <-.
    exists h3. exact Hout.
Qed.

(** The loop [${#each people}], its body [- ${this.name};] on a line of
    its own, over the two people of the data. *)
Lemma each_renders_the_body_for_each_element_witness :
  exists h2,
    processLoops bareHost
      ("<" ++ loopStartMarker ++ "people" ++ "}"
         ++ (lineFeed ++ "- ${this.name};" ++ lineFeed) ++ loopEndMarker ++ ">")
      peopleData peopleStore
    = ("<" ++ join lineFeed ["- Ann;"; "- B&amp;B;"]
         ++ fst (processLoops bareHost ">" peopleData h2),
       snd (processLoops bareHost ">" peopleData h2)).
Proof.
  destruct (each_renders_the_body_for_each_element bareHost "<" "people"
              (lineFeed ++ "- ${this.name};" ++ lineFeed) ">"
              peopleData peopleStore (VRef 2) peopleStore [VRef 0; VRef 1]
              eq_refl eq_refl ltac:(vm_compute; reflexivity) eq_refl
              ltac:(vm_compute; reflexivity) ltac:(vm_compute; reflexivity))
    as (_ & _ & Hnames).
  apply (Hnames "- " ";" ["Ann"; "B&B"]); try reflexivity.
  constructor; [exists 0, [("name", VStr "Ann")]; repeat split; reflexivity|].
  constructor; [exists 1, [("name", VStr "B&B")]; repeat split; reflexivity|].
  constructor.
Defined.

(** C6, the counterexample. The body is a line feed, [x], a line feed.
    Over the two elements of [items], two copies of the rendered body
    are that text twice; the loop emits [x], a line feed, [x], which
    does not hold that text even once. *)
Lemma each_trims_and_separates_the_renderings :
  fst (processLoops bareHost
         ("${#each items}" ++ lineFeed ++ "x" ++ lineFeed ++ "${/each}")
         sampleData sampleStore)
  = "x" ++ lineFeed ++ "x"
  /\ includes
       (fst (processLoops bareHost
               ("${#each items}" ++ lineFeed ++ "x" ++ lineFeed ++ "${/each}")
               sampleData sampleStore))
       (lineFeed ++ "x" ++ lineFeed)
     = false.
Proof. vm_compute. split; reflexivity. Qed.

(** The two people, each on a line. *)
Example each_person_on_a_line :
  fst (processLoops bareHost
         ("<${#each people}" ++ lineFeed ++ "- ${this.name};" ++ lineFeed
            ++ "${/each}>") peopleData peopleStore)
  = "<- Ann;" ++ lineFeed ++ "- B&amp;B;>".
Proof. vm_compute. reflexivity. Qed.

End EachClaims.
